(** * The JAX-101 notebook "Just In Time Compilation with JAX", embedded.

    Source: [docs/jax-101/02-jitting.ipynb].  The notebook's code cells
    define a handful of small Python functions ([log2], [log2_with_print],
    [log2_if_rank_2], [f], [g], [loop_body], [g_inner_jitted],
    [unjitted_loop_body], [g_inner_jitted_poorly]) and run them through
    [jax.make_jaxpr] and [jax.jit].

    The Python functions are translated line by line into a small monad
    [Py] (fuel, state, exceptions).  The pieces of the framework they call
    ([jnp.log], operator dispatch on tracers and device arrays,
    [jax.make_jaxpr], [jax.jit]) are not part of the notebook; they are
    modelled from what the notebook's prose and recorded cell outputs say
    about them, and every such definition is marked. *)

From Stdlib Require Import ZArith NArith List String Bool Lia.
Import ListNotations.
Local Open Scope Z_scope.

(** ** Floating-point scalars

    No cell output depends on how floating-point operations round, so the
    carrier and its operations are an interface.  [flit s] is the value of
    the Python literal spelled [s], [fzero x] the test [x == 0.0]. *)

Class FloatOps (F : Type) := {
  flit : string -> F;
  f_of_Z : Z -> F;
  flog : F -> F;
  fexp : F -> F;
  fadd : F -> F -> F;
  fsub : F -> F -> F;
  fmul : F -> F -> F;
  fdiv : F -> F -> F;
  fltb : F -> F -> bool;
  fzero : F -> bool;
  feq_dec : forall a b : F, {a = b} + {a <> b}
}.

(** A carrier on which the cells can be run: floating-point expressions
    left uninterpreted.  Nothing below depends on its choices for [fltb] and
    [fzero]. *)
Inductive sym :=
| SLit (s : string)
| SOfZ (z : Z)
| SLog (a : sym)
| SExp (a : sym)
| SAdd (a b : sym)
| SSub (a b : sym)
| SMul (a b : sym)
| SDiv (a b : sym).

Definition sym_eq_dec (a b : sym) : {a = b} + {a <> b}.
Proof.
  decide equality.
  - apply string_dec.
  - apply Z.eq_dec.
Defined.

#[export] Instance sym_FloatOps : FloatOps sym := {|
  flit := SLit;
  f_of_Z := SOfZ;
  flog := SLog;
  fexp := SExp;
  fadd := SAdd;
  fsub := SSub;
  fmul := SMul;
  fdiv := SDiv;
  fltb := fun _ _ => false;
  fzero := fun a => if sym_eq_dec a (SOfZ 0) then true else false;
  feq_dec := sym_eq_dec
|}.

(** ** Shapes and element types *)

(** Modelled from the spec: the element types the cells show ([int32],
    [float32], [bool]). *)
Inductive dtype := bool_ | int32 | float32.

Definition dtype_eq_dec (a b : dtype) : {a = b} + {a <> b}.
Proof. decide equality. Defined.

(** Modelled from the spec: [ShapedArray(float32[], weak_type=True)] in the
    output of the second cell: element type, shape, and whether the type
    came from a Python scalar. *)
Record ShapedArray := mkShaped {
  sa_dtype : dtype;
  sa_shape : list N;
  weak_type : bool
}.

Definition ShapedArray_eq_dec (a b : ShapedArray) : {a = b} + {a <> b}.
Proof.
  decide equality.
  - apply bool_dec.
  - apply (list_eq_dec N.eq_dec).
  - apply dtype_eq_dec.
Defined.

(** Modelled from the spec: the jaxpr primitives the notebook's functions
    reach. *)
Inductive prim := Log | Exp | Add | Sub | Mul | Div | Gt | Lt | Eq_ | Select.

Inductive exn :=
| ConcretizationTypeError
| UnexpectedTracerError
| TypeError
| AttributeError
| OverflowError
| ZeroDivisionError
| ValueError
| NameError.

Inductive outcome (A : Type) :=
| Ok (a : A)
| Raise (e : exn)
| OutOfFuel.
Arguments Ok {A} a.
Arguments Raise {A} e.
Arguments OutOfFuel {A}.

(** 32-bit two's complement wrap-around, the arithmetic of [dtype=int32]. *)
Definition wrap32 (z : Z) : Z := (z + 2147483648) mod 4294967296 - 2147483648.

Definition in_int32 (z : Z) : bool := (-2147483648 <=? z) && (z <=? 2147483647).

Section Notebook.

Context {F : Type} {FO : FloatOps F}.

(** ** Values *)

(** Modelled from the spec: one element of a device buffer. *)
Inductive elt :=
| EBool (b : bool)
| EInt (z : Z)
| EFloat (x : F).

(** The Python values that flow through the cells: Python scalars, the
    framework's concrete arrays ([DeviceArray(30, dtype=int32)]) and the
    placeholders it substitutes while tracing
    ([Traced<ShapedArray(float32[], weak_type=True)>]); a tracer carries its
    abstract value and the jaxpr variable that stands for it. *)
Inductive value :=
| PyBool (b : bool)
| PyInt (z : Z)
| PyFloat (x : F)
| DeviceArray (dt : dtype) (shape : list N) (buf : list elt)
| Tracer (aval : ShapedArray) (var : nat).

Definition elt_eq_dec (a b : elt) : {a = b} + {a <> b}.
Proof.
  decide equality.
  - apply bool_dec.
  - apply Z.eq_dec.
  - apply feq_dec.
Defined.

Definition value_eq_dec (a b : value) : {a = b} + {a <> b}.
Proof.
  decide equality.
  - apply bool_dec.
  - apply Z.eq_dec.
  - apply feq_dec.
  - apply (list_eq_dec elt_eq_dec).
  - apply (list_eq_dec N.eq_dec).
  - apply dtype_eq_dec.
  - apply Nat.eq_dec.
  - apply ShapedArray_eq_dec.
Defined.

(** ** Jaxprs *)

(** Modelled from the spec: jaxprs, as the first three cells print them:
    [{ lambda ; a. let b = log a  c = log 2.0  d = div b c in (d,) }].  An
    operand is a variable or a literal. *)
Inductive atom :=
| Var (x : nat)
| Lit (c : value).

(** Modelled from the spec: one equation [b = log a] of a jaxpr. *)
Record eqn := mkEqn {
  eq_out : nat;
  eq_prim : prim;
  eq_in : list atom
}.

(** Modelled from the spec: a jaxpr: input variables, equations, result. *)
Record jaxpr := mkJaxpr {
  invars : list nat;
  eqns : list eqn;
  outvar : atom
}.

(** ** The world the cells run in *)

(** Modelled from the spec: the trace in progress: the equations recorded so
    far and the next fresh variable. *)
Record trace_frame := mkFrame {
  fr_eqns : list eqn;
  fr_next : nat
}.

(** Modelled from the spec: what a jitted function is called with, as far as
    its cache can tell ("a given input signature"): the abstract value of a
    traced argument, the value itself of an argument "labelled as static". *)
Inductive key_elt :=
| KAval (a : ShapedArray)
| KStatic (v : value).

Definition key := list key_elt.

Definition key_eq_dec (a b : key) : {a = b} + {a <> b}.
Proof.
  apply list_eq_dec. decide equality.
  - apply ShapedArray_eq_dec.
  - apply value_eq_dec.
Defined.

(** Modelled from the spec: per jitted function, the cached compiled code, by
    call signature, and how many times the function has been compiled. *)
Record jit_state := mkJitState {
  js_cache : list (key * jaxpr);
  js_compiles : nat
}.

Inductive printed :=
| PStr (s : string)
| PVal (v : value)
| PJaxpr (j : jaxpr).

(** [global_list] is the notebook's module-level list; [stdout] collects the
    arguments of each [print]; [frame] and [jits] are the framework's own
    state.  [loop_iterations] and [api_calls] are counters kept for the
    statements below, which no function reads: the executions of a [while]
    body, and the operations asked of the framework (a call of a [jax.] or
    [jnp.] function or of a jitted function, an operator applied to a device
    array or a tracer). *)
Record World := mkWorld {
  global_list : list value;
  stdout : list (list printed);
  frame : option trace_frame;
  jits : list jit_state;
  loop_iterations : nat;
  api_calls : nat
}.

Definition set_global_list (l : list value) (w : World) : World :=
  mkWorld l (stdout w) (frame w) (jits w) (loop_iterations w) (api_calls w).
Definition set_stdout (o : list (list printed)) (w : World) : World :=
  mkWorld (global_list w) o (frame w) (jits w) (loop_iterations w) (api_calls w).
Definition set_frame (fr : option trace_frame) (w : World) : World :=
  mkWorld (global_list w) (stdout w) fr (jits w) (loop_iterations w) (api_calls w).
Definition set_jits (js : list jit_state) (w : World) : World :=
  mkWorld (global_list w) (stdout w) (frame w) js (loop_iterations w) (api_calls w).
Definition tick_loop (w : World) : World :=
  mkWorld (global_list w) (stdout w) (frame w) (jits w) (S (loop_iterations w)) (api_calls w).
Definition tick_api (w : World) : World :=
  mkWorld (global_list w) (stdout w) (frame w) (jits w) (loop_iterations w) (S (api_calls w)).

(** The interpreter before the first cell. *)
Definition initial_world : World := mkWorld [] [] None [] 0 0.

(** ** The monad: fuel for loops, the world, Python exceptions *)

Definition Py (A : Type) : Type := nat -> World -> outcome A * World.

Definition ret {A} (a : A) : Py A := fun _ w => (Ok a, w).

Definition bind {A B} (m : Py A) (k : A -> Py B) : Py B :=
  fun fuel w =>
    match m fuel w with
    | (Ok a, w') => k a fuel w'
    | (Raise e, w') => (Raise e, w')
    | (OutOfFuel, w') => (OutOfFuel, w')
    end.

Definition raise {A} (e : exn) : Py A := fun _ w => (Raise e, w).

Definition get_world : Py World := fun _ w => (Ok w, w).
Definition modify (g : World -> World) : Py unit := fun _ w => (Ok tt, g w).

Definition lift {A} (o : outcome A) : Py A := fun _ w => (o, w).

(** ** Eager evaluation of a primitive on concrete operands *)

(** Modelled from the spec: the framework's type promotion, which is not in
    the notebook; the wider of two element types, [bool_ < int32 < float32]. *)
Definition promote (a b : dtype) : dtype :=
  match a, b with
  | float32, _ | _, float32 => float32
  | int32, _ | _, int32 => int32
  | bool_, bool_ => bool_
  end.

(** Modelled from the spec: the element type of a result.  [log], [exp]
    and [/] produce floats, comparisons produce booleans, arithmetic keeps
    the wider of the operands' types (a Python scalar adopts the type of the
    array it meets: [10 + DeviceArray(20, dtype=int32)] is
    [DeviceArray(30, dtype=int32)] in the eighth cell). *)
Definition result_dtype (p : prim) (ds : list dtype) : option dtype :=
  match p, ds with
  | (Log | Exp), [_] => Some float32
  | Div, [_; _] => Some float32
  | (Gt | Lt | Eq_), [_; _] => Some bool_
  | (Add | Mul), [a; b] => Some (promote a b)
  | Sub, [a; b] => match promote a b with bool_ => None | d => Some d end
  | Select, [_; a; b] => Some (promote a b)
  | _, _ => None
  end.

(** Modelled from the spec: the shape of a result.  Operands of one shape
    give that shape, a scalar operand is broadcast against the others;
    operands of two different non-scalar shapes are rejected. *)
Fixpoint result_shape (ss : list (list N)) : option (list N) :=
  match ss with
  | [] => Some []
  | s :: rest =>
      match result_shape rest with
      | Some [] => Some s
      | Some r => match s with
                  | [] => Some r
                  | _ => if list_eq_dec N.eq_dec s r then Some r else None
                  end
      | None => None
      end
  end.

(** Modelled from the spec: part of the framework's numerics; an element
    read as an integer. *)
Definition elt_Z (e : elt) : Z :=
  match e with
  | EBool b => if b then 1 else 0
  | EInt z => z
  | EFloat _ => 0
  end.

(** Modelled from the spec: part of the framework's numerics; an element
    read as a float. *)
Definition elt_F (e : elt) : F :=
  match e with
  | EBool b => f_of_Z (if b then 1 else 0)
  | EInt z => f_of_Z z
  | EFloat x => x
  end.

(** Modelled from the spec: part of the framework's numerics; an element
    read as a boolean. *)
Definition elt_truth (e : elt) : bool :=
  match e with
  | EBool b => b
  | EInt z => negb (z =? 0)
  | EFloat x => negb (fzero x)
  end.

(** Modelled from the spec: part of the framework's numerics; the operand
    [e] converted to the element type [dt]. *)
Definition cast (dt : dtype) (e : elt) : elt :=
  match dt with
  | bool_ => EBool (elt_truth e)
  | int32 => EInt (elt_Z e)
  | float32 => EFloat (elt_F e)
  end.

(** Modelled from the spec: one element of the result of [p], whose
    operands are promoted to [dt]; integers are 32-bit and wrap around
    ([dtype=int32] in the eighth cell's output). *)
Definition elt_op (p : prim) (dt : dtype) (es : list elt) : option elt :=
  match p, es with
  | Log, [a] => Some (EFloat (flog (elt_F a)))
  | Exp, [a] => Some (EFloat (fexp (elt_F a)))
  | Div, [a; b] => Some (EFloat (fdiv (elt_F a) (elt_F b)))
  | Add, [a; b] =>
      Some match dt with
           | float32 => EFloat (fadd (elt_F a) (elt_F b))
           | int32 => EInt (wrap32 (elt_Z a + elt_Z b))
           | bool_ => EBool (elt_truth a || elt_truth b)
           end
  | Sub, [a; b] =>
      Some match dt with
           | float32 => EFloat (fsub (elt_F a) (elt_F b))
           | _ => EInt (wrap32 (elt_Z a - elt_Z b))
           end
  | Mul, [a; b] =>
      Some match dt with
           | float32 => EFloat (fmul (elt_F a) (elt_F b))
           | int32 => EInt (wrap32 (elt_Z a * elt_Z b))
           | bool_ => EBool (elt_truth a && elt_truth b)
           end
  | Gt, [a; b] =>
      Some (EBool match dt with
                  | float32 => fltb (elt_F b) (elt_F a)
                  | _ => elt_Z b <? elt_Z a
                  end)
  | Lt, [a; b] =>
      Some (EBool match dt with
                  | float32 => fltb (elt_F a) (elt_F b)
                  | _ => elt_Z a <? elt_Z b
                  end)
  | Eq_, [a; b] =>
      Some (EBool match dt with
                  | float32 => if feq_dec (elt_F a) (elt_F b) then true else false
                  | _ => elt_Z a =? elt_Z b
                  end)
  | Select, [c; a; b] => Some (cast dt (if elt_truth c then a else b))
  | _, _ => None
  end.

(** Modelled from the spec: part of the framework's numerics; the number of
    elements of an array of shape [sh]. *)
Definition size (sh : list N) : nat := N.to_nat (fold_right N.mul 1%N sh).

(** Modelled from the spec: part of the framework's numerics; a buffer as
    seen at the broadcast size [n]. *)
Definition expand (n : nat) (buf : list elt) : list elt :=
  match buf with
  | [a] => repeat a n
  | _ => buf
  end.

(** Modelled from the spec: part of the framework's numerics; the [i]-th
    elements of the operands' buffers. *)
Fixpoint column (i : nat) (bufs : list (list elt)) : option (list elt) :=
  match bufs with
  | [] => Some []
  | b :: rest =>
      match nth_error b i, column i rest with
      | Some e, Some es => Some (e :: es)
      | _, _ => None
      end
  end.

(** Modelled from the spec: part of the framework's numerics; [p] applied
    element by element, from index [i], to [n] elements. *)
Fixpoint elementwise (p : prim) (dt : dtype) (bufs : list (list elt))
    (n : nat) (i : nat) : option (list elt) :=
  match n with
  | O => Some []
  | S n' =>
      match column i bufs with
      | Some es =>
          match elt_op p dt es, elementwise p dt bufs n' (S i) with
          | Some e, Some rest => Some (e :: rest)
          | _, _ => None
          end
      | None => None
      end
  end.

(** Modelled from the spec: part of the framework's numerics; a concrete
    operand as a device buffer.  A Python int must fit the 32-bit element
    type. *)
Definition as_array (v : value) : outcome (dtype * list N * list elt) :=
  match v with
  | PyBool b => Ok (bool_, [], [EBool b])
  | PyInt z => if in_int32 z then Ok (int32, [], [EInt z]) else Raise OverflowError
  | PyFloat x => Ok (float32, [], [EFloat x])
  | DeviceArray dt sh buf => Ok (dt, sh, buf)
  | Tracer _ _ => Raise UnexpectedTracerError
  end.

(** Modelled from the spec: part of the framework's numerics; [as_array]
    over all operands. *)
Fixpoint as_arrays (vs : list value) : outcome (list (dtype * list N * list elt)) :=
  match vs with
  | [] => Ok []
  | v :: rest =>
      match as_array v, as_arrays rest with
      | Ok a, Ok l => Ok (a :: l)
      | Raise e, _ => Raise e
      | _, Raise e => Raise e
      | _, _ => OutOfFuel
      end
  end.

(** Modelled from the spec: part of the framework's numerics; the type the
    operands of [p] are promoted to before it is applied: for [where] the
    two branches, not the condition. *)
Definition operand_dtype (p : prim) (ds : list dtype) : dtype :=
  match p, ds with
  | Select, _ :: rest => fold_right promote bool_ rest
  | _, _ => fold_right promote bool_ ds
  end.

(** Modelled from the spec: a framework operation applied at once to
    concrete operands.  The framework's numerics are outside the notebook
    (the transient numeric arrays' "representation and lifecycle are
    entirely owned and defined by the external framework"); the result is a
    device array. *)
Definition impl (p : prim) (args : list value) : outcome value :=
  match as_arrays args with
  | Ok arrs =>
      let ds := map (fun a => fst (fst a)) arrs in
      let ss := map (fun a => snd (fst a)) arrs in
      match result_dtype p ds, result_shape ss with
      | Some dt, Some sh =>
          match elementwise p (operand_dtype p ds)
                  (map (fun a => expand (size sh) (snd a)) arrs) (size sh) 0 with
          | Some buf => Ok (DeviceArray dt sh buf)
          | None => Raise TypeError
          end
      | _, _ => Raise TypeError
      end
  | Raise e => Raise e
  | OutOfFuel => OutOfFuel
  end.

(** ** Abstract values and staging *)

(** Modelled from the spec: the abstract value the framework gives a value,
    not in the notebook.  The second cell prints the one of the Python float
    [3.]: [ShapedArray(float32[], weak_type=True)]; the eighth cell's result
    is an [int32] scalar.  Two simplifications: a Python int gets its
    abstract value whatever its size (the framework refuses one beyond 32
    bits), and a device array is always strongly typed (the framework may
    keep the weak type of a scalar that was computed from Python scalars). *)
Definition get_aval (v : value) : ShapedArray :=
  match v with
  | PyBool _ => mkShaped bool_ [] true
  | PyInt _ => mkShaped int32 [] true
  | PyFloat _ => mkShaped float32 [] true
  | DeviceArray dt sh _ => mkShaped dt sh false
  | Tracer a _ => a
  end.

(** Modelled from the spec: the abstract value of the result of [p], which
    the framework computes while tracing: "each tracer has a concrete shape
    (which we're allowed to condition on), but no concrete value". *)
Definition abstract_eval (p : prim) (avals : list ShapedArray) : option ShapedArray :=
  match result_dtype p (map sa_dtype avals), result_shape (map sa_shape avals) with
  | Some dt, Some sh =>
      Some (mkShaped dt sh
              (match p with
               | Gt | Lt | Eq_ => false
               | _ => forallb weak_type avals
               end))
  | _, _ => None
  end.

(** Modelled from the spec: how an operand is written in a jaxpr equation, a
    variable for a tracer ([log a]) and a literal for a constant
    ([log 2.0]). *)
Definition to_atom (v : value) : atom :=
  match v with
  | Tracer _ x => Var x
  | c => Lit c
  end.

(** Modelled from the spec: "Tracing: the external framework's technique of
    executing a function once with placeholder values to record the sequence
    of operations for later compilation."  Every operation of the framework
    goes through [bind_prim]: while a trace is in progress it is recorded as
    an equation on a fresh variable (on a constant too: the first jaxpr
    shows [c = log 2.0]) and a tracer is returned; otherwise it is evaluated
    at once.  A simplification: an equation stands for the operation
    together with the conversions of element type it needs, which the
    framework records as equations of their own. *)
Definition bind_prim (p : prim) (args : list value) : Py value :=
  fun _ w0 =>
    let w := tick_api w0 in
    match frame w with
    | Some fr =>
        match abstract_eval p (map get_aval args) with
        | Some a =>
            (Ok (Tracer a (fr_next fr)),
             set_frame
               (Some (mkFrame (fr_eqns fr ++ [mkEqn (fr_next fr) p (map to_atom args)])
                              (S (fr_next fr)))) w)
        | None => (Raise TypeError, w)
        end
    | None => (impl p args, w)
    end.

(** ** Python: operators, truth values, attributes, loops *)

Notation "x <- m ;; k" := (bind m (fun x => k))
  (at level 61, m at next level, right associativity).
Notation "m ;; k" := (bind m (fun _ => k))
  (at level 61, right associativity).

Inductive pynum :=
| NInt (z : Z)
| NFloat (x : F).

(** [bool] is a subclass of [int]. *)
Definition py_scalar (v : value) : option pynum :=
  match v with
  | PyBool b => Some (NInt (if b then 1 else 0))
  | PyInt z => Some (NInt z)
  | PyFloat x => Some (NFloat x)
  | _ => None
  end.

Definition num_F (n : pynum) : F :=
  match n with
  | NInt z => f_of_Z z
  | NFloat x => x
  end.

(** Python's own arithmetic on two Python scalars: unbounded integers,
    floats as soon as one operand is a float. *)
Definition py_arith (p : prim) (a b : pynum) : outcome value :=
  match a, b with
  | NInt x, NInt y =>
      match p with
      | Add => Ok (PyInt (x + y))
      | Sub => Ok (PyInt (x - y))
      | Mul => Ok (PyInt (x * y))
      | Div => if y =? 0 then Raise ZeroDivisionError
               else Ok (PyFloat (fdiv (f_of_Z x) (f_of_Z y)))
      | Gt => Ok (PyBool (y <? x))
      | Lt => Ok (PyBool (x <? y))
      | Eq_ => Ok (PyBool (x =? y))
      | Log | Exp | Select => Raise TypeError
      end
  | _, _ =>
      let x := num_F a in
      let y := num_F b in
      match p with
      | Add => Ok (PyFloat (fadd x y))
      | Sub => Ok (PyFloat (fsub x y))
      | Mul => Ok (PyFloat (fmul x y))
      | Div => if fzero y then Raise ZeroDivisionError else Ok (PyFloat (fdiv x y))
      | Gt => Ok (PyBool (fltb y x))
      | Lt => Ok (PyBool (fltb x y))
      | Eq_ => Ok (PyBool (if feq_dec x y then true else false))
      | Log | Exp | Select => Raise TypeError
      end
  end.

(** Modelled from the spec: a binary operator.  Two Python scalars are
    Python's business; as soon as one operand is a device array or a tracer
    its operator method runs, which is a framework operation (for a
    comparison whose left operand is the Python scalar, the reflected method
    of the right operand). *)
Definition binop (p : prim) (a b : value) : Py value :=
  match py_scalar a, py_scalar b with
  | Some x, Some y => lift (py_arith p x y)
  | Some _, None =>
      match p with
      | Gt => bind_prim Lt [b; a]
      | Lt => bind_prim Gt [b; a]
      | Eq_ => bind_prim Eq_ [b; a]
      | _ => bind_prim p [a; b]
      end
  | None, _ => bind_prim p [a; b]
  end.

Definition py_add := binop Add.
Definition py_sub := binop Sub.
Definition py_mul := binop Mul.
Definition py_truediv := binop Div.
Definition py_gt := binop Gt.
Definition py_lt := binop Lt.
Definition py_eq := binop Eq_.

(** Modelled from the spec: what [if] and [while] do with their test.  For
    Python scalars this is Python's own truth test; for the framework's
    objects it is their [__bool__], which is not in the notebook: a device
    array of one element has the truth value of that element, an empty one
    is false (NumPy warns that this is deprecated), one of several elements
    has no truth value, and "because the tracers have no concrete value, if
    we attempt to condition on one, we get the error above",
    [ConcretizationTypeError], as the sixth and seventh cells record. *)
Definition truth (v : value) : Py bool :=
  match v with
  | PyBool b => ret b
  | PyInt z => ret (negb (z =? 0))
  | PyFloat x => ret (negb (fzero x))
  | DeviceArray _ _ [] => ret false
  | DeviceArray _ _ [e] => ret (elt_truth e)
  | DeviceArray _ _ _ => raise ValueError
  | Tracer _ _ => raise ConcretizationTypeError
  end.

(** Modelled from the spec: [x.ndim], the rank of a framework object, known
    for a tracer as well ("each tracer has a concrete shape (which we're
    allowed to condition on)"); Python scalars have no such attribute. *)
Definition ndim (x : value) : Py value :=
  match x with
  | DeviceArray _ sh _ => ret (PyInt (Z.of_nat (List.length sh)))
  | Tracer a _ => ret (PyInt (Z.of_nat (List.length (sa_shape a))))
  | _ => raise AttributeError
  end.

(** [while cond: body] over the variables [s] the loop assigns; [k] bounds
    the number of times the test is evaluated. *)
Fixpoint while_loop {St} (cond : St -> Py bool) (body : St -> Py St)
    (k : nat) (s : St) : Py St :=
  match k with
  | O => lift OutOfFuel
  | S k' =>
      c <- cond s ;;
      if c then
        modify tick_loop ;;
        s' <- body s ;;
        while_loop cond body k' s'
      else ret s
  end.

Definition while_ {St} (cond : St -> Py bool) (body : St -> Py St) (s : St) : Py St :=
  fun fuel w => while_loop cond body fuel s fuel w.

Definition print (args : list printed) : Py unit :=
  modify (fun w => set_stdout (stdout w ++ [args]) w).

(** Modelled from the spec: [jnp.log], [jnp.exp] and [jnp.where] are
    operations of the framework. *)
Definition jnp_log (x : value) : Py value := bind_prim Log [x].
Definition jnp_exp (x : value) : Py value := bind_prim Exp [x].
Definition jnp_where (c x y : value) : Py value := bind_prim Select [c; x; y].

(** A Python function of positional arguments. *)
Definition pyfun := list value -> Py value.

Definition fun1 (h : value -> Py value) : pyfun :=
  fun args => match args with [x] => h x | _ => raise TypeError end.

Definition fun2 (h : value -> value -> Py value) : pyfun :=
  fun args => match args with [x; y] => h x y | _ => raise TypeError end.

(** ** The notebook's functions *)

(** Cell 1.
<<
global_list = []

def log2(x):
  global_list.append(x)
  ln_x = jnp.log(x)
  ln_2 = jnp.log(2.0)
  return ln_x / ln_2
>> *)
Definition log2 (x : value) : Py value :=
  modify (fun w => set_global_list (global_list w ++ [x]) w) ;;
  ln_x <- jnp_log x ;;
  ln_2 <- jnp_log (PyFloat (flit "2.0")) ;;
  py_truediv ln_x ln_2.

(** Cell 2.
<<
def log2_with_print(x):
  print("printed x:", x)
  ln_x = jnp.log(x)
  ln_2 = jnp.log(2.0)
  return ln_x / ln_2
>> *)
Definition log2_with_print (x : value) : Py value :=
  print [PStr "printed x:"; PVal x] ;;
  ln_x <- jnp_log x ;;
  ln_2 <- jnp_log (PyFloat (flit "2.0")) ;;
  py_truediv ln_x ln_2.

(** Cell 3.
<<
def log2_if_rank_2(x):
  if x.ndim == 2:
    ln_x = jnp.log(x)
    ln_2 = jnp.log(2.0)
    return ln_x / ln_2
  else:
    return x
>> *)
Definition log2_if_rank_2 (x : value) : Py value :=
  nd <- ndim x ;;
  c <- py_eq nd (PyInt 2) ;;
  b <- truth c ;;
  if b then
    ln_x <- jnp_log x ;;
    ln_2 <- jnp_log (PyFloat (flit "2.0")) ;;
    py_truediv ln_x ln_2
  else ret x.

(** Cell 4; [alpha=1.67] and [lambda_=1.05] are the defaults.
<<
def selu(x, alpha=1.67, lambda_=1.05):
  return lambda_ * jnp.where(x > 0, x, alpha * jnp.exp(x) - alpha)
>> *)
Definition selu (x alpha lambda_ : value) : Py value :=
  c <- py_gt x (PyInt 0) ;;
  e <- jnp_exp x ;;
  ae <- py_mul alpha e ;;
  y <- py_sub ae alpha ;;
  wh <- jnp_where c x y ;;
  py_mul lambda_ wh.

Definition selu_fn : pyfun :=
  fun args =>
    match args with
    | [x] => selu x (PyFloat (flit "1.67")) (PyFloat (flit "1.05"))
    | [x; alpha] => selu x alpha (PyFloat (flit "1.05"))
    | [x; alpha; lambda_] => selu x alpha lambda_
    | _ => raise TypeError
    end.

(** Cell 6.
<<
def f(x):
  if x > 0:
    return x
  else:
    return 2 * x
>> *)
Definition f (x : value) : Py value :=
  c <- py_gt x (PyInt 0) ;;
  b <- truth c ;;
  if b then ret x else py_mul (PyInt 2) x.

(** Cell 7.
<<
def g(x, n):
  i = 0
  while i < n:
    i += 1
  return x + i
>> *)
Definition g (x n : value) : Py value :=
  i <- while_ (fun i => c <- py_lt i n ;; truth c)
              (fun i => py_add i (PyInt 1))
              (PyInt 0) ;;
  py_add x i.

(** Cell 8, the function under the decorator.
<<
@jax.jit
def loop_body(prev_i):
  return prev_i + 1
>> *)
Definition loop_body_fn (prev_i : value) : Py value := py_add prev_i (PyInt 1).

(** Cell 15.
<<
def unjitted_loop_body(prev_i):
  return prev_i + 1
>> *)
Definition unjitted_loop_body (prev_i : value) : Py value := py_add prev_i (PyInt 1).

(** ** Tracing a function to a jaxpr *)

(** Modelled from the spec: [static_argnums], the positions of the arguments
    "labelled as static". *)
Definition is_static (static : list nat) (pos : nat) : bool :=
  existsb (Nat.eqb pos) static.

(** Modelled from the spec: the arguments that are traced, in order. *)
Fixpoint dynamic_args (static : list nat) (pos : nat) (args : list value) : list value :=
  match args with
  | [] => []
  | a :: rest =>
      if is_static static pos then dynamic_args static (S pos) rest
      else a :: dynamic_args static (S pos) rest
  end.

(** Modelled from the spec: the "placeholder values" the Python function is
    run on: a static argument as it is, any other replaced by a tracer of
    its abstract value, standing for the next input variable of the jaxpr. *)
Fixpoint tracers_for (static : list nat) (pos next : nat) (args : list value) : list value :=
  match args with
  | [] => []
  | a :: rest =>
      if is_static static pos then a :: tracers_for static (S pos) next rest
      else Tracer (get_aval a) next :: tracers_for static (S pos) (S next) rest
  end.

(** Modelled from the spec: the equations of the trace in progress. *)
Definition recorded (w : World) : list eqn :=
  match frame w with
  | Some fr => fr_eqns fr
  | None => []
  end.

(** Modelled from the spec: what the traced function returned, as the
    result of the jaxpr: the variable of a tracer, or a constant.  A
    constant has to be a value the framework can hold: a Python int beyond
    the 32-bit range is refused with [OverflowError], while tracing still. *)
Definition output_atom (out : value) : outcome atom :=
  match out with
  | Tracer _ x => Ok (Var x)
  | c => match as_array c with
         | Ok _ => Ok (Lit c)
         | Raise e => Raise e
         | OutOfFuel => OutOfFuel
         end
  end.

(** Modelled from the spec: "Tracing: the external framework's technique of
    executing a function once with placeholder values to record the sequence
    of operations for later compilation."  The function is run once, on the
    tracers, with an empty trace in progress; the jaxpr is what the trace
    holds when the function returns, the enclosing trace (if any) is put
    back. *)
Definition trace_to_jaxpr (fn : pyfun) (static : list nat) (args : list value) : Py jaxpr :=
  fun fuel w =>
    let n := List.length (dynamic_args static 0 args) in
    let w1 := set_frame (Some (mkFrame [] n)) w in
    match fn (tracers_for static 0 0 args) fuel w1 with
    | (Ok out, w2) =>
        (match output_atom out with
         | Ok a => Ok (mkJaxpr (seq 0 n) (recorded w2) a)
         | Raise e => Raise e
         | OutOfFuel => OutOfFuel
         end,
         set_frame (frame w) w2)
    | (Raise e, w2) => (Raise e, set_frame (frame w) w2)
    | (OutOfFuel, w2) => (OutOfFuel, set_frame (frame w) w2)
    end.

(** Modelled from the spec: the function [jax.make_jaxpr(fn)] returns, applied
    to arguments: "we can show a representation of the jaxpr of a function
    by using jax.make_jaxpr".  Every argument is traced. *)
Definition make_jaxpr (fn : pyfun) (args : list value) : Py jaxpr :=
  modify tick_api ;;
  trace_to_jaxpr fn [] args.

(** ** Running a jaxpr *)

(** Modelled from the spec: part of running a jaxpr; the value of a
    variable. *)
Fixpoint lookup_var (x : nat) (env : list (nat * value)) : option value :=
  match env with
  | [] => None
  | (y, v) :: rest => if Nat.eqb x y then Some v else lookup_var x rest
  end.

(** Modelled from the spec: part of running a jaxpr; the value of an
    operand. *)
Definition read_atom (env : list (nat * value)) (a : atom) : outcome value :=
  match a with
  | Lit c => Ok c
  | Var x => match lookup_var x env with
             | Some v => Ok v
             | None => Raise NameError
             end
  end.

(** Modelled from the spec: part of running a jaxpr; the values of the
    operands of an equation. *)
Fixpoint read_atoms (env : list (nat * value)) (l : list atom) : outcome (list value) :=
  match l with
  | [] => Ok []
  | a :: rest =>
      match read_atom env a, read_atoms env rest with
      | Ok v, Ok vs => Ok (v :: vs)
      | Raise e, _ => Raise e
      | _, Raise e => Raise e
      | _, _ => OutOfFuel
      end
  end.

(** Modelled from the spec: part of running a jaxpr; its equations, one
    primitive after the other. *)
Fixpoint eval_eqns (eqs : list eqn) (env : list (nat * value)) : Py (list (nat * value)) :=
  match eqs with
  | [] => ret env
  | e :: rest =>
      vs <- lift (read_atoms env (eq_in e)) ;;
      v <- bind_prim (eq_prim e) vs ;;
      eval_eqns rest ((eq_out e, v) :: env)
  end.

(** Modelled from the spec: the compiled code computes what the recorded
    operations compute, one primitive after the other, on the actual
    arguments.  A simplification: the compiled code is taken to round as
    the operations do when they are run one by one. *)
Definition eval_jaxpr (j : jaxpr) (args : list value) : Py value :=
  env <- eval_eqns (eqns j) (combine (invars j) args) ;;
  lift (read_atom env (outvar j)).

(** Modelled from the spec: a value handed to, or returned by, compiled code
    lives on the device (the cells print [DeviceArray(30, dtype=int32)] for
    a call that was given Python ints). *)
Definition device_put (v : value) : outcome value :=
  match v with
  | Tracer _ _ => Ok v
  | _ => match as_array v with
         | Ok (dt, sh, buf) => Ok (DeviceArray dt sh buf)
         | Raise e => Raise e
         | OutOfFuel => OutOfFuel
         end
  end.

(** Modelled from the spec: [device_put] over all arguments. *)
Fixpoint device_put_all (l : list value) : outcome (list value) :=
  match l with
  | [] => Ok []
  | v :: rest =>
      match device_put v, device_put_all rest with
      | Ok a, Ok l' => Ok (a :: l')
      | Raise e, _ => Raise e
      | _, Raise e => Raise e
      | _, _ => OutOfFuel
      end
  end.

(** ** [jax.jit] and its cache *)

(** Modelled from the spec: the object [jax.jit(fn, static_argnums=...)]
    returns: the function, which arguments are static, and where its cache
    lives in the world. *)
Record jitted := mkJitted {
  jit_fun : pyfun;
  static_argnums : list nat;
  jit_id : nat
}.

(** Modelled from the spec: a jitted function that has not been called:
    nothing cached, nothing compiled. *)
Definition fresh_jit_state : jit_state := mkJitState [] 0.

(** Modelled from the spec: the cache and compilation count of the jitted
    function number [id]. *)
Definition jit_state_of (w : World) (id : nat) : jit_state :=
  nth id (jits w) fresh_jit_state.

Fixpoint update_nth {A} (n : nat) (h : A -> A) (l : list A) {struct l} : list A :=
  match l, n with
  | [], _ => []
  | a :: rest, O => h a :: rest
  | a :: rest, S n' => a :: update_nth n' h rest
  end.

(** Modelled from the spec: "reuses a cached compiled artifact"; the code
    cached under the signature [k], if any. *)
Fixpoint lookup_cache (k : key) (c : list (key * jaxpr)) : option jaxpr :=
  match c with
  | [] => None
  | (k', j) :: rest => if key_eq_dec k k' then Some j else lookup_cache k rest
  end.

(** Modelled from the spec: a static argument is part of the cache key, so
    it must be hashable; Python scalars are. *)
Definition hashable (v : value) : bool :=
  match v with
  | PyBool _ | PyInt _ | PyFloat _ => true
  | _ => false
  end.

(** Modelled from the spec: "triggered on first invocation with a given
    input signature" and "Static argument: an input value treated as a
    compile-time constant".  The signature of a call: per argument, its
    value when static, its abstract value otherwise.  A static argument
    that is not hashable is refused with [ValueError]. *)
Fixpoint signature (static : list nat) (pos : nat) (args : list value) : outcome key :=
  match args with
  | [] => Ok []
  | a :: rest =>
      match signature static (S pos) rest with
      | Ok k =>
          if is_static static pos then
            if hashable a then Ok (KStatic a :: k) else Raise ValueError
          else Ok (KAval (get_aval a) :: k)
      | other => other
      end
  end.

(** Modelled from the spec: "JIT (Just-In-Time) compilation: deferred
    compilation of a computation".  Applying [jax.jit] only makes the
    object, with nothing compiled and an empty cache.  A simplification:
    every object has a cache of its own, where the framework may share
    compiled code between the objects made from one function. *)
Definition jax_jit (fn : pyfun) (static : list nat) : Py jitted :=
  fun _ w =>
    (Ok (mkJitted fn static (List.length (jits w))),
     tick_api (set_jits (jits w ++ [fresh_jit_state]) w)).

(** Modelled from the spec: one compilation.  The compiled code (which
    stands here for the jaxpr it was compiled from) enters the cache under
    the call's signature. *)
Definition record_compile (id : nat) (k : key) (j : jaxpr) (w : World) : World :=
  set_jits
    (update_nth id (fun st => mkJitState ((k, j) :: js_cache st) (S (js_compiles st)))
                (jits w))
    w.

(** Modelled from the spec: running compiled code.  The traced arguments
    are handed over as device values, the result comes back as one (the
    cells print [DeviceArray(30, dtype=int32)] for a call that was given
    Python ints). *)
Definition execute (code : jaxpr) (static : list nat) (args : list value) : Py value :=
  dyn <- lift (device_put_all (dynamic_args static 0 args)) ;;
  out <- eval_jaxpr code dyn ;;
  lift (device_put out).

(** Modelled from the spec: "compiling a function twice with the same
    static argument reuses a cached compiled artifact; changing the static
    argument triggers recompilation", and the notebook's "When I first
    invoke f, it will get compiled, and the resulting XLA code will get
    cached.  Subsequent calls of f will reuse the cached code."  A call
    looks its signature up; only when the cache has no entry for it is the
    Python function traced and the jaxpr compiled. *)
Definition call_jit (j : jitted) (args : list value) : Py value :=
  modify tick_api ;;
  k <- lift (signature (static_argnums j) 0 args) ;;
  w <- get_world ;;
  code <- match lookup_cache k (js_cache (jit_state_of w (jit_id j))) with
          | Some code => ret code
          | None =>
              jp <- trace_to_jaxpr (jit_fun j) (static_argnums j) args ;;
              modify (record_compile (jit_id j) k jp) ;;
              ret jp
          end ;;
  execute code (static_argnums j) args.

(** ** The notebook's functions that use [jax.jit] *)

(** Cell 8: [loop_body] is the jitted object the decorator leaves under that
    name.
<<
def g_inner_jitted(x, n):
  i = 0
  while i < n:
    i = loop_body(i)
  return x + i
>> *)
Definition loop_body : Py jitted := jax_jit (fun1 loop_body_fn) [].

Definition g_inner_jitted (loop_body : jitted) (x n : value) : Py value :=
  i <- while_ (fun i => c <- py_lt i n ;; truth c)
              (fun i => call_jit loop_body [i])
              (PyInt 0) ;;
  py_add x i.

(** Cell 15.
<<
def g_inner_jitted_poorly(x, n):
  i = 0
  while i < n:
    # Don't do this!
    i = jax.jit(unjitted_loop_body)(i)
  return x + i
>> *)
Definition g_inner_jitted_poorly (x n : value) : Py value :=
  i <- while_ (fun i => c <- py_lt i n ;; truth c)
              (fun i => j <- jax_jit (fun1 unjitted_loop_body) [] ;; call_jit j [i])
              (PyInt 0) ;;
  py_add x i.

(** ** Cells *)

(** Modelled from the spec: [jax.numpy.array(l)] on a list of Python ints,
    as the third cell calls it, outside any trace. *)
Definition jnp_array (l : list Z) : Py value :=
  modify tick_api ;;
  ret (DeviceArray int32 [N.of_nat (List.length l)] (map EInt l)).

(** Modelled from the spec: [jnp.arange(n)], as the fourth cell calls it,
    outside any trace. *)
Definition jnp_arange (n : Z) : Py value :=
  modify tick_api ;;
  ret (DeviceArray int32 [Z.to_N n]
         (map (fun k => EInt (Z.of_nat k)) (seq 0 (Z.to_nat n)))).

(** Modelled from the spec: [.block_until_ready()], a method of device
    arrays, returns the array. *)
Definition block_until_ready (v : value) : Py value :=
  match v with
  | DeviceArray _ _ _ => ret v
  | _ => raise AttributeError
  end.

(** [%timeit stmt] runs the statement over and over; how often is the
    timer's decision, a parameter here. *)
Fixpoint timeit {A} (runs : nat) (stmt : Py A) : Py unit :=
  match runs with
  | O => ret tt
  | S r => stmt ;; timeit r stmt
  end.

(** A cell tagged [raises-exception]: the error is shown and the session
    goes on. *)
Definition raises_exception {A} (cell : Py A) : Py unit :=
  fun fuel w =>
    match cell fuel w with
    | (OutOfFuel, w') => (OutOfFuel, w')
    | (_, w') => (Ok tt, w')
    end.

(** Cell 1: [print(jax.make_jaxpr(log2)(3.0))], after the assignment
    [global_list = []]. *)
Definition cell_1 : Py unit :=
  modify (set_global_list []) ;;
  j <- make_jaxpr (fun1 log2) [PyFloat (flit "3.0")] ;;
  print [PJaxpr j].

(** Cell 2: [print(jax.make_jaxpr(log2_with_print)(3.))]. *)
Definition cell_2 : Py unit :=
  j <- make_jaxpr (fun1 log2_with_print) [PyFloat (flit "3.")] ;;
  print [PJaxpr j].

(** Cell 3: [print(jax.make_jaxpr(log2_if_rank_2)(jax.numpy.array([1, 2, 3])))]. *)
Definition cell_3 : Py unit :=
  a <- jnp_array [1; 2; 3] ;;
  j <- make_jaxpr (fun1 log2_if_rank_2) [a] ;;
  print [PJaxpr j].

(** Cell 4: [x = jnp.arange(1000000)],
    [%timeit selu(x).block_until_ready()]. *)
Definition cell_4 (runs : nat) : Py value :=
  x <- jnp_arange 1000000 ;;
  timeit runs (r <- selu_fn [x] ;; block_until_ready r) ;;
  ret x.

(** Cell 5: [selu_jit = jax.jit(selu)], the warm-up call
    [selu_jit(x).block_until_ready()], then
    [%timeit selu_jit(x).block_until_ready()]. *)
Definition cell_5 (runs : nat) (x : value) : Py jitted :=
  selu_jit <- jax_jit selu_fn [] ;;
  (r <- call_jit selu_jit [x] ;; block_until_ready r) ;;
  timeit runs (r <- call_jit selu_jit [x] ;; block_until_ready r) ;;
  ret selu_jit.

(** Cell 6: [f_jit = jax.jit(f)], [f_jit(10)]. *)
Definition cell_6 : Py value :=
  f_jit <- jax_jit (fun1 f) [] ;;
  call_jit f_jit [PyInt 10].

(** Cell 7: [g_jit = jax.jit(g)], [g_jit(10, 20)]. *)
Definition cell_7 : Py value :=
  g_jit <- jax_jit (fun2 g) [] ;;
  call_jit g_jit [PyInt 10; PyInt 20].

(** Cell 8: the decorated definition, then [g_inner_jitted(10, 20)]. *)
Definition cell_8 : Py (jitted * value) :=
  lb <- loop_body ;;
  r <- g_inner_jitted lb (PyInt 10) (PyInt 20) ;;
  ret (lb, r).

(** Cell 10: [f_jit_correct = jax.jit(f, static_argnums=0)],
    [print(f_jit_correct(10))]. *)
Definition cell_10 : Py jitted :=
  f_jit_correct <- jax_jit (fun1 f) [0%nat] ;;
  r <- call_jit f_jit_correct [PyInt 10] ;;
  print [PVal r] ;;
  ret f_jit_correct.

(** Cell 11: [g_jit_correct = jax.jit(g, static_argnums=1)],
    [print(g_jit_correct(10, 20))]. *)
Definition cell_11 : Py jitted :=
  g_jit_correct <- jax_jit (fun2 g) [1%nat] ;;
  r <- call_jit g_jit_correct [PyInt 10; PyInt 20] ;;
  print [PVal r] ;;
  ret g_jit_correct.

(** Cell 13: [%timeit g_jit_correct(10, 20).block_until_ready()] and
    [%timeit g(10, 20)], each under a [print] of its title. *)
Definition cell_13 (runs1 runs2 : nat) (g_jit_correct : jitted) : Py unit :=
  print [PStr "g jitted:"] ;;
  timeit runs1 (r <- call_jit g_jit_correct [PyInt 10; PyInt 20] ;; block_until_ready r) ;;
  print [PStr "g:"] ;;
  timeit runs2 (g (PyInt 10) (PyInt 20)).

(** Cell 15: [%timeit g_inner_jitted(10, 20).block_until_ready()] and
    [%timeit g_inner_jitted_poorly(10, 20).block_until_ready()]. *)
Definition cell_15 (runs1 runs2 : nat) (loop_body : jitted) : Py unit :=
  print [PStr "jit called outside the loop:"] ;;
  timeit runs1 (r <- g_inner_jitted loop_body (PyInt 10) (PyInt 20) ;; block_until_ready r) ;;
  print [PStr "jit called inside the loop:"] ;;
  timeit runs2 (r <- g_inner_jitted_poorly (PyInt 10) (PyInt 20) ;; block_until_ready r).

(** The code cells, top to bottom; [runs k] is how often the [k]-th
    [%timeit] repeats its statement. *)
Definition notebook (runs : nat -> nat) : Py unit :=
  cell_1 ;;
  cell_2 ;;
  cell_3 ;;
  x <- cell_4 (runs 0%nat) ;;
  cell_5 (runs 1%nat) x ;;
  raises_exception cell_6 ;;
  raises_exception cell_7 ;;
  lb_r <- cell_8 ;;
  cell_10 ;;
  g_jit_correct <- cell_11 ;;
  cell_13 (runs 2%nat) (runs 3%nat) g_jit_correct ;;
  cell_15 (runs 4%nat) (runs 5%nat) (fst lb_r).

(** ** Vocabulary of the statements *)

(** [m] leaves the component [proj] of the world as it found it, whatever
    it returns or raises. *)
Definition preserves {X A} (proj : World -> X) (m : Py A) : Prop :=
  forall fuel w, proj (snd (m fuel w)) = proj w.

(** [m] keeps the property [I] of the world. *)
Definition maintains {A} (I : World -> Prop) (m : Py A) : Prop :=
  forall fuel w, I w -> I (snd (m fuel w)).

(** Whatever [m] returns satisfies [Q]. *)
Definition returns {A} (m : Py A) (Q : A -> Prop) : Prop :=
  forall fuel w a w', m fuel w = (Ok a, w') -> Q a.

(** [m] enters the framework's API at least once, whatever it returns or
    raises. *)
Definition enters_framework {A} (m : Py A) : Prop :=
  forall fuel w, (api_calls w < api_calls (snd (m fuel w)))%nat.

(** The world after [d] more executions of a loop body that does nothing
    else to it. *)
Definition after_iterations (d : nat) (w : World) : World :=
  mkWorld (global_list w) (stdout w) (frame w) (jits w)
          (loop_iterations w + d) (api_calls w).

(** The integer a result stands for, be it a Python int or a 32-bit
    device scalar. *)
Definition int_value (o : outcome value) : option Z :=
  match o with
  | Ok (PyInt z) => Some z
  | Ok (DeviceArray int32 [] [EInt z]) => Some z
  | _ => None
  end.

Definition compiles (w : World) (j : jitted) : nat :=
  js_compiles (jit_state_of w (jit_id j)).

Definition cached (w : World) (j : jitted) (k : key) : option jaxpr :=
  lookup_cache k (js_cache (jit_state_of w (jit_id j))).

(** A session in which [j] is called with one argument list after the
    other, each call in a cell of its own: an exception ends the call, not
    the session. *)
Fixpoint call_seq (j : jitted) (calls : list (list value)) (fuel : nat) (w : World) : World :=
  match calls with
  | [] => w
  | args :: rest => call_seq j rest fuel (snd (call_jit j args fuel w))
  end.

(** The jaxpr the first two cells print. *)
Definition log2_jaxpr : jaxpr :=
  mkJaxpr [0%nat]
          [mkEqn 1 Log [Var 0];
           mkEqn 2 Log [Lit (PyFloat (flit "2.0"))];
           mkEqn 3 Div [Var 1; Var 2]]
          (Var 3).

(** The jaxpr the third cell prints. *)
Definition identity_jaxpr : jaxpr := mkJaxpr [0%nat] [] (Var 0).

(** What [loop_body] compiles to. *)
Definition loop_body_jaxpr : jaxpr :=
  mkJaxpr [0%nat] [mkEqn 1 Add [Var 0; Lit (PyInt 1)]] (Var 1).

(** [v] is the integer [z], as a Python int or as a 32-bit device
    scalar. *)
Definition represents (v : value) (z : Z) : Prop :=
  v = PyInt z \/ v = DeviceArray int32 [] [EInt z].

(** Whatever the jitted function number [id] has cached is the compiled
    [loop_body]. *)
Definition caches_loop_body (w : World) (id : nat) : Prop :=
  forall k code,
    lookup_cache k (js_cache (jit_state_of w id)) = Some code -> code = loop_body_jaxpr.

(** [m] reads nothing of the world but the trace in progress: run in two
    worlds that agree on it, it returns the same, leaves the same trace in
    progress and asks as many operations of the framework. *)
Definition sees_only_framework {A} (m : Py A) : Prop :=
  forall fuel w1 w2,
    frame w1 = frame w2 ->
    fst (m fuel w1) = fst (m fuel w2) /\
    frame (snd (m fuel w1)) = frame (snd (m fuel w2)) /\
    (api_calls (snd (m fuel w1)) + api_calls w2
     = api_calls (snd (m fuel w2)) + api_calls w1)%nat.

(** One element of [log2(x)]. *)
Definition log2_elt (e : elt) : elt :=
  EFloat (fdiv (flog (elt_F e)) (flog (flit "2.0"))).

(** The test [x > 0] on one element of an array of element type [dt]. *)
Definition elt_positive (dt : dtype) (e : elt) : bool :=
  match dt with
  | float32 => fltb (f_of_Z 0) (elt_F e)
  | _ => 0 <? elt_Z e
  end.

(** One element of [2 * x], for [x] of element type [dt]. *)
Definition elt_double (dt : dtype) (e : elt) : elt :=
  match dt with
  | float32 => EFloat (fmul (f_of_Z 2) (elt_F e))
  | _ => EInt (wrap32 (2 * elt_Z e))
  end.

(** One element of [selu(x, alpha, lambda_)], for [x] of element type [dt]:
    [lambda_ * x] where [x > 0] and
    [lambda_ * (alpha * exp(x) - alpha)] elsewhere. *)
Definition selu_elt (dt : dtype) (alpha lambda_ : F) (e : elt) : elt :=
  EFloat (fmul lambda_
            (if elt_positive dt e then elt_F e
             else fsub (fmul alpha (fexp (elt_F e))) alpha)).

(** What [selu] compiles to: one equation for each of the six operations
    of its body. *)
Definition selu_jaxpr (alpha lambda_ : value) : jaxpr :=
  mkJaxpr [0%nat]
          [mkEqn 1 Gt [Var 0; Lit (PyInt 0)];
           mkEqn 2 Exp [Var 0];
           mkEqn 3 Mul [Lit alpha; Var 2];
           mkEqn 4 Sub [Var 3; Lit alpha];
           mkEqn 5 Select [Var 1; Var 0; Var 4];
           mkEqn 6 Mul [Lit lambda_; Var 5]]
          (Var 6).

(** The jaxpr of a function whose result does not depend on a traced
    argument: no input, no equation, the result as a literal. *)
Definition constant_jaxpr (c : value) : jaxpr := mkJaxpr [] [] (Lit c).

(** The jaxpr that adds the literal [m] to its one input. *)
Definition add_jaxpr (m : Z) : jaxpr :=
  mkJaxpr [0%nat] [mkEqn 1 Add [Var 0; Lit (PyInt m)]] (Var 1).

(** What [f] computes on the integer [x]. *)
Definition f_int (x : Z) : Z := if 0 <? x then x else 2 * x.

(** The loop variable [i] of [g_inner_jitted] after [k] iterations: the
    Python int [0] before the first, a 32-bit device scalar from then on. *)
Definition loop_var (k : nat) : value :=
  match k with
  | O => PyInt 0
  | S _ => DeviceArray int32 [] [EInt (Z.of_nat k)]
  end.

(** The signature of the call [loop_body(i)] in iteration [k]. *)
Definition loop_key (k : nat) : key := [KAval (get_aval (loop_var k))].

(** The cache and compilation count of [loop_body] after [k] iterations of
    the loop of [g_inner_jitted], with device scalars strongly typed: one
    compilation for the Python int of the first call, one for the device
    scalar of the second, none after that. *)
Definition loop_body_state (k : nat) : jit_state :=
  match k with
  | O => fresh_jit_state
  | S O => mkJitState [(loop_key 0, loop_body_jaxpr)] 1
  | S (S _) =>
      mkJitState [(loop_key 1, loop_body_jaxpr); (loop_key 0, loop_body_jaxpr)] 2
  end.

(** Whatever the jitted function number [id] has cached is [code]. *)
Definition caches_only (w : World) (id : nat) (code : jaxpr) : Prop :=
  forall k c, lookup_cache k (js_cache (jit_state_of w id)) = Some c -> c = code.

(** The jitted function number [id] exists, and whatever it has cached is
    [code]. *)
Definition holds (w : World) (id : nat) (code : jaxpr) : Prop :=
  (id < List.length (jits w))%nat /\ caches_only w id code.

(** What the [print] calls of the notebook write, as it shows under its
    cells, in order: the jaxprs of the first three cells, with the line
    [printed x: Traced<...>] of the second; [10] and [30]; the titles of the
    two timing cells.  (The timings themselves are written by [%timeit], the
    value under the eighth cell and the two tracebacks by the interpreter.) *)
Definition recorded_output : list (list printed) :=
  [[PJaxpr log2_jaxpr];
   [PStr "printed x:"; PVal (Tracer (mkShaped float32 [] true) 0)];
   [PJaxpr log2_jaxpr];
   [PJaxpr identity_jaxpr];
   [PVal (DeviceArray int32 [] [EInt 10])];
   [PVal (DeviceArray int32 [] [EInt 30])];
   [PStr "g jitted:"];
   [PStr "g:"];
   [PStr "jit called outside the loop:"];
   [PStr "jit called inside the loop:"]].

(** The rank [x.ndim] of an argument, as the tracer that stands for it has
    it. *)
Definition rank (x : value) : nat := List.length (sa_shape (get_aval x)).

(** A session of calls [f_jit_correct(x)], one for each [x] of [xs]. *)
Definition calls_on (xs : list Z) : list (list value) :=
  map (fun x => [PyInt x]) xs.

(** ** Frame lemmas *)

Lemma maintains_ret {A} (I : World -> Prop) (a : A) : maintains I (ret a).
Proof. intros fuel w H; exact H. Qed.

Lemma maintains_raise {A} (I : World -> Prop) (e : exn) : maintains I (@raise A e).
Proof. intros fuel w H; exact H. Qed.

Lemma maintains_lift {A} (I : World -> Prop) (o : outcome A) : maintains I (lift o).
Proof. intros fuel w H; exact H. Qed.

Lemma maintains_modify (I : World -> Prop) (h : World -> World) :
  (forall w, I w -> I (h w)) -> maintains I (modify h).
Proof. intros H fuel w Hw; apply H, Hw. Qed.

Lemma maintains_bind {A B} (I : World -> Prop) (m : Py A) (k : A -> Py B) :
  maintains I m -> (forall a, maintains I (k a)) -> maintains I (bind m k).
Proof.
  intros Hm Hk fuel w Hw. unfold bind.
  specialize (Hm fuel w Hw).
  destruct (m fuel w) as [[a | e | ] w']; cbn [snd] in *; try assumption.
  apply Hk, Hm.
Qed.

(** With no trace in progress an operation is evaluated at once. *)
Lemma bind_prim_eager (p : prim) (args : list value) (fuel : nat) (w : World) :
  frame w = None -> bind_prim p args fuel w = (impl p args, tick_api w).
Proof.
  intros H. unfold bind_prim.
  replace (frame (tick_api w)) with (frame w) by reflexivity.
  rewrite H. reflexivity.
Qed.

Lemma maintains_eager_bind_prim (p : prim) (args : list value) :
  maintains (fun w => frame w = None) (bind_prim p args).
Proof. intros fuel w H. rewrite bind_prim_eager by assumption. exact H. Qed.

Lemma maintains_eager_binop (p : prim) (a b : value) :
  maintains (fun w => frame w = None) (binop p a b).
Proof.
  unfold binop.
  destruct (py_scalar a), (py_scalar b); try destruct p;
    auto using maintains_lift, maintains_eager_bind_prim.
Qed.

Lemma preserves_ret {X A} (proj : World -> X) (a : A) : preserves proj (ret a).
Proof. intros fuel w; reflexivity. Qed.

Lemma preserves_raise {X A} (proj : World -> X) (e : exn) :
  preserves proj (@raise A e).
Proof. intros fuel w; reflexivity. Qed.

Lemma preserves_lift {X A} (proj : World -> X) (o : outcome A) :
  preserves proj (lift o).
Proof. intros fuel w; reflexivity. Qed.

Lemma preserves_get_world {X} (proj : World -> X) : preserves proj get_world.
Proof. intros fuel w; reflexivity. Qed.

Lemma preserves_modify {X} (proj : World -> X) (h : World -> World) :
  (forall w, proj (h w) = proj w) -> preserves proj (modify h).
Proof. intros H fuel w; apply H. Qed.

Lemma preserves_bind {X A B} (proj : World -> X) (m : Py A) (k : A -> Py B) :
  preserves proj m -> (forall a, preserves proj (k a)) -> preserves proj (bind m k).
Proof.
  intros Hm Hk fuel w. unfold bind.
  specialize (Hm fuel w).
  destruct (m fuel w) as [[a | e | ] w']; cbn [snd] in *; try assumption.
  rewrite Hk. assumption.
Qed.

Lemma preserves_bind_prim {X} (proj : World -> X) (p : prim) (args : list value) :
  (forall w, proj (tick_api w) = proj w) ->
  (forall fr w, proj (set_frame fr w) = proj w) ->
  preserves proj (bind_prim p args).
Proof.
  intros Ha Hf fuel w. unfold bind_prim.
  destruct (frame (tick_api w)) as [fr | ].
  - destruct (abstract_eval p (map get_aval args)); cbn [snd].
    + rewrite Hf. apply Ha.
    + apply Ha.
  - apply Ha.
Qed.

Lemma preserves_binop {X} (proj : World -> X) (p : prim) (a b : value) :
  (forall w, proj (tick_api w) = proj w) ->
  (forall fr w, proj (set_frame fr w) = proj w) ->
  preserves proj (binop p a b).
Proof.
  intros Ha Hf. unfold binop.
  destruct (py_scalar a), (py_scalar b); try destruct p;
    auto using preserves_lift, preserves_bind_prim.
Qed.

Lemma preserves_truth {X} (proj : World -> X) (v : value) : preserves proj (truth v).
Proof.
  destruct v as [ | | | dt sh [ | e [ | ]] | ]; cbn [truth];
    auto using preserves_ret, preserves_raise.
Qed.

Lemma preserves_while_loop {X St} (proj : World -> X)
    (cond : St -> Py bool) (body : St -> Py St) :
  (forall w, proj (tick_loop w) = proj w) ->
  (forall s, preserves proj (cond s)) ->
  (forall s, preserves proj (body s)) ->
  forall k s, preserves proj (while_loop cond body k s).
Proof.
  intros Ht Hc Hb. induction k as [ | k IH]; intros s; cbn [while_loop].
  - apply preserves_lift.
  - apply preserves_bind; [apply Hc | ].
    intros [ | ]; [ | apply preserves_ret].
    apply preserves_bind; [apply preserves_modify, Ht | intros _].
    apply preserves_bind; [apply Hb | apply IH].
Qed.

Lemma preserves_while {X St} (proj : World -> X)
    (cond : St -> Py bool) (body : St -> Py St) (s : St) :
  (forall w, proj (tick_loop w) = proj w) ->
  (forall s, preserves proj (cond s)) ->
  (forall s, preserves proj (body s)) ->
  preserves proj (while_ cond body s).
Proof.
  intros Ht Hc Hb fuel w. unfold while_.
  apply (preserves_while_loop proj cond body Ht Hc Hb fuel s fuel w).
Qed.

(** ** Running a sequence *)

Lemma bind_run {A B} (m : Py A) (k : A -> Py B) fuel w a w' :
  m fuel w = (Ok a, w') -> bind m k fuel w = k a fuel w'.
Proof. intros H. unfold bind. rewrite H. reflexivity. Qed.

Lemma bind_run_raise {A B} (m : Py A) (k : A -> Py B) fuel w e w' :
  m fuel w = (Raise e, w') -> bind m k fuel w = (Raise e, w').
Proof. intros H. unfold bind. rewrite H. reflexivity. Qed.

(** ** The loop of [g] on Python ints *)

Lemma g_test (i n : Z) (fuel : nat) (w : World) :
  (c <- py_lt (PyInt i) (PyInt n) ;; truth c) fuel w = (Ok (i <? n), w).
Proof. reflexivity. Qed.

Lemma g_loop (n : Z) (fuel : nat) :
  forall (d k : nat) (i : Z) (w : World),
    Z.of_nat d = Z.max (n - i) 0 ->
    (d < k)%nat ->
    while_loop (fun i => c <- py_lt i (PyInt n) ;; truth c)
               (fun i => py_add i (PyInt 1)) k (PyInt i) fuel w
    = (Ok (PyInt (i + Z.of_nat d)), after_iterations d w).
Proof.
  induction d as [ | d IH]; intros k i w Hd Hk;
    (destruct k as [ | k]; [lia | ]); cbn [while_loop];
    rewrite (bind_run _ _ _ _ _ _ (g_test i n fuel w)).
  - replace (i <? n) with false by (symmetry; apply Z.ltb_ge; lia).
    unfold ret, after_iterations. rewrite Z.add_0_r, Nat.add_0_r.
    destruct w; reflexivity.
  - replace (i <? n) with true by (symmetry; apply Z.ltb_lt; lia).
    rewrite (bind_run _ _ fuel w tt (tick_loop w)) by reflexivity.
    rewrite (bind_run _ _ fuel (tick_loop w) (PyInt (i + 1)) (tick_loop w))
      by reflexivity.
    rewrite (IH k (i + 1) (tick_loop w)) by lia.
    f_equal.
    + do 2 f_equal. lia.
    + unfold after_iterations, tick_loop; cbn [global_list stdout frame jits
        loop_iterations api_calls]. f_equal. lia.
Qed.

(** [g] on Python ints: the result, and the world it leaves. *)
Lemma g_on_ints (x n : Z) (fuel : nat) (w : World) :
  (Z.to_nat (Z.max n 0) < fuel)%nat ->
  g (PyInt x) (PyInt n) fuel w
  = (Ok (PyInt (x + Z.max n 0)), after_iterations (Z.to_nat (Z.max n 0)) w).
Proof.
  intros Hfuel. unfold g.
  rewrite (bind_run _ _ fuel w (PyInt (0 + Z.of_nat (Z.to_nat (Z.max n 0))))
             (after_iterations (Z.to_nat (Z.max n 0)) w)).
  - unfold py_add, binop, py_scalar, py_arith, lift. do 3 f_equal. lia.
  - unfold while_. apply g_loop; lia.
Qed.

(** C8.  On Python ints [g] terminates: with fuel for [max(n, 0) + 1]
    evaluations of the loop test it returns [x + n] when [n >= 0] and [x]
    when [n < 0]; the loop body has then run exactly [max(n, 0)] times and
    nothing else in the world has changed. *)
Theorem g_terminates (x n : Z) (fuel : nat) (w : World) :
  (Z.to_nat (Z.max n 0) < fuel)%nat ->
  g (PyInt x) (PyInt n) fuel w
  = (Ok (PyInt (if 0 <=? n then x + n else x)),
     after_iterations (Z.to_nat (Z.max n 0)) w) /\
  loop_iterations (snd (g (PyInt x) (PyInt n) fuel w))
  = (loop_iterations w + Z.to_nat (Z.max n 0))%nat.
Proof.
  intros Hfuel. rewrite (g_on_ints x n fuel w Hfuel). split; [ | reflexivity].
  do 3 f_equal. destruct (Z.leb_spec 0 n); lia.
Qed.

(** [f] on a Python int: the result, and the world left as it is. *)
Lemma f_on_ints (x : Z) (fuel : nat) (w : World) :
  f (PyInt x) fuel w = (Ok (PyInt (if 0 <? x then x else 2 * x)), w).
Proof.
  unfold f.
  rewrite (bind_run _ _ fuel w (PyBool (0 <? x)) w) by reflexivity.
  rewrite (bind_run _ _ fuel w (0 <? x) w) by reflexivity.
  destruct (0 <? x); reflexivity.
Qed.

(** ** [log2], called directly *)

Lemma impl_device (p : prim) (args : list value) (v : value) :
  impl p args = Ok v -> py_scalar v = None.
Proof.
  unfold impl. destruct (as_arrays args) as [arrs | e | ]; try discriminate.
  destruct (result_dtype _ _); try discriminate.
  destruct (result_shape _); try discriminate.
  destruct (elementwise _ _ _ _ _); try discriminate.
  intros H; injection H as <-. reflexivity.
Qed.

Lemma log2_tail_preserves {X} (proj : World -> X) (x : value) :
  (forall w, proj (tick_api w) = proj w) ->
  (forall fr w, proj (set_frame fr w) = proj w) ->
  preserves proj (ln_x <- jnp_log x ;;
                  ln_2 <- jnp_log (PyFloat (flit "2.0")) ;;
                  py_truediv ln_x ln_2).
Proof.
  intros Ha Hf. unfold jnp_log, py_truediv.
  repeat (apply preserves_bind; [ | intros ?]);
    auto using preserves_bind_prim, preserves_binop.
Qed.

(** Called with no trace in progress, [log2] returns a value that is a
    function of [x] alone. *)
Lemma log2_eager_value (x : value) (fuel : nat) (w : World) :
  frame w = None ->
  fst (log2 x fuel w)
  = match impl Log [x] with
    | Ok ln_x => impl Div [ln_x; DeviceArray float32 [] [EFloat (flog (flit "2.0"))]]
    | other => other
    end.
Proof.
  intros Hw. unfold log2.
  erewrite bind_run by reflexivity.
  unfold jnp_log at 1.
  unfold bind at 1. rewrite bind_prim_eager by exact Hw.
  destruct (impl Log [x]) as [ln_x | e | ] eqn:E; try reflexivity.
  unfold jnp_log. unfold bind at 1.
  rewrite bind_prim_eager by exact Hw.
  change (impl Log [PyFloat (flit "2.0")])
    with (Ok (DeviceArray float32 [] [EFloat (flog (flit "2.0"))])).
  cbv iota beta.
  unfold py_truediv, binop. rewrite (impl_device _ _ _ E).
  rewrite bind_prim_eager by exact Hw. reflexivity.
Qed.

(** C10.  Every call of [log2] appends exactly its argument to
    [global_list] and leaves the printed output, the jitted functions and
    (when no trace is in progress) the tracing state alone; its result does
    not depend on [global_list], so calls with the same [x] return the same
    value whatever was called before; for a Python float [x] that value is
    [log(x) / log(2.0)] as a float32 device scalar. *)
Theorem log2_appends_its_argument (x : value) (fuel : nat) (w : World) :
  global_list (snd (log2 x fuel w)) = global_list w ++ [x] /\
  stdout (snd (log2 x fuel w)) = stdout w /\
  jits (snd (log2 x fuel w)) = jits w /\
  loop_iterations (snd (log2 x fuel w)) = loop_iterations w /\
  (frame w = None -> frame (snd (log2 x fuel w)) = None) /\
  (forall l, fst (log2 x fuel (set_global_list l w)) = fst (log2 x fuel w)) /\
  (forall fuel' w', frame w = None -> frame w' = None ->
     fst (log2 x fuel' w') = fst (log2 x fuel w)) /\
  (forall v, x = PyFloat v -> frame w = None ->
     fst (log2 x fuel w)
     = Ok (DeviceArray float32 [] [EFloat (fdiv (flog v) (flog (flit "2.0")))])).
Proof.
  assert (Hsnd : forall X (proj : World -> X),
             (forall w, proj (tick_api w) = proj w) ->
             (forall fr w, proj (set_frame fr w) = proj w) ->
             proj (snd (log2 x fuel w))
             = proj (set_global_list (global_list w ++ [x]) w)).
  { intros X proj Ha Hf. unfold log2.
    erewrite bind_run by reflexivity.
    apply (log2_tail_preserves proj x Ha Hf). }
  repeat split.
  - apply (Hsnd _ global_list); reflexivity.
  - apply (Hsnd _ stdout); reflexivity.
  - apply (Hsnd _ jits); reflexivity.
  - apply (Hsnd _ loop_iterations); reflexivity.
  - intros Hw. unfold log2. erewrite bind_run by reflexivity.
    assert (Ht : maintains (fun w => frame w = None)
                   (ln_x <- jnp_log x ;;
                    ln_2 <- jnp_log (PyFloat (flit "2.0")) ;;
                    py_truediv ln_x ln_2)).
    { unfold jnp_log, py_truediv.
      repeat (apply maintains_bind; [ | intros ?]);
        auto using maintains_eager_bind_prim, maintains_eager_binop. }
    apply Ht. exact Hw.
  - intros l. destruct (frame w) as [fr | ] eqn:Hw.
    + destruct w as [gl so fr' js li ac]. cbn [frame] in Hw. subst fr'.
      reflexivity.
    + rewrite !log2_eager_value by assumption. reflexivity.
  - intros fuel' w' Hw Hw'. rewrite !log2_eager_value by assumption. reflexivity.
  - intros v -> Hw. rewrite log2_eager_value by assumption. reflexivity.
Qed.

(** ** Tracing *)

(** One run of the function, on the tracers: that is all a trace does to
    the world besides putting the enclosing trace back. *)
Lemma trace_runs_once (fn : pyfun) (static : list nat) (args : list value)
    (fuel : nat) (w : World) :
  snd (trace_to_jaxpr fn static args fuel w)
  = set_frame (frame w)
      (snd (fn (tracers_for static 0 0 args) fuel
              (set_frame
                 (Some (mkFrame [] (List.length (dynamic_args static 0 args)))) w))).
Proof.
  unfold trace_to_jaxpr.
  destruct (fn _ fuel _) as [[out | e | ] w2]; reflexivity.
Qed.

(** C3.  [jax.make_jaxpr] runs the Python function once, on a tracer in
    place of the argument.  For [log2] and [log2_with_print] on a float
    argument: the one run appends the tracer to [global_list], respectively
    prints it; the jaxpr that comes back is the same for both and holds the
    three framework operations [log], [log], [div] and nothing else. *)
Theorem tracing_runs_once_and_drops_side_effects
    (x : value) (fuel : nat) (w : World) :
  sa_dtype (get_aval x) = float32 ->
  (forall fn args,
     snd (make_jaxpr fn args fuel w)
     = set_frame (frame w)
         (snd (fn (tracers_for [] 0 0 args) fuel
                 (set_frame (Some (mkFrame [] (List.length (dynamic_args [] 0 args))))
                            (tick_api w))))) /\
  fst (make_jaxpr (fun1 log2) [x] fuel w) = Ok log2_jaxpr /\
  global_list (snd (make_jaxpr (fun1 log2) [x] fuel w))
  = global_list w ++ [Tracer (get_aval x) 0] /\
  stdout (snd (make_jaxpr (fun1 log2) [x] fuel w)) = stdout w /\
  fst (make_jaxpr (fun1 log2_with_print) [x] fuel w) = Ok log2_jaxpr /\
  stdout (snd (make_jaxpr (fun1 log2_with_print) [x] fuel w))
  = stdout w ++ [[PStr "printed x:"; PVal (Tracer (get_aval x) 0)]] /\
  global_list (snd (make_jaxpr (fun1 log2_with_print) [x] fuel w)) = global_list w /\
  map eq_prim (eqns log2_jaxpr) = [Log; Log; Div].
Proof.
  intros _. split.
  - intros fn args. unfold make_jaxpr.
    erewrite bind_run by reflexivity.
    rewrite trace_runs_once. reflexivity.
  - destruct w as [gl so fr js li ac]. repeat split.
Qed.

(** C7.  Control flow on the shape is decided while tracing: for an input
    of any rank other than 2 the jaxpr of [log2_if_rank_2] is the identity,
    with no equation at all ([log] and [div] belong to the branch not
    taken), and the world is as it was but for the one call of
    [jax.make_jaxpr] counted. *)
Theorem log2_if_rank_2_traces_to_identity (x : value) (fuel : nat) (w : World) :
  List.length (sa_shape (get_aval x)) <> 2%nat ->
  make_jaxpr (fun1 log2_if_rank_2) [x] fuel w = (Ok identity_jaxpr, tick_api w) /\
  eqns identity_jaxpr = [].
Proof.
  intros Hrank. split; [ | reflexivity].
  unfold make_jaxpr. erewrite bind_run by reflexivity.
  unfold trace_to_jaxpr.
  cbn [dynamic_args tracers_for is_static existsb List.length fun1].
  unfold log2_if_rank_2.
  erewrite bind_run by reflexivity.
  erewrite bind_run by reflexivity.
  erewrite bind_run by reflexivity.
  replace (Z.of_nat (List.length (sa_shape (get_aval x))) =? 2) with false
    by (symmetry; apply Z.eqb_neq; lia).
  destruct w; reflexivity.
Qed.

Lemma log2_if_rank_2_traces_rank_2 (x : value) (fuel : nat) (w : World) :
  List.length (sa_shape (get_aval x)) = 2%nat ->
  fst (make_jaxpr (fun1 log2_if_rank_2) [x] fuel w) = Ok log2_jaxpr.
Proof.
  intros Hrank.
  unfold make_jaxpr. erewrite bind_run by reflexivity.
  unfold trace_to_jaxpr.
  cbn [dynamic_args tracers_for is_static existsb List.length fun1].
  unfold log2_if_rank_2.
  erewrite bind_run by reflexivity.
  erewrite bind_run by reflexivity.
  erewrite bind_run by reflexivity.
  replace (Z.of_nat (List.length (sa_shape (get_aval x))) =? 2) with true
    by (symmetry; apply Z.eqb_eq; lia).
  destruct w; reflexivity.
Qed.

(** ** [jax.jit]: the three ways a call can go *)

Lemma jax_jit_run (fn : pyfun) (static : list nat) (fuel : nat) (w : World) :
  jax_jit fn static fuel w
  = (Ok (mkJitted fn static (List.length (jits w))),
     tick_api (set_jits (jits w ++ [fresh_jit_state]) w)).
Proof. reflexivity. Qed.

Lemma jit_state_of_new (w : World) :
  jit_state_of (tick_api (set_jits (jits w ++ [fresh_jit_state]) w))
               (List.length (jits w))
  = fresh_jit_state.
Proof.
  unfold jit_state_of. cbn [jits tick_api set_jits].
  rewrite app_nth2 by lia. rewrite Nat.sub_diag. reflexivity.
Qed.

Lemma call_jit_bad_signature (j : jitted) (args : list value) (e : exn)
    (fuel : nat) (w : World) :
  signature (static_argnums j) 0 args = Raise e ->
  call_jit j args fuel w = (Raise e, tick_api w).
Proof.
  intros Hk. unfold call_jit.
  erewrite bind_run by reflexivity.
  unfold bind, lift. rewrite Hk. reflexivity.
Qed.

Lemma call_jit_hit (j : jitted) (args : list value) (k : key) (code : jaxpr)
    (fuel : nat) (w : World) :
  signature (static_argnums j) 0 args = Ok k ->
  cached w j k = Some code ->
  call_jit j args fuel w = execute code (static_argnums j) args fuel (tick_api w).
Proof.
  intros Hk Hc. unfold call_jit.
  erewrite bind_run by reflexivity.
  erewrite bind_run by (unfold lift; rewrite Hk; reflexivity).
  erewrite bind_run by reflexivity.
  change (lookup_cache k (js_cache (jit_state_of (tick_api w) (jit_id j))))
    with (cached w j k).
  rewrite Hc. reflexivity.
Qed.

Lemma call_jit_miss (j : jitted) (args : list value) (k : key)
    (fuel : nat) (w : World) :
  signature (static_argnums j) 0 args = Ok k ->
  cached w j k = None ->
  call_jit j args fuel w
  = (jp <- trace_to_jaxpr (jit_fun j) (static_argnums j) args ;;
     modify (record_compile (jit_id j) k jp) ;;
     execute jp (static_argnums j) args) fuel (tick_api w).
Proof.
  intros Hk Hc. unfold call_jit.
  erewrite bind_run by reflexivity.
  erewrite bind_run by (unfold lift; rewrite Hk; reflexivity).
  erewrite bind_run by reflexivity.
  change (lookup_cache k (js_cache (jit_state_of (tick_api w) (jit_id j))))
    with (cached w j k).
  rewrite Hc. unfold bind.
  destruct (trace_to_jaxpr _ _ _ _ _) as [[jp | e | ] w']; reflexivity.
Qed.

Lemma signature_no_static (args : list value) :
  forall pos, signature [] pos args = Ok (map (fun a => KAval (get_aval a)) args).
Proof.
  induction args as [ | a rest IH]; intros pos; cbn [signature map].
  - reflexivity.
  - rewrite IH. reflexivity.
Qed.

(** A function that was just jitted has nothing cached. *)
Lemma cached_new (fn : pyfun) (static : list nat) (k : key) (w : World) :
  cached (tick_api (set_jits (jits w ++ [fresh_jit_state]) w))
         (mkJitted fn static (List.length (jits w))) k
  = None.
Proof. unfold cached. cbn [jit_id]. rewrite jit_state_of_new. reflexivity. Qed.

(** C2.  Under [jax.jit] with no static argument, [f] (which tests
    [x > 0]) and [g] (whose loop tests [i < n]) do not return: the call
    raises [ConcretizationTypeError] while tracing, whatever the arguments,
    in particular [f_jit(10)] and [g_jit(10, 20)] of the sixth and seventh
    cells; nothing gets compiled. *)
Theorem jit_raises_on_traced_condition (x n : value) (fuel : nat) (w : World) :
  (0 < fuel)%nat ->
  fst ((f_jit <- jax_jit (fun1 f) [] ;; call_jit f_jit [x]) fuel w)
  = Raise ConcretizationTypeError /\
  fst ((g_jit <- jax_jit (fun2 g) [] ;; call_jit g_jit [x; n]) fuel w)
  = Raise ConcretizationTypeError /\
  fst (cell_6 fuel w) = Raise ConcretizationTypeError /\
  fst (cell_7 fuel w) = Raise ConcretizationTypeError /\
  jits (snd (cell_6 fuel w)) = jits w ++ [fresh_jit_state] /\
  jits (snd (cell_7 fuel w)) = jits w ++ [fresh_jit_state].
Proof.
  intros Hfuel.
  assert (Hf : forall x,
             (f_jit <- jax_jit (fun1 f) [] ;; call_jit f_jit [x]) fuel w
             = (Raise ConcretizationTypeError,
                tick_api (tick_api (tick_api
                  (set_jits (jits w ++ [fresh_jit_state]) w))))).
  { intros x0. rewrite (bind_run _ _ _ _ _ _ (jax_jit_run _ _ _ _)).
    rewrite (call_jit_miss (mkJitted (fun1 f) [] (List.length (jits w))) [x0] _ fuel _
               (signature_no_static [x0] 0) (cached_new _ _ _ w)).
    apply bind_run_raise. destruct w; reflexivity. }
  assert (Hg : forall x n,
             (g_jit <- jax_jit (fun2 g) [] ;; call_jit g_jit [x; n]) fuel w
             = (Raise ConcretizationTypeError,
                tick_api (tick_api (tick_api
                  (set_jits (jits w ++ [fresh_jit_state]) w))))).
  { intros x0 n0. rewrite (bind_run _ _ _ _ _ _ (jax_jit_run _ _ _ _)).
    rewrite (call_jit_miss (mkJitted (fun2 g) [] (List.length (jits w))) [x0; n0] _ fuel _
               (signature_no_static [x0; n0] 0) (cached_new _ _ _ w)).
    apply bind_run_raise.
    destruct fuel as [ | fuel']; [lia | ]. destruct w; reflexivity. }
  unfold cell_6, cell_7. rewrite !Hf, !Hg. repeat split.
Qed.

(** ** The cache of a jitted function *)

Lemma update_nth_length {A} (h : A -> A) (l : list A) :
  forall n, List.length (update_nth n h l) = List.length l.
Proof.
  induction l as [ | a l IH]; intros [ | n]; cbn [update_nth List.length];
    try reflexivity.
  rewrite IH. reflexivity.
Qed.

Lemma nth_update_nth {A} (h : A -> A) (d : A) (l : list A) :
  forall n m,
    nth m (update_nth n h l) d
    = if Nat.eqb m n && Nat.ltb n (List.length l) then h (nth m l d) else nth m l d.
Proof.
  induction l as [ | a l IH]; intros n m.
  - cbn [update_nth List.length]. rewrite andb_false_r. reflexivity.
  - destruct n as [ | n], m as [ | m]; cbn [update_nth nth List.length];
      try reflexivity.
    rewrite IH. reflexivity.
Qed.

Lemma update_nth_last {A} (h : A -> A) (l : list A) (a : A) :
  update_nth (List.length l) h (l ++ [a]) = l ++ [h a].
Proof.
  induction l as [ | b l IH]; cbn [update_nth List.length app].
  - reflexivity.
  - rewrite IH. reflexivity.
Qed.

Lemma preserves_eval_eqns {X} (proj : World -> X) :
  (forall w, proj (tick_api w) = proj w) ->
  (forall fr w, proj (set_frame fr w) = proj w) ->
  forall eqs env, preserves proj (eval_eqns eqs env).
Proof.
  intros Ha Hf. induction eqs as [ | e rest IH]; intros env; cbn [eval_eqns].
  - apply preserves_ret.
  - apply preserves_bind; [apply preserves_lift | intros vs].
    apply preserves_bind; [apply preserves_bind_prim; assumption | intros v].
    apply IH.
Qed.

Lemma preserves_execute {X} (proj : World -> X) code static args :
  (forall w, proj (tick_api w) = proj w) ->
  (forall fr w, proj (set_frame fr w) = proj w) ->
  preserves proj (execute code static args).
Proof.
  intros Ha Hf. unfold execute, eval_jaxpr.
  apply preserves_bind; [apply preserves_lift | intros dyn].
  apply preserves_bind; [ | intros; apply preserves_lift].
  apply preserves_bind; [ | intros; apply preserves_lift].
  apply preserves_eval_eqns; assumption.
Qed.

Lemma preserves_trace {X} (proj : World -> X) (fn : pyfun) static args :
  (forall fr w, proj (set_frame fr w) = proj w) ->
  (forall a, preserves proj (fn a)) ->
  preserves proj (trace_to_jaxpr fn static args).
Proof.
  intros Hf Hfn fuel w. rewrite trace_runs_once, Hf, Hfn. apply Hf.
Qed.

Lemma preserves_make_jaxpr {X} (proj : World -> X) (fn : pyfun) args :
  (forall w, proj (tick_api w) = proj w) ->
  (forall fr w, proj (set_frame fr w) = proj w) ->
  (forall a, preserves proj (fn a)) ->
  preserves proj (make_jaxpr fn args).
Proof.
  intros Ha Hf Hfn. unfold make_jaxpr.
  apply preserves_bind; [apply preserves_modify, Ha | intros _].
  apply preserves_trace; assumption.
Qed.

Lemma preserves_jax_jit {X} (proj : World -> X) (fn : pyfun) static :
  (forall w, proj (tick_api w) = proj w) ->
  (forall js w, proj (set_jits js w) = proj w) ->
  preserves proj (jax_jit fn static).
Proof. intros Ha Hj fuel w. cbn. rewrite Ha. apply Hj. Qed.

Lemma preserves_call_jit {X} (proj : World -> X) (j : jitted) args :
  (forall w, proj (tick_api w) = proj w) ->
  (forall fr w, proj (set_frame fr w) = proj w) ->
  (forall js w, proj (set_jits js w) = proj w) ->
  (forall a, preserves proj (jit_fun j a)) ->
  preserves proj (call_jit j args).
Proof.
  intros Ha Hf Hj Hfn. unfold call_jit.
  apply preserves_bind; [apply preserves_modify, Ha | intros _].
  apply preserves_bind; [apply preserves_lift | intros k].
  apply preserves_bind; [apply preserves_get_world | intros w0].
  apply preserves_bind; [ | intros; apply preserves_execute; assumption].
  destruct (lookup_cache _ _); [apply preserves_ret | ].
  apply preserves_bind; [apply preserves_trace; assumption | intros jp].
  apply preserves_bind; [ | intros; apply preserves_ret].
  apply preserves_modify. intros w. unfold record_compile. apply Hj.
Qed.

(** What a call does to the store of jitted functions: nothing, unless
    its signature is new and the trace succeeds, in which case exactly one
    compilation is recorded. *)
Lemma jits_after_call (j : jitted) (args : list value) (fuel : nat) (w : World) :
  (forall a, preserves jits (jit_fun j a)) ->
  jits (snd (call_jit j args fuel w))
  = match signature (static_argnums j) 0 args with
    | Ok k =>
        match cached w j k,
              fst (trace_to_jaxpr (jit_fun j) (static_argnums j) args fuel (tick_api w))
        with
        | None, Ok jp => jits (record_compile (jit_id j) k jp w)
        | _, _ => jits w
        end
    | _ => jits w
    end.
Proof.
  intros Hfn.
  destruct (signature (static_argnums j) 0 args) as [k | e | ] eqn:Hk.
  - destruct (cached w j k) as [code | ] eqn:Hc.
    + rewrite (call_jit_hit j args k code fuel w Hk Hc).
      rewrite (preserves_execute jits code (static_argnums j) args
                 (fun _ => eq_refl) (fun _ _ => eq_refl)).
      reflexivity.
    + rewrite (call_jit_miss j args k fuel w Hk Hc).
      pose proof (preserves_trace jits (jit_fun j) (static_argnums j) args
                    (fun _ _ => eq_refl) Hfn fuel (tick_api w)) as Ht.
      unfold bind at 1.
      destruct (trace_to_jaxpr _ _ _ fuel (tick_api w)) as [[jp | e | ] w'];
        cbn [fst snd] in *; try exact Ht.
      erewrite bind_run by reflexivity.
      rewrite (preserves_execute jits jp (static_argnums j) args
                 (fun _ => eq_refl) (fun _ _ => eq_refl)).
      unfold record_compile. cbn [jits set_jits]. rewrite Ht. reflexivity.
  - rewrite (call_jit_bad_signature j args e fuel w Hk). reflexivity.
  - unfold call_jit. erewrite bind_run by reflexivity.
    unfold bind, lift. rewrite Hk. reflexivity.
Qed.

Lemma lookup_cache_head (k : key) (jp : jaxpr) (c : list (key * jaxpr)) :
  lookup_cache k ((k, jp) :: c) = Some jp.
Proof. cbn [lookup_cache]. destruct (key_eq_dec k k); [reflexivity | contradiction]. Qed.

Lemma lookup_cache_other (k k' : key) (jp : jaxpr) (c : list (key * jaxpr)) :
  k <> k' -> lookup_cache k ((k', jp) :: c) = lookup_cache k c.
Proof.
  intros H. cbn [lookup_cache]. destruct (key_eq_dec k k'); [contradiction | reflexivity].
Qed.

(** The state of [j] after one compilation is recorded for it. *)
Lemma jit_state_after_compile (j : jitted) (k : key) (jp : jaxpr) (w w' : World) :
  jits w' = jits (record_compile (jit_id j) k jp w) ->
  (jit_id j < List.length (jits w))%nat ->
  jit_state_of w' (jit_id j)
  = mkJitState ((k, jp) :: js_cache (jit_state_of w (jit_id j)))
               (S (js_compiles (jit_state_of w (jit_id j)))).
Proof.
  intros Hj Hid. unfold jit_state_of. rewrite Hj.
  unfold record_compile. cbn [jits set_jits].
  rewrite nth_update_nth, Nat.eqb_refl.
  destruct (Nat.ltb_spec (jit_id j) (List.length (jits w))); [reflexivity | lia].
Qed.

Lemma length_jits_after_call (j : jitted) (args : list value) (fuel : nat) (w : World) :
  (forall a, preserves jits (jit_fun j a)) ->
  List.length (jits (snd (call_jit j args fuel w))) = List.length (jits w).
Proof.
  intros Hfn. rewrite (jits_after_call j args fuel w Hfn).
  destruct (signature _ _ _); try reflexivity.
  destruct (cached w j a); try reflexivity.
  destruct (fst _); try reflexivity.
  unfold record_compile. cbn [jits set_jits]. apply update_nth_length.
Qed.

(** An entry of the cache is never dropped, and a call compiles at most
    once. *)
Lemma call_keeps_cache (j : jitted) (args : list value) (fuel : nat) (w : World)
    (k : key) (code : jaxpr) :
  (forall a, preserves jits (jit_fun j a)) ->
  cached w j k = Some code ->
  cached (snd (call_jit j args fuel w)) j k = Some code.
Proof.
  intros Hfn Hc. unfold cached, jit_state_of in *.
  rewrite (jits_after_call j args fuel w Hfn).
  destruct (signature _ _ _) as [k' | | ]; try exact Hc.
  destruct (cached w j k') eqn:Hc'; try exact Hc.
  destruct (fst _) as [jp | | ]; try exact Hc.
  unfold record_compile. cbn [jits set_jits].
  rewrite nth_update_nth, Nat.eqb_refl.
  destruct (Nat.ltb _ _); cbn [andb]; [ | exact Hc].
  cbn [js_cache]. rewrite lookup_cache_other; [exact Hc | ].
  intros ->. unfold cached, jit_state_of in Hc'. congruence.
Qed.

Lemma call_compiles_at_most_once (j : jitted) (args : list value) (fuel : nat) (w : World) :
  (forall a, preserves jits (jit_fun j a)) ->
  (compiles w j <= compiles (snd (call_jit j args fuel w)) j <= S (compiles w j))%nat.
Proof.
  intros Hfn. unfold compiles, jit_state_of.
  rewrite (jits_after_call j args fuel w Hfn).
  destruct (signature _ _ _) as [k' | | ]; try lia.
  destruct (cached w j k'); try lia.
  destruct (fst _) as [jp | | ]; try lia.
  unfold record_compile. cbn [jits set_jits].
  rewrite nth_update_nth, Nat.eqb_refl.
  destruct (Nat.ltb _ _); cbn [andb js_compiles]; lia.
Qed.

Lemma call_seq_length (j : jitted) (fuel : nat) :
  (forall a, preserves jits (jit_fun j a)) ->
  forall calls w, List.length (jits (call_seq j calls fuel w)) = List.length (jits w).
Proof.
  intros Hfn. induction calls as [ | args rest IH]; intros w; cbn [call_seq].
  - reflexivity.
  - rewrite IH. apply length_jits_after_call, Hfn.
Qed.

Lemma call_seq_keeps_cache (j : jitted) (fuel : nat) (k : key) (code : jaxpr) :
  (forall a, preserves jits (jit_fun j a)) ->
  forall calls w,
    cached w j k = Some code -> cached (call_seq j calls fuel w) j k = Some code.
Proof.
  intros Hfn. induction calls as [ | args rest IH]; intros w Hc; cbn [call_seq].
  - exact Hc.
  - apply IH, call_keeps_cache; assumption.
Qed.

(** A call caches nothing under a signature that is not its own. *)
Lemma call_no_entry (j : jitted) (args : list value) (fuel : nat) (w : World) (k : key) :
  (forall a, preserves jits (jit_fun j a)) ->
  signature (static_argnums j) 0 args <> Ok k ->
  cached w j k = None ->
  cached (snd (call_jit j args fuel w)) j k = None.
Proof.
  intros Hfn Hne Hc. unfold cached, jit_state_of in *.
  rewrite (jits_after_call j args fuel w Hfn).
  destruct (signature _ _ _) as [k' | | ]; try exact Hc.
  destruct (cached w j k'); try exact Hc.
  destruct (fst _) as [jp | | ]; try exact Hc.
  unfold record_compile. cbn [jits set_jits].
  rewrite nth_update_nth, Nat.eqb_refl.
  destruct (Nat.ltb _ _); cbn [andb]; [ | exact Hc].
  cbn [js_cache]. rewrite lookup_cache_other; [exact Hc | ].
  intros ->. apply Hne. reflexivity.
Qed.

Lemma call_seq_no_entry (j : jitted) (fuel : nat) (k : key) :
  (forall a, preserves jits (jit_fun j a)) ->
  forall calls w,
    Forall (fun a => signature (static_argnums j) 0 a <> Ok k) calls ->
    cached w j k = None ->
    cached (call_seq j calls fuel w) j k = None.
Proof.
  intros Hfn. induction calls as [ | args rest IH]; intros w Hall Hc; cbn [call_seq].
  - exact Hc.
  - inversion Hall as [ | a l Ha Hl]; subst.
    apply IH; [exact Hl | ]. apply call_no_entry; assumption.
Qed.

(** C4.  [jax.jit] defers compilation.  Applying it to [fn] (a function
    that does not itself touch the jitted functions) makes an object with
    nothing compiled and nothing cached, without running [fn].  In any
    session of calls to that object, the first call with a given signature
    (no call before it had that signature) finds no code in the cache and
    traces [fn]: if the trace succeeds the function is compiled, once, and
    the code is cached under the signature; if the trace raises, so does
    the call and nothing is compiled.  From the call that compiled onwards,
    after any number of further calls, every call with that same signature
    runs the code compiled then and compiles nothing. *)
Theorem jit_compiles_on_first_call_only
    (fn : pyfun) (static : list nat) (fuel : nat) (w : World) :
  (forall a, preserves jits (fn a)) ->
  let j := mkJitted fn static (List.length (jits w)) in
  let w0 := snd (jax_jit fn static fuel w) in
  fst (jax_jit fn static fuel w) = Ok j /\
  compiles w0 j = 0%nat /\
  js_cache (jit_state_of w0 (jit_id j)) = [] /\
  global_list w0 = global_list w /\
  stdout w0 = stdout w /\
  forall (calls : list (list value)) (args : list value) (k : key),
    signature static 0 args = Ok k ->
    Forall (fun a => signature static 0 a <> Ok k) calls ->
    let w1 := call_seq j calls fuel w0 in
    let w2 := snd (call_jit j args fuel w1) in
    cached w1 j k = None /\
    call_jit j args fuel w1
    = (jp <- trace_to_jaxpr fn static args ;;
       modify (record_compile (jit_id j) k jp) ;;
       execute jp static args) fuel (tick_api w1) /\
    (forall e,
       fst (trace_to_jaxpr fn static args fuel (tick_api w1)) = Raise e ->
       fst (call_jit j args fuel w1) = Raise e /\
       jits w2 = jits w1) /\
    (forall jp,
       fst (trace_to_jaxpr fn static args fuel (tick_api w1)) = Ok jp ->
       compiles w2 j = S (compiles w1 j) /\
       cached w2 j k = Some jp /\
       forall (calls' : list (list value)) (args' : list value),
         signature static 0 args' = Ok k ->
         let w3 := call_seq j calls' fuel w2 in
         let w4 := snd (call_jit j args' fuel w3) in
         cached w3 j k = Some jp /\
         call_jit j args' fuel w3 = execute jp static args' fuel (tick_api w3) /\
         compiles w4 j = compiles w3 j /\
         jits w4 = jits w3).
Proof.
  intros Hfn j w0.
  assert (Hj : forall a, preserves jits (jit_fun j a)) by exact Hfn.
  assert (Hnew : jit_state_of w0 (jit_id j) = fresh_jit_state)
    by apply jit_state_of_new.
  split; [reflexivity | ].
  split; [unfold compiles; rewrite Hnew; reflexivity | ].
  split; [rewrite Hnew; reflexivity | ].
  split; [reflexivity | ].
  split; [reflexivity | ].
  intros calls args k Hk Hfirst w1 w2.
  assert (Hc1 : cached w1 j k = None).
  { unfold w1. apply call_seq_no_entry; [exact Hj | exact Hfirst | ].
    unfold cached. rewrite Hnew. reflexivity. }
  assert (Hmiss : call_jit j args fuel w1
                  = (jp <- trace_to_jaxpr fn static args ;;
                     modify (record_compile (jit_id j) k jp) ;;
                     execute jp static args) fuel (tick_api w1))
    by exact (call_jit_miss j args k fuel w1 Hk Hc1).
  assert (Hafter : jits w2
                   = match fst (trace_to_jaxpr fn static args fuel (tick_api w1)) with
                     | Ok jp => jits (record_compile (jit_id j) k jp w1)
                     | _ => jits w1
                     end).
  { unfold w2. rewrite (jits_after_call j args fuel w1 Hj).
    cbn [static_argnums jit_fun j]. rewrite Hk, Hc1. reflexivity. }
  split; [exact Hc1 | ].
  split; [exact Hmiss | ].
  split.
  - intros e Ht. rewrite Ht in Hafter. split; [ | exact Hafter].
    rewrite Hmiss. unfold bind at 1.
    destruct (trace_to_jaxpr fn static args fuel (tick_api w1)) as [o wt].
    cbn [fst] in Ht. rewrite Ht. reflexivity.
  - intros jp Ht. rewrite Ht in Hafter.
    assert (Hid : (jit_id j < List.length (jits w1))%nat).
    { unfold w1. rewrite (call_seq_length j fuel Hj).
      unfold w0. cbn. rewrite length_app. cbn. lia. }
    assert (Hc2 : cached w2 j k = Some jp).
    { unfold cached. rewrite (jit_state_after_compile j k jp w1 w2 Hafter Hid).
      apply lookup_cache_head. }
    split.
    { unfold compiles. rewrite (jit_state_after_compile j k jp w1 w2 Hafter Hid).
      reflexivity. }
    split; [exact Hc2 | ].
    intros calls' args' Hk' w3 w4.
    assert (Hc3 : cached w3 j k = Some jp).
    { unfold w3. apply call_seq_keeps_cache; assumption. }
    assert (Hsame : jits w4 = jits w3).
    { unfold w4. rewrite (jits_after_call j args' fuel w3 Hj).
      cbn [static_argnums jit_fun j]. rewrite Hk', Hc3. reflexivity. }
    split; [exact Hc3 | ].
    split; [apply (call_jit_hit j args' k jp fuel w3 Hk' Hc3) | ].
    split; [unfold compiles, jit_state_of; rewrite Hsame; reflexivity | exact Hsame].
Qed.

(** Two argument lists that differ at a static position have different
    signatures. *)
Lemma signature_static_differs (static : list nat) :
  forall (args args' : list value) (pos p : nat) (k k' : key) (a a' : value),
    signature static pos args = Ok k ->
    signature static pos args' = Ok k' ->
    is_static static (pos + p) = true ->
    nth_error args p = Some a ->
    nth_error args' p = Some a' ->
    a <> a' ->
    k <> k'.
Proof.
  induction args as [ | b rest IH]; intros args' pos p k k' a a' Hk Hk' Hs Ha Ha' Hne.
  - destruct p; discriminate.
  - destruct args' as [ | b' rest']; [destruct p; discriminate | ].
    cbn [signature] in Hk, Hk'.
    destruct (signature static (S pos) rest) as [kr | | ] eqn:Er; try discriminate.
    destruct (signature static (S pos) rest') as [kr' | | ] eqn:Er'; try discriminate.
    destruct p as [ | p].
    + rewrite Nat.add_0_r in Hs. rewrite Hs in Hk, Hk'.
      cbn [nth_error] in Ha, Ha'. injection Ha as ->. injection Ha' as ->.
      destruct (hashable a); try discriminate.
      destruct (hashable a'); try discriminate.
      injection Hk as <-. injection Hk' as <-. congruence.
    + cbn [nth_error] in Ha, Ha'.
      assert (Hr : kr <> kr').
      { apply (IH rest' (S pos) p kr kr' a a'); try assumption; try reflexivity.
        rewrite <- Hs. f_equal. lia. }
      destruct (is_static static pos).
      * destruct (hashable b); try discriminate.
        destruct (hashable b'); try discriminate.
        injection Hk as <-. injection Hk' as <-. congruence.
      * injection Hk as <-. injection Hk' as <-. congruence.
Qed.

(** C1, as amended.  A function [fn] (one that does not itself touch the
    jitted functions) is jitted with [static_argnums] and called twice.
    When the second call has the signature of the first (the same values of
    the static arguments and the same abstract values of the others) the two
    calls compile at most once, and if the first call compiled, the second
    runs the cached code without tracing or compiling again.  When some
    static argument has another value in the second call, the signature is
    another one and the cache has no code for it: [fn] is traced again, and
    compiled again if that trace succeeds.  The same holds whenever the
    signature differs at all, be it in the type or shape of an argument
    that is not static. *)
Theorem jit_static_arguments_and_cache
    (fn : pyfun) (static : list nat) (args args' : list value) (k k' : key)
    (fuel : nat) (w : World) :
  (forall a, preserves jits (fn a)) ->
  signature static 0 args = Ok k ->
  signature static 0 args' = Ok k' ->
  let j := mkJitted fn static (List.length (jits w)) in
  let w0 := snd (jax_jit fn static fuel w) in
  let w1 := snd (call_jit j args fuel w0) in
  let w2 := snd (call_jit j args' fuel w1) in
  (k' = k ->
   (compiles w2 j <= 1)%nat /\
   forall jp,
     fst (trace_to_jaxpr fn static args fuel (tick_api w0)) = Ok jp ->
     compiles w1 j = 1%nat /\
     cached w1 j k = Some jp /\
     call_jit j args' fuel w1 = execute jp static args' fuel (tick_api w1) /\
     compiles w2 j = 1%nat /\
     global_list w2 = global_list w1 /\
     stdout w2 = stdout w1) /\
  (forall p a a',
     is_static static p = true ->
     nth_error args p = Some a ->
     nth_error args' p = Some a' ->
     a <> a' ->
     k' <> k /\
     cached w1 j k' = None /\
     (forall jp',
        fst (trace_to_jaxpr fn static args' fuel (tick_api w1)) = Ok jp' ->
        compiles w2 j = S (compiles w1 j) /\ cached w2 j k' = Some jp') /\
     call_jit j args' fuel w1
     = (jp' <- trace_to_jaxpr fn static args' ;;
        modify (record_compile (jit_id j) k' jp') ;;
        execute jp' static args') fuel (tick_api w1)) /\
  (k' <> k ->
   cached w1 j k' = None /\
   forall jp',
     fst (trace_to_jaxpr fn static args' fuel (tick_api w1)) = Ok jp' ->
     compiles w2 j = S (compiles w1 j) /\ cached w2 j k' = Some jp').
Proof.
  intros Hfn Hk Hk' j w0 w1 w2.
  assert (Hj : forall a, preserves jits (jit_fun j a)) by exact Hfn.
  assert (Hnew : jit_state_of w0 (jit_id j) = fresh_jit_state)
    by apply jit_state_of_new.
  assert (Hid0 : (jit_id j < List.length (jits w0))%nat).
  { unfold w0. cbn. rewrite length_app. cbn. lia. }
  assert (Hc0 : forall k0, cached w0 j k0 = None).
  { intros k0. unfold cached. rewrite Hnew. reflexivity. }
  assert (H1 : jits w1
               = match fst (trace_to_jaxpr fn static args fuel (tick_api w0)) with
                 | Ok jp => jits (record_compile (jit_id j) k jp w0)
                 | _ => jits w0
                 end).
  { unfold w1. rewrite (jits_after_call j args fuel w0 Hj).
    cbn [static_argnums jit_fun j]. rewrite Hk, Hc0. reflexivity. }
  assert (Hid1 : (jit_id j < List.length (jits w1))%nat).
  { unfold w1. rewrite length_jits_after_call by exact Hj. exact Hid0. }
  assert (H2 : jits w2
               = match cached w1 j k',
                       fst (trace_to_jaxpr fn static args' fuel (tick_api w1)) with
                 | None, Ok jp => jits (record_compile (jit_id j) k' jp w1)
                 | _, _ => jits w1
                 end).
  { unfold w2. rewrite (jits_after_call j args' fuel w1 Hj).
    cbn [static_argnums jit_fun j]. rewrite Hk'. reflexivity. }
  assert (Hfirst : forall jp,
             fst (trace_to_jaxpr fn static args fuel (tick_api w0)) = Ok jp ->
             jit_state_of w1 (jit_id j) = mkJitState [(k, jp)] 1).
  { intros jp Ht. rewrite Ht in H1.
    rewrite (jit_state_after_compile j k jp w0 w1 H1 Hid0), Hnew. reflexivity. }
  split.
  - intros ->. split.
    + destruct (fst (trace_to_jaxpr fn static args fuel (tick_api w0)))
        as [jp | e | ] eqn:Ht.
      * assert (Hc1 : cached w1 j k = Some jp).
        { unfold cached. rewrite (Hfirst jp eq_refl). apply lookup_cache_head. }
        rewrite Hc1 in H2. unfold compiles, jit_state_of. rewrite H2.
        fold (jit_state_of w1 (jit_id j)). rewrite (Hfirst jp eq_refl). reflexivity.
      * pose proof (call_compiles_at_most_once j args' fuel w1 Hj) as Hle.
        fold w2 in Hle. unfold compiles, jit_state_of in Hle |- *.
        rewrite H1 in Hle. fold (jit_state_of w0 (jit_id j)) in Hle.
        rewrite Hnew in Hle. cbn [js_compiles fresh_jit_state] in Hle. lia.
      * pose proof (call_compiles_at_most_once j args' fuel w1 Hj) as Hle.
        fold w2 in Hle. unfold compiles, jit_state_of in Hle |- *.
        rewrite H1 in Hle. fold (jit_state_of w0 (jit_id j)) in Hle.
        rewrite Hnew in Hle. cbn [js_compiles fresh_jit_state] in Hle. lia.
    + intros jp Ht.
      assert (Hc1 : cached w1 j k = Some jp).
      { unfold cached. rewrite (Hfirst jp Ht). apply lookup_cache_head. }
      rewrite Hc1 in H2.
      pose proof (call_jit_hit j args' k jp fuel w1 Hk' Hc1) as Hhit.
      split; [unfold compiles; rewrite (Hfirst jp Ht); reflexivity | ].
      split; [exact Hc1 | ].
      split; [exact Hhit | ].
      split.
      { unfold compiles, jit_state_of. rewrite H2.
        fold (jit_state_of w1 (jit_id j)). rewrite (Hfirst jp Ht). reflexivity. }
      unfold w2. rewrite Hhit. cbn [static_argnums j].
      split.
      * rewrite (preserves_execute global_list jp static args'
                   (fun _ => eq_refl) (fun _ _ => eq_refl)). reflexivity.
      * rewrite (preserves_execute stdout jp static args'
                   (fun _ => eq_refl) (fun _ _ => eq_refl)). reflexivity.
  - assert (Hdiff : k' <> k ->
                     cached w1 j k' = None /\
                     forall jp',
                       fst (trace_to_jaxpr fn static args' fuel (tick_api w1)) = Ok jp' ->
                       compiles w2 j = S (compiles w1 j) /\ cached w2 j k' = Some jp').
    { intros Hkk.
      assert (Hc1 : cached w1 j k' = None).
      { unfold cached, jit_state_of. rewrite H1.
        destruct (fst (trace_to_jaxpr fn static args fuel (tick_api w0))) as [jp | e | ];
          try (fold (jit_state_of w0 (jit_id j)); rewrite Hnew; reflexivity).
        unfold record_compile. cbn [jits set_jits].
        rewrite nth_update_nth, Nat.eqb_refl.
        destruct (Nat.ltb _ _); cbn [andb];
          fold (jit_state_of w0 (jit_id j)); rewrite Hnew; [ | reflexivity].
        cbn [js_cache fresh_jit_state].
        rewrite lookup_cache_other by exact Hkk. reflexivity. }
      split; [exact Hc1 | ].
      intros jp' Ht'. rewrite Hc1, Ht' in H2.
      unfold compiles, cached.
      rewrite (jit_state_after_compile j k' jp' w1 w2 H2 Hid1).
      cbn [js_compiles js_cache]. split; [reflexivity | apply lookup_cache_head]. }
    split; [ | exact Hdiff].
    intros p a a' Hs Ha Ha' Hne.
    assert (Hkk : k' <> k).
    { intros ->.
      apply (signature_static_differs static args args' 0 p k k a a'); auto. }
    destruct (Hdiff Hkk) as [Hc1 Hagain].
    split; [exact Hkk | ]. split; [exact Hc1 | ].
    split; [exact Hagain | exact (call_jit_miss j args' k' fuel w1 Hk' Hc1)].
Qed.

(** ** The loops with a jitted body *)

Lemma wrap32_in_range (z : Z) : in_int32 z = true -> wrap32 z = z.
Proof.
  unfold in_int32, wrap32. intros H.
  apply andb_true_iff in H. destruct H as [H1 H2].
  apply Z.leb_le in H1. apply Z.leb_le in H2.
  rewrite Z.mod_small by lia. lia.
Qed.

Lemma in_int32_bounds (z : Z) :
  -2147483648 <= z <= 2147483647 -> in_int32 z = true.
Proof.
  intros H. unfold in_int32. apply andb_true_iff. split; apply Z.leb_le; lia.
Qed.

(** Running the compiled [loop_body] on an integer that fits 32 bits. *)
Lemma execute_loop_body (v : value) (z : Z) (fuel : nat) (w : World) :
  frame w = None ->
  represents v z ->
  in_int32 z = true ->
  execute loop_body_jaxpr [] [v] fuel w
  = (Ok (DeviceArray int32 [] [EInt (wrap32 (z + 1))]), tick_api w).
Proof.
  intros Hw Hv Hz. unfold execute.
  assert (Hput : device_put_all (dynamic_args [] 0 [v])
                 = Ok [DeviceArray int32 [] [EInt z]]).
  { destruct Hv as [-> | ->]; cbn; [rewrite Hz | ]; reflexivity. }
  rewrite Hput. erewrite bind_run by reflexivity.
  assert (He : eval_jaxpr loop_body_jaxpr [DeviceArray int32 [] [EInt z]] fuel w
               = (Ok (DeviceArray int32 [] [EInt (wrap32 (z + 1))]), tick_api w)).
  { unfold eval_jaxpr.
    cbn [eqns loop_body_jaxpr eval_eqns invars combine eq_in eq_prim eq_out].
    erewrite bind_run.
    2:{ erewrite bind_run by reflexivity.
        erewrite bind_run by (rewrite bind_prim_eager by exact Hw; reflexivity).
        reflexivity. }
    reflexivity. }
  rewrite (bind_run _ _ _ _ _ _ He). reflexivity.
Qed.

Lemma trace_loop_body (v : value) (z : Z) (fuel : nat) (w : World) :
  represents v z ->
  trace_to_jaxpr (fun1 loop_body_fn) [] [v] fuel w = (Ok loop_body_jaxpr, tick_api w).
Proof. intros [-> | ->]; destruct w; reflexivity. Qed.

Lemma call_loop_body (id : nat) (v : value) (z : Z) (fuel : nat) (w : World) :
  frame w = None ->
  caches_loop_body w id ->
  represents v z ->
  in_int32 z = true ->
  exists w',
    call_jit (mkJitted (fun1 loop_body_fn) [] id) [v] fuel w
    = (Ok (DeviceArray int32 [] [EInt (wrap32 (z + 1))]), w') /\
    frame w' = None /\
    caches_loop_body w' id.
Proof.
  intros Hw Hok Hv Hz.
  set (j := mkJitted (fun1 loop_body_fn) [] id).
  pose proof (signature_no_static [v] 0) as Hk.
  destruct (cached w j (map (fun a => KAval (get_aval a)) [v])) as [code | ] eqn:Hc.
  - rewrite (call_jit_hit j [v] _ code fuel w Hk Hc).
    rewrite (Hok _ _ Hc). cbn [static_argnums j].
    rewrite (execute_loop_body v z fuel (tick_api w) Hw Hv Hz).
    exists (tick_api (tick_api w)). repeat split; assumption.
  - rewrite (call_jit_miss j [v] _ fuel w Hk Hc). cbn [static_argnums jit_fun jit_id j].
    rewrite (bind_run _ _ _ _ _ _ (trace_loop_body v z fuel (tick_api w) Hv)).
    erewrite bind_run by reflexivity.
    match goal with
    | |- context [execute _ _ _ _ ?w0] =>
        rewrite (execute_loop_body v z fuel w0 Hw Hv Hz)
    end.
    eexists. split; [reflexivity | ]. split; [exact Hw | ].
    intros k code. unfold jit_state_of, record_compile.
    cbn [jits tick_api set_jits].
    rewrite nth_update_nth, Nat.eqb_refl.
    destruct (Nat.ltb _ _); cbn [andb]; [ | apply Hok].
    cbn [js_cache lookup_cache].
    destruct (key_eq_dec k _); [congruence | apply Hok].
Qed.

(** The loop test [i < n] on the loop variable, a Python int before the
    first iteration and a device scalar after it. *)
Lemma jitted_test (v : value) (m n : Z) (fuel : nat) (w : World) :
  frame w = None ->
  represents v m ->
  in_int32 m = true ->
  in_int32 n = true ->
  exists w',
    (c <- py_lt v (PyInt n) ;; truth c) fuel w = (Ok (m <? n), w') /\
    (w' = w \/ w' = tick_api w).
Proof.
  intros Hw [-> | ->] Hm Hn.
  - exists w. split; [reflexivity | left; reflexivity].
  - exists (tick_api w). split; [ | right; reflexivity].
    unfold py_lt, binop. cbn [py_scalar].
    erewrite bind_run.
    2:{ rewrite bind_prim_eager by exact Hw.
        unfold impl. cbn [as_arrays as_array]. rewrite Hn. reflexivity. }
    reflexivity.
Qed.

Section JittedLoop.

Variable body : value -> Py value.
Variable Inv : World -> Prop.
Hypothesis Inv_eager : forall w, Inv w -> frame w = None.
Hypothesis Inv_tick_loop : forall w, Inv w -> Inv (tick_loop w).
Hypothesis Inv_tick_api : forall w, Inv w -> Inv (tick_api w).
Hypothesis body_increments :
  forall v z fuel w,
    Inv w -> represents v z -> in_int32 z = true ->
    exists w',
      body v fuel w = (Ok (DeviceArray int32 [] [EInt (wrap32 (z + 1))]), w') /\
      Inv w'.

Lemma jitted_loop (n : Z) (fuel : nat) :
  in_int32 n = true ->
  forall (d k : nat) (v : value) (m : Z) (w : World),
    Inv w ->
    represents v m ->
    0 <= m ->
    Z.of_nat d = n - m ->
    (d < k)%nat ->
    exists w',
      while_loop (fun i => c <- py_lt i (PyInt n) ;; truth c) body k v fuel w
      = (Ok (match d with
             | O => v
             | S _ => DeviceArray int32 [] [EInt n]
             end), w') /\
      Inv w'.
Proof.
  intros Hn.
  assert (Hn' : -2147483648 <= n <= 2147483647).
  { unfold in_int32 in Hn. apply andb_true_iff in Hn.
    destruct Hn as [H1 H2]. apply Z.leb_le in H1. apply Z.leb_le in H2. lia. }
  induction d as [ | d IH]; intros k v m w Hw Hv Hm Hd Hk;
    (destruct k as [ | k]; [lia | ]); cbn [while_loop];
    assert (Hmr : in_int32 m = true) by (apply in_int32_bounds; lia);
    destruct (jitted_test v m n fuel w (Inv_eager w Hw) Hv Hmr Hn)
      as (w1 & Ht & Hw1);
    assert (Hi1 : Inv w1) by (destruct Hw1 as [-> | ->]; auto);
    rewrite (bind_run _ _ _ _ _ _ Ht).
  - replace (m <? n) with false by (symmetry; apply Z.ltb_ge; lia).
    exists w1. split; [reflexivity | exact Hi1].
  - replace (m <? n) with true by (symmetry; apply Z.ltb_lt; lia).
    erewrite bind_run by reflexivity.
    destruct (body_increments v m fuel (tick_loop w1) (Inv_tick_loop _ Hi1) Hv Hmr)
      as (w2 & Hb & Hi2).
    rewrite (bind_run _ _ _ _ _ _ Hb).
    rewrite wrap32_in_range by (apply in_int32_bounds; lia).
    destruct (IH k (DeviceArray int32 [] [EInt (m + 1)]) (m + 1) w2 Hi2)
      as (w3 & Hl & Hi3); try lia; [right; reflexivity | ].
    exists w3. split; [ | exact Hi3].
    rewrite Hl. destruct d; [ | reflexivity].
    do 5 f_equal. lia.
Qed.

(** The function around the loop: [i = 0; while ...; return x + i]. *)
Lemma jitted_g (x n : Z) (fuel : nat) (w : World) :
  Inv w ->
  (Z.to_nat (Z.max n 0) < fuel)%nat ->
  n <= 2147483647 ->
  (n <= 0 \/ in_int32 x = true) ->
  fst ((i <- while_ (fun i => c <- py_lt i (PyInt n) ;; truth c) body (PyInt 0) ;;
        py_add (PyInt x) i) fuel w)
  = if n <=? 0 then Ok (PyInt x)
    else Ok (DeviceArray int32 [] [EInt (wrap32 (x + n))]).
Proof.
  intros Hw Hfuel Hn Hx.
  destruct (Z.leb_spec n 0) as [Hle | Hlt].
  - destruct fuel as [ | k]; [lia | ].
    assert (Hl : while_ (fun i => c <- py_lt i (PyInt n) ;; truth c) body (PyInt 0)
                   (S k) w = (Ok (PyInt 0), w)).
    { unfold while_. cbn [while_loop].
      rewrite (bind_run _ _ _ _ _ _ (g_test 0 n (S k) w)).
      replace (0 <? n) with false by (symmetry; apply Z.ltb_ge; lia).
      reflexivity. }
    rewrite (bind_run _ _ _ _ _ _ Hl).
    cbn. rewrite Z.add_0_r. reflexivity.
  - destruct Hx as [Hx | Hx]; [lia | ].
    destruct (jitted_loop n fuel (in_int32_bounds n ltac:(lia))
                (Z.to_nat n) fuel (PyInt 0) 0 w Hw (or_introl eq_refl))
      as (w' & Hl & Hi); try lia.
    change (while_loop (fun i => c <- py_lt i (PyInt n) ;; truth c) body fuel
              (PyInt 0) fuel w)
      with (while_ (fun i => c <- py_lt i (PyInt n) ;; truth c) body (PyInt 0) fuel w)
      in Hl.
    rewrite (bind_run _ _ _ _ _ _ Hl).
    destruct (Z.to_nat n) eqn:E; [lia | ].
    unfold py_add, binop. cbn [py_scalar].
    rewrite bind_prim_eager by (apply Inv_eager, Hi).
    unfold impl. cbn [as_arrays as_array]. rewrite Hx. reflexivity.
Qed.

End JittedLoop.

Lemma caches_loop_body_new (w : World) :
  caches_loop_body (tick_api (set_jits (jits w ++ [fresh_jit_state]) w))
                   (List.length (jits w)).
Proof. intros k code. rewrite jit_state_of_new. discriminate. Qed.

Lemma g_inner_jitted_value (x n : Z) (fuel : nat) (w : World) :
  frame w = None ->
  (Z.to_nat (Z.max n 0) < fuel)%nat ->
  n <= 2147483647 ->
  (n <= 0 \/ in_int32 x = true) ->
  fst ((lb <- loop_body ;; g_inner_jitted lb (PyInt x) (PyInt n)) fuel w)
  = if n <=? 0 then Ok (PyInt x)
    else Ok (DeviceArray int32 [] [EInt (wrap32 (x + n))]).
Proof.
  intros Hw Hfuel Hn Hx. unfold loop_body.
  rewrite (bind_run _ _ _ _ _ _ (jax_jit_run _ _ _ _)).
  unfold g_inner_jitted.
  apply (jitted_g
           (fun i => call_jit (mkJitted (fun1 loop_body_fn) [] (List.length (jits w))) [i])
           (fun w' => frame w' = None /\ caches_loop_body w' (List.length (jits w))));
    try assumption.
  - intros w' [H _]; exact H.
  - intros w' [H1 H2]; split; assumption.
  - intros w' [H1 H2]; split; assumption.
  - intros v z fuel' w' [H1 H2] Hv Hz.
    destruct (call_loop_body (List.length (jits w)) v z fuel' w' H1 H2 Hv Hz)
      as (w'' & Hc & H1' & H2').
    exists w''. repeat split; assumption.
  - split; [exact Hw | apply caches_loop_body_new].
Qed.

Lemma g_inner_jitted_poorly_value (x n : Z) (fuel : nat) (w : World) :
  frame w = None ->
  (Z.to_nat (Z.max n 0) < fuel)%nat ->
  n <= 2147483647 ->
  (n <= 0 \/ in_int32 x = true) ->
  fst (g_inner_jitted_poorly (PyInt x) (PyInt n) fuel w)
  = if n <=? 0 then Ok (PyInt x)
    else Ok (DeviceArray int32 [] [EInt (wrap32 (x + n))]).
Proof.
  intros Hw Hfuel Hn Hx. unfold g_inner_jitted_poorly.
  apply (jitted_g
           (fun i => j <- jax_jit (fun1 unjitted_loop_body) [] ;; call_jit j [i])
           (fun w' => frame w' = None));
    try assumption; try (intros w' H; exact H).
  intros v z fuel' w' Hw' Hv Hz.
  rewrite (bind_run _ _ _ _ _ _ (jax_jit_run _ _ _ _)).
  destruct (call_loop_body (List.length (jits w')) v z fuel'
              (tick_api (set_jits (jits w' ++ [fresh_jit_state]) w'))
              Hw' (caches_loop_body_new w') Hv Hz)
    as (w'' & Hc & H1 & _).
  exists w''. split; [exact Hc | exact H1].
Qed.

(** C9, as amended.  Run outside any trace, with [n] no larger than the
    greatest 32-bit integer: when [n <= 0] the three functions return the
    very same Python int [x]; when [0 < n] and [x] fits 32 bits,
    [g_inner_jitted] and [g_inner_jitted_poorly] return one and the same
    32-bit device scalar, [x + n] wrapped around, where [g] returns the
    Python int [x + n]: the same integer whenever [x + n] fits 32 bits. *)
Theorem g_inner_jitted_agrees_with_g (x n : Z) (fuel : nat) (w : World) :
  frame w = None ->
  (Z.to_nat (Z.max n 0) < fuel)%nat ->
  n <= 2147483647 ->
  let r := fst (g (PyInt x) (PyInt n) fuel w) in
  let r1 := fst ((lb <- loop_body ;; g_inner_jitted lb (PyInt x) (PyInt n)) fuel w) in
  let r2 := fst (g_inner_jitted_poorly (PyInt x) (PyInt n) fuel w) in
  (n <= 0 -> r = Ok (PyInt x) /\ r1 = r /\ r2 = r) /\
  (0 < n -> in_int32 x = true ->
   r = Ok (PyInt (x + n)) /\
   r1 = Ok (DeviceArray int32 [] [EInt (wrap32 (x + n))]) /\
   r2 = r1 /\
   (in_int32 (x + n) = true ->
    int_value r1 = Some (x + n) /\ int_value r2 = Some (x + n) /\
    int_value r = Some (x + n))).
Proof.
  intros Hw Hfuel Hn r r1 r2.
  assert (Hr : r = Ok (PyInt (if 0 <=? n then x + n else x))).
  { unfold r. rewrite (g_on_ints x n fuel w Hfuel). cbn [fst]. do 2 f_equal.
    destruct (Z.leb_spec 0 n); lia. }
  split.
  - intros Hle.
    assert (H1 : r1 = Ok (PyInt x)).
    { unfold r1. rewrite g_inner_jitted_value by auto.
      destruct (Z.leb_spec n 0); [reflexivity | lia]. }
    assert (H2 : r2 = Ok (PyInt x)).
    { unfold r2. rewrite g_inner_jitted_poorly_value by auto.
      destruct (Z.leb_spec n 0); [reflexivity | lia]. }
    assert (H0 : r = Ok (PyInt x)).
    { rewrite Hr. destruct (Z.leb_spec 0 n); [ | reflexivity].
      do 2 f_equal. lia. }
    rewrite H0, H1, H2. repeat split.
  - intros Hlt Hx.
    assert (H1 : r1 = Ok (DeviceArray int32 [] [EInt (wrap32 (x + n))])).
    { unfold r1. rewrite g_inner_jitted_value by auto.
      destruct (Z.leb_spec n 0); [lia | reflexivity]. }
    assert (H2 : r2 = Ok (DeviceArray int32 [] [EInt (wrap32 (x + n))])).
    { unfold r2. rewrite g_inner_jitted_poorly_value by auto.
      destruct (Z.leb_spec n 0); [lia | reflexivity]. }
    assert (H0 : r = Ok (PyInt (x + n))).
    { rewrite Hr. destruct (Z.leb_spec 0 n); [reflexivity | lia]. }
    rewrite H0, H1, H2. repeat split.
    + cbn [int_value]. rewrite wrap32_in_range by assumption. reflexivity.
    + cbn [int_value]. rewrite wrap32_in_range by assumption. reflexivity.
Qed.

(** ** What each function and each cell leaves alone *)

Lemma preserves_bind_returns {X A B} (proj : World -> X)
    (m : Py A) (k : A -> Py B) (Q : A -> Prop) :
  preserves proj m -> returns m Q -> (forall a, Q a -> preserves proj (k a)) ->
  preserves proj (bind m k).
Proof.
  intros Hm HQ Hk fuel w. unfold bind.
  specialize (Hm fuel w). specialize (HQ fuel w).
  destruct (m fuel w) as [[a | e | ] w']; cbn [snd] in *; try assumption.
  rewrite (Hk a (HQ a w' eq_refl)). assumption.
Qed.

Lemma returns_bind {A B} (m : Py A) (k : A -> Py B) (Q : B -> Prop) :
  (forall a, returns (k a) Q) -> returns (bind m k) Q.
Proof.
  intros Hk fuel w b w'. unfold bind.
  destruct (m fuel w) as [[a | e | ] w1]; try discriminate.
  apply Hk.
Qed.

Lemma returns_ret {A} (a : A) (Q : A -> Prop) : Q a -> returns (ret a) Q.
Proof. intros H fuel w b w' E. injection E as <- _. exact H. Qed.

Lemma returns_jax_jit (fn : pyfun) (static : list nat) :
  returns (jax_jit fn static) (fun j => jit_fun j = fn).
Proof. intros fuel w j w' E. injection E as <- _. reflexivity. Qed.

Lemma preserves_print {X} (proj : World -> X) (args : list printed) :
  (forall o w, proj (set_stdout o w) = proj w) -> preserves proj (print args).
Proof. intros Ho. apply preserves_modify. intros w. apply Ho. Qed.

Lemma preserves_timeit {X A} (proj : World -> X) (stmt : Py A) :
  preserves proj stmt -> forall runs, preserves proj (timeit runs stmt).
Proof.
  intros Hs. induction runs as [ | r IH]; cbn [timeit].
  - apply preserves_ret.
  - apply preserves_bind; [exact Hs | intros _; exact IH].
Qed.

Lemma preserves_raises_exception {X A} (proj : World -> X) (cell : Py A) :
  preserves proj cell -> preserves proj (raises_exception cell).
Proof.
  intros Hc fuel w. unfold raises_exception. specialize (Hc fuel w).
  destruct (cell fuel w) as [[a | e | ] w']; exact Hc.
Qed.

Lemma preserves_block_until_ready {X} (proj : World -> X) (v : value) :
  preserves proj (block_until_ready v).
Proof. destruct v; cbn [block_until_ready]; auto using preserves_ret, preserves_raise. Qed.

Section Frames.

Context {X : Type} (proj : World -> X).
Hypothesis blind_api : forall w, proj (tick_api w) = proj w.
Hypothesis blind_frame : forall fr w, proj (set_frame fr w) = proj w.
Hypothesis blind_loop : forall w, proj (tick_loop w) = proj w.

Ltac frame_step :=
  lazymatch goal with
  | |- preserves _ (bind _ _) => apply preserves_bind; [ | intros ? ]
  | |- preserves _ (ret _) => apply preserves_ret
  | |- preserves _ (raise _) => apply preserves_raise
  | |- preserves _ (lift _) => apply preserves_lift
  | |- preserves _ (truth _) => apply preserves_truth
  | |- preserves _ (binop _ _ _) => apply preserves_binop; assumption
  | |- preserves _ (bind_prim _ _) => apply preserves_bind_prim; assumption
  | |- preserves _ (block_until_ready _) => apply preserves_block_until_ready
  | |- preserves _ (modify _) => apply preserves_modify; assumption
  end.

Lemma preserves_f (x : value) : preserves proj (f x).
Proof.
  unfold f, py_gt, py_mul. repeat frame_step.
  destruct a0; repeat frame_step.
Qed.

Lemma preserves_g (x n : value) : preserves proj (g x n).
Proof.
  unfold g, py_lt, py_add. repeat frame_step.
  apply preserves_while; [assumption | intros s | intros s]; repeat frame_step.
Qed.

Lemma preserves_selu (x alpha lambda_ : value) : preserves proj (selu x alpha lambda_).
Proof.
  unfold selu, py_gt, py_mul, py_sub, jnp_exp, jnp_where. repeat frame_step.
Qed.

Lemma preserves_selu_fn (args : list value) : preserves proj (selu_fn args).
Proof.
  unfold selu_fn.
  destruct args as [ | x [ | a [ | l [ | ]]]];
    auto using preserves_raise, preserves_selu.
Qed.

Lemma preserves_loop_body_fn (i : value) : preserves proj (loop_body_fn i).
Proof. unfold loop_body_fn, py_add. repeat frame_step. Qed.

Lemma preserves_log2_if_rank_2 (x : value) : preserves proj (log2_if_rank_2 x).
Proof.
  unfold log2_if_rank_2, py_eq, py_truediv, jnp_log, ndim.
  apply preserves_bind; [destruct x; repeat frame_step | intros nd].
  repeat frame_step. destruct a0; repeat frame_step.
Qed.

Lemma preserves_fun1 (h : value -> Py value) (args : list value) :
  (forall x, preserves proj (h x)) -> preserves proj (fun1 h args).
Proof.
  intros H. destruct args as [ | x [ | ]]; cbn [fun1];
    auto using preserves_raise.
Qed.

Lemma preserves_fun2 (h : value -> value -> Py value) (args : list value) :
  (forall x y, preserves proj (h x y)) -> preserves proj (fun2 h args).
Proof.
  intros H. destruct args as [ | x [ | y [ | ]]]; cbn [fun2];
    auto using preserves_raise.
Qed.

Hypothesis blind_stdout : forall o w, proj (set_stdout o w) = proj w.

Lemma preserves_log2_with_print (x : value) : preserves proj (log2_with_print x).
Proof.
  unfold log2_with_print, py_truediv, jnp_log.
  apply preserves_bind; [apply preserves_print, blind_stdout | intros _].
  repeat frame_step.
Qed.

Hypothesis blind_jits : forall js w, proj (set_jits js w) = proj w.

Lemma preserves_g_inner_jitted (lb : jitted) (x n : value) :
  (forall a, preserves proj (jit_fun lb a)) ->
  preserves proj (g_inner_jitted lb x n).
Proof.
  intros Hlb. unfold g_inner_jitted, py_lt, py_add. repeat frame_step.
  apply preserves_while; [assumption | intros s | intros s]; repeat frame_step.
  apply preserves_call_jit; assumption.
Qed.

Lemma preserves_g_inner_jitted_poorly (x n : value) :
  preserves proj (g_inner_jitted_poorly x n).
Proof.
  unfold g_inner_jitted_poorly, py_lt, py_add. repeat frame_step.
  apply preserves_while; [assumption | intros s; repeat frame_step | intros s].
  apply (preserves_bind_returns proj _ _ _
           (preserves_jax_jit proj _ _ blind_api blind_jits)
           (returns_jax_jit _ _)).
  intros j Hj. apply preserves_call_jit; try assumption.
  rewrite Hj. intros a. apply preserves_fun1.
  intros i. apply preserves_loop_body_fn.
Qed.

(** Every cell but the first. *)

Lemma preserves_cell_2 : preserves proj cell_2.
Proof.
  unfold cell_2. apply preserves_bind.
  - apply preserves_make_jaxpr; try assumption.
    intros a. apply preserves_fun1, preserves_log2_with_print.
  - intros j. apply preserves_print, blind_stdout.
Qed.

Lemma preserves_cell_3 : preserves proj cell_3.
Proof.
  unfold cell_3, jnp_array. repeat frame_step.
  - apply preserves_make_jaxpr; try assumption.
    intros a1. apply preserves_fun1, preserves_log2_if_rank_2.
  - apply preserves_print, blind_stdout.
Qed.

Lemma preserves_cell_4 (runs : nat) : preserves proj (cell_4 runs).
Proof.
  unfold cell_4, jnp_arange. repeat frame_step.
  apply preserves_timeit. repeat frame_step. apply preserves_selu_fn.
Qed.

Lemma preserves_cell_5 (runs : nat) (x : value) : preserves proj (cell_5 runs x).
Proof.
  unfold cell_5.
  apply (preserves_bind_returns proj _ _ _
           (preserves_jax_jit proj _ _ blind_api blind_jits)
           (returns_jax_jit _ _)).
  intros j Hj.
  assert (Hc : preserves proj (r <- call_jit j [x] ;; block_until_ready r)).
  { repeat frame_step. apply preserves_call_jit; try assumption.
    rewrite Hj. apply preserves_selu_fn. }
  apply preserves_bind; [exact Hc | intros _].
  apply preserves_bind; [apply preserves_timeit, Hc | intros _].
  apply preserves_ret.
Qed.

Lemma preserves_cell_6 : preserves proj cell_6.
Proof.
  unfold cell_6.
  apply (preserves_bind_returns proj _ _ _
           (preserves_jax_jit proj _ _ blind_api blind_jits)
           (returns_jax_jit _ _)).
  intros j Hj. apply preserves_call_jit; try assumption.
  rewrite Hj. intros a. apply preserves_fun1, preserves_f.
Qed.

Lemma preserves_cell_7 : preserves proj cell_7.
Proof.
  unfold cell_7.
  apply (preserves_bind_returns proj _ _ _
           (preserves_jax_jit proj _ _ blind_api blind_jits)
           (returns_jax_jit _ _)).
  intros j Hj. apply preserves_call_jit; try assumption.
  rewrite Hj. intros a. apply preserves_fun2, preserves_g.
Qed.

Lemma preserves_cell_8 : preserves proj cell_8.
Proof.
  unfold cell_8, loop_body.
  apply (preserves_bind_returns proj _ _ _
           (preserves_jax_jit proj _ _ blind_api blind_jits)
           (returns_jax_jit _ _)).
  intros j Hj. repeat frame_step.
  apply preserves_g_inner_jitted. rewrite Hj.
  intros a. apply preserves_fun1, preserves_loop_body_fn.
Qed.

Lemma returns_cell_8 : returns cell_8 (fun r => jit_fun (fst r) = fun1 loop_body_fn).
Proof.
  unfold cell_8, loop_body. intros fuel w r w'. unfold bind at 1.
  rewrite jax_jit_run. revert r w'.
  apply returns_bind. intros v. apply returns_ret. reflexivity.
Qed.

Lemma preserves_cell_10 : preserves proj cell_10.
Proof.
  unfold cell_10.
  apply (preserves_bind_returns proj _ _ _
           (preserves_jax_jit proj _ _ blind_api blind_jits)
           (returns_jax_jit _ _)).
  intros j Hj. repeat frame_step.
  - apply preserves_call_jit; try assumption.
    rewrite Hj. intros a0. apply preserves_fun1, preserves_f.
  - apply preserves_print, blind_stdout.
Qed.

Lemma preserves_cell_11 : preserves proj cell_11.
Proof.
  unfold cell_11.
  apply (preserves_bind_returns proj _ _ _
           (preserves_jax_jit proj _ _ blind_api blind_jits)
           (returns_jax_jit _ _)).
  intros j Hj. repeat frame_step.
  - apply preserves_call_jit; try assumption.
    rewrite Hj. intros a0. apply preserves_fun2, preserves_g.
  - apply preserves_print, blind_stdout.
Qed.

Lemma returns_cell_11 : returns cell_11 (fun j => jit_fun j = fun2 g).
Proof.
  unfold cell_11. intros fuel w r w'. unfold bind at 1.
  rewrite jax_jit_run. revert r w'.
  apply returns_bind. intros v. apply returns_bind. intros _.
  apply returns_ret. reflexivity.
Qed.

Lemma preserves_cell_13 (runs1 runs2 : nat) (g_jit_correct : jitted) :
  jit_fun g_jit_correct = fun2 g ->
  preserves proj (cell_13 runs1 runs2 g_jit_correct).
Proof.
  intros Hj. unfold cell_13.
  apply preserves_bind; [apply preserves_print, blind_stdout | intros _].
  apply preserves_bind; [ | intros _].
  { apply preserves_timeit. repeat frame_step.
    apply preserves_call_jit; try assumption.
    rewrite Hj. intros a. apply preserves_fun2, preserves_g. }
  apply preserves_bind; [apply preserves_print, blind_stdout | intros _].
  apply preserves_timeit, preserves_g.
Qed.

Lemma preserves_cell_15 (runs1 runs2 : nat) (lb : jitted) :
  jit_fun lb = fun1 loop_body_fn ->
  preserves proj (cell_15 runs1 runs2 lb).
Proof.
  intros Hj. unfold cell_15.
  apply preserves_bind; [apply preserves_print, blind_stdout | intros _].
  apply preserves_bind; [ | intros _].
  { apply preserves_timeit. repeat frame_step.
    apply preserves_g_inner_jitted. rewrite Hj.
    intros a. apply preserves_fun1, preserves_loop_body_fn. }
  apply preserves_bind; [apply preserves_print, blind_stdout | intros _].
  apply preserves_timeit. repeat frame_step.
  apply preserves_g_inner_jitted_poorly.
Qed.

(** The cells after the first, in a row. *)
Lemma preserves_rest_of_notebook (runs : nat -> nat) :
  preserves proj
    (cell_2 ;;
     cell_3 ;;
     x <- cell_4 (runs 0%nat) ;;
     cell_5 (runs 1%nat) x ;;
     raises_exception cell_6 ;;
     raises_exception cell_7 ;;
     lb_r <- cell_8 ;;
     cell_10 ;;
     g_jit_correct <- cell_11 ;;
     cell_13 (runs 2%nat) (runs 3%nat) g_jit_correct ;;
     cell_15 (runs 4%nat) (runs 5%nat) (fst lb_r)).
Proof.
  apply preserves_bind; [apply preserves_cell_2 | intros _].
  apply preserves_bind; [apply preserves_cell_3 | intros _].
  apply preserves_bind; [apply preserves_cell_4 | intros x].
  apply preserves_bind; [apply preserves_cell_5 | intros _].
  apply preserves_bind;
    [apply preserves_raises_exception, preserves_cell_6 | intros _].
  apply preserves_bind;
    [apply preserves_raises_exception, preserves_cell_7 | intros _].
  apply (preserves_bind_returns proj _ _ _ preserves_cell_8 returns_cell_8).
  intros lb_r Hlb.
  apply preserves_bind; [apply preserves_cell_10 | intros _].
  apply (preserves_bind_returns proj _ _ _ preserves_cell_11 returns_cell_11).
  intros gjc Hg.
  apply preserves_bind; [apply preserves_cell_13, Hg | intros _].
  apply preserves_cell_15, Hlb.
Qed.

End Frames.

(** C5, as amended.  The notebook does own one piece of state: its first
    cell creates the module-level list [global_list], and the run of [log2]
    under [jax.make_jaxpr] in that cell appends the tracer to it.  Every
    other cell, and every function of the notebook other than [log2], leaves
    [global_list] exactly as it is, so that it still holds that one tracer
    when the last cell is done. *)
Theorem only_the_first_cell_changes_global_list
    (runs : nat -> nat) (fuel : nat) (w : World) :
  global_list (snd (cell_1 fuel w)) = [Tracer (mkShaped float32 [] true) 0] /\
  global_list (snd (notebook runs fuel w)) = [Tracer (mkShaped float32 [] true) 0] /\
  preserves global_list cell_2 /\
  preserves global_list cell_3 /\
  (forall r, preserves global_list (cell_4 r)) /\
  (forall r x, preserves global_list (cell_5 r x)) /\
  preserves global_list cell_6 /\
  preserves global_list cell_7 /\
  preserves global_list cell_8 /\
  preserves global_list cell_10 /\
  preserves global_list cell_11 /\
  (forall r1 r2 j, jit_fun j = fun2 g -> preserves global_list (cell_13 r1 r2 j)) /\
  (forall r1 r2 j, jit_fun j = fun1 loop_body_fn ->
                   preserves global_list (cell_15 r1 r2 j)) /\
  (forall x, preserves global_list (log2_with_print x)) /\
  (forall x, preserves global_list (log2_if_rank_2 x)) /\
  (forall x a l, preserves global_list (selu x a l)) /\
  (forall x, preserves global_list (f x)) /\
  (forall x n, preserves global_list (g x n)) /\
  (forall i, preserves global_list (loop_body_fn i)) /\
  (forall i, preserves global_list (unjitted_loop_body i)) /\
  (forall lb x n, jit_fun lb = fun1 loop_body_fn ->
                  preserves global_list (g_inner_jitted lb x n)) /\
  (forall x n, preserves global_list (g_inner_jitted_poorly x n)).
Proof.
  assert (H1 : cell_1 fuel w
               = (Ok tt,
                  set_stdout (stdout w ++ [[PJaxpr log2_jaxpr]])
                    (tick_api (tick_api (tick_api (tick_api
                       (set_global_list [Tracer (mkShaped float32 [] true) 0] w))))))).
  { destruct w; reflexivity. }
  split; [rewrite H1; reflexivity | ].
  split.
  { unfold notebook. rewrite (bind_run _ _ _ _ _ _ H1).
    rewrite (preserves_rest_of_notebook global_list); reflexivity. }
  repeat split; intros;
    first [ apply preserves_cell_2 | apply preserves_cell_3 | apply preserves_cell_4
          | apply preserves_cell_5 | apply preserves_cell_6 | apply preserves_cell_7
          | apply preserves_cell_8 | apply preserves_cell_10 | apply preserves_cell_11
          | apply preserves_cell_13 | apply preserves_cell_15
          | apply preserves_log2_with_print | apply preserves_log2_if_rank_2
          | apply preserves_selu | apply preserves_f | apply preserves_g
          | apply preserves_loop_body_fn | apply preserves_g_inner_jitted_poorly
          | apply preserves_g_inner_jitted ];
    try solve [reflexivity | assumption].
  match goal with H : jit_fun _ = _ |- _ => rewrite H end.
  intros a. apply preserves_fun1. intros i.
  apply preserves_loop_body_fn; reflexivity.
Qed.

(** ** Which calls enter the framework *)

Lemma maintains_bind_prim (I : World -> Prop) (p : prim) (args : list value) :
  (forall w, I w -> I (tick_api w)) ->
  (forall fr w, I w -> I (set_frame fr w)) ->
  maintains I (bind_prim p args).
Proof.
  intros Ha Hf fuel w Hw. unfold bind_prim.
  destruct (frame (tick_api w)) as [fr | ].
  - destruct (abstract_eval p (map get_aval args)); cbn [snd]; auto.
  - cbn [snd]. auto.
Qed.

Lemma maintains_binop (I : World -> Prop) (p : prim) (a b : value) :
  (forall w, I w -> I (tick_api w)) ->
  (forall fr w, I w -> I (set_frame fr w)) ->
  maintains I (binop p a b).
Proof.
  intros Ha Hf. unfold binop.
  destruct (py_scalar a), (py_scalar b); try destruct p;
    auto using maintains_lift, maintains_bind_prim.
Qed.

Lemma enters_bind_prim (p : prim) (args : list value) :
  enters_framework (bind_prim p args).
Proof.
  intros fuel w. unfold bind_prim.
  destruct (frame (tick_api w)) as [fr | ].
  - destruct (abstract_eval p (map get_aval args)); cbn; lia.
  - cbn. lia.
Qed.

(** Once in, never out: what follows can only add calls. *)
Lemma enters_bind {A B} (m : Py A) (k : A -> Py B) :
  enters_framework m ->
  (forall a n, maintains (fun w => (n <= api_calls w)%nat) (k a)) ->
  enters_framework (bind m k).
Proof.
  intros Hm Hk fuel w. unfold bind. specialize (Hm fuel w).
  destruct (m fuel w) as [[a | e | ] w']; cbn [snd] in *; try assumption.
  apply (Hk a (S (api_calls w)) fuel w'). exact Hm.
Qed.

Lemma api_bind_prim_after (n : nat) (p : prim) (args : list value) :
  maintains (fun w => (n <= api_calls w)%nat) (bind_prim p args).
Proof. apply maintains_bind_prim; intros; cbn; lia. Qed.

Lemma api_binop_after (n : nat) (p : prim) (a b : value) :
  maintains (fun w => (n <= api_calls w)%nat) (binop p a b).
Proof. apply maintains_binop; intros; cbn; lia. Qed.

Lemma log2_tail_enters (x : value) :
  enters_framework (ln_x <- jnp_log x ;;
                    ln_2 <- jnp_log (PyFloat (flit "2.0")) ;;
                    py_truediv ln_x ln_2).
Proof.
  apply enters_bind; [apply enters_bind_prim | intros ln_x n].
  apply maintains_bind; [apply api_bind_prim_after | intros ln_2].
  apply api_binop_after.
Qed.

Lemma after_iterations_twice (a b : nat) (w : World) :
  after_iterations a (after_iterations b w) = after_iterations (b + a) w.
Proof.
  unfold after_iterations. cbn. f_equal. lia.
Qed.

Lemma timeit_g (x n : Z) (fuel : nat) :
  (Z.to_nat (Z.max n 0) < fuel)%nat ->
  forall runs w,
    timeit runs (g (PyInt x) (PyInt n)) fuel w
    = (Ok tt, after_iterations (runs * Z.to_nat (Z.max n 0)) w).
Proof.
  intros Hfuel. induction runs as [ | r IH]; intros w; cbn [timeit].
  - unfold ret, after_iterations. cbn. rewrite Nat.add_0_r. destruct w; reflexivity.
  - rewrite (bind_run _ _ _ _ _ _ (g_on_ints x n fuel w Hfuel)).
    rewrite IH, after_iterations_twice. reflexivity.
Qed.

(** C6, as amended.  [f] and [g] are the notebook's own plain Python:
    called on Python ints, as the timing cell calls [g(10, 20)], they
    compute their results ([x] or [2 * x]; [x + max(n, 0)], by counting up
    in a loop) without a single call into the framework.  The functions
    [log2], [log2_with_print] and [selu], by contrast, go through the
    framework's API on every call. *)
Theorem f_and_g_are_plain_python (x n : Z) (runs : nat) (fuel : nat) (w : World) :
  (Z.to_nat (Z.max n 0) < fuel)%nat ->
  g (PyInt x) (PyInt n) fuel w
  = (Ok (PyInt (x + Z.max n 0)), after_iterations (Z.to_nat (Z.max n 0)) w) /\
  api_calls (snd (g (PyInt x) (PyInt n) fuel w)) = api_calls w /\
  f (PyInt x) fuel w = (Ok (PyInt (if 0 <? x then x else 2 * x)), w) /\
  timeit runs (g (PyInt x) (PyInt n)) fuel w
  = (Ok tt, after_iterations (runs * Z.to_nat (Z.max n 0)) w) /\
  api_calls (snd (timeit runs (g (PyInt x) (PyInt n)) fuel w)) = api_calls w /\
  (forall v, enters_framework (log2 v)) /\
  (forall v, enters_framework (log2_with_print v)) /\
  (forall v alpha lambda_, enters_framework (selu v alpha lambda_)).
Proof.
  intros Hfuel.
  assert (Hg : g (PyInt x) (PyInt n) fuel w
               = (Ok (PyInt (x + Z.max n 0)),
                  after_iterations (Z.to_nat (Z.max n 0)) w)).
  { apply g_on_ints, Hfuel. }
  split; [exact Hg | ].
  split; [rewrite Hg; reflexivity | ].
  split.
  { unfold f. erewrite bind_run by reflexivity. erewrite bind_run by reflexivity.
    destruct (0 <? x); reflexivity. }
  split; [apply timeit_g, Hfuel | ].
  split; [rewrite (timeit_g x n fuel Hfuel); reflexivity | ].
  split.
  { intros v fuel' w'. unfold log2. erewrite bind_run by reflexivity.
    apply (log2_tail_enters v fuel' (set_global_list (global_list w' ++ [v]) w')). }
  split.
  { intros v fuel' w'. unfold log2_with_print, print.
    erewrite bind_run by reflexivity.
    apply (log2_tail_enters v fuel'
             (set_stdout (stdout w' ++ [[PStr "printed x:"; PVal v]]) w')). }
  intros v a l. unfold selu, py_gt, py_mul, py_sub, jnp_exp, jnp_where.
  assert (Hrest : forall c m,
             maintains (fun w => (m <= api_calls w)%nat)
               (e <- bind_prim Exp [v] ;;
                ae <- binop Mul a e ;;
                y <- binop Sub ae a ;;
                wh <- bind_prim Select [c; v; y] ;;
                binop Mul l wh)).
  { intros c m.
    repeat (apply maintains_bind; [ | intros ?]);
      auto using api_bind_prim_after, api_binop_after. }
  unfold binop at 1. cbn [py_scalar].
  destruct (py_scalar v) as [nv | ] eqn:Ev.
  - intros fuel' w'.
    destruct (py_arith Gt nv (NInt 0)) as [c | e | ] eqn:Ec;
      [ | destruct nv; discriminate | destruct nv; discriminate].
    erewrite bind_run by reflexivity.
    apply (enters_bind (bind_prim Exp [v])); [apply enters_bind_prim | ].
    intros e m.
    repeat (apply maintains_bind; [ | intros ?]);
      auto using api_bind_prim_after, api_binop_after.
  - apply enters_bind; [apply enters_bind_prim | intros c m; apply Hrest].
Qed.

(** ** [log2_with_print] and [log2_if_rank_2], called directly *)

Lemma sees_ret {A} (a : A) : sees_only_framework (ret a).
Proof. intros fuel w1 w2 H. cbn. repeat split; [exact H | lia]. Qed.

Lemma sees_lift {A} (o : outcome A) : sees_only_framework (lift o).
Proof. intros fuel w1 w2 H. cbn. repeat split; [exact H | lia]. Qed.

Lemma sees_bind {A B} (m : Py A) (k : A -> Py B) :
  sees_only_framework m -> (forall a, sees_only_framework (k a)) ->
  sees_only_framework (bind m k).
Proof.
  intros Hm Hk fuel w1 w2 H. unfold bind.
  destruct (Hm fuel w1 w2 H) as (Hfst & Hfr & Hapi).
  destruct (m fuel w1) as [o1 w1'], (m fuel w2) as [o2 w2'].
  cbn [fst snd] in Hfst, Hfr, Hapi. subst o2.
  destruct o1 as [a | e | ]; [ | repeat split; assumption ..].
  destruct (Hk a fuel w1' w2' Hfr) as (Hfst' & Hfr' & Hapi').
  repeat split; [assumption .. | lia].
Qed.

Lemma sees_bind_prim (p : prim) (args : list value) :
  sees_only_framework (bind_prim p args).
Proof.
  intros fuel w1 w2 H. unfold bind_prim.
  replace (frame (tick_api w1)) with (frame w1) by reflexivity.
  replace (frame (tick_api w2)) with (frame w2) by reflexivity.
  rewrite <- H.
  destruct (frame w1) as [fr | ] eqn:E.
  - destruct (abstract_eval p (map get_aval args)); cbn;
      rewrite ?E, <- ?H; repeat split; lia.
  - cbn. rewrite E, <- H. repeat split; lia.
Qed.

Lemma sees_binop (p : prim) (a b : value) : sees_only_framework (binop p a b).
Proof.
  unfold binop.
  destruct (py_scalar a), (py_scalar b); try destruct p;
    auto using sees_lift, sees_bind_prim.
Qed.

Lemma log2_tail_sees (x : value) :
  sees_only_framework (ln_x <- jnp_log x ;;
                       ln_2 <- jnp_log (PyFloat (flit "2.0")) ;;
                       py_truediv ln_x ln_2).
Proof.
  unfold jnp_log, py_truediv.
  repeat (apply sees_bind; [ | intros ?]); auto using sees_bind_prim, sees_binop.
Qed.

(** X1.  Called on one and the same argument in one and the same state,
    [log2_with_print] and [log2] return the same value (or raise the same
    exception), leave the same trace in progress and ask the same number of
    operations of the framework.  They differ in their side effect alone:
    [log2_with_print] prints one line, its argument after the words
    [printed x:], and leaves [global_list] alone. *)
Theorem log2_with_print_computes_log2 (x : value) (fuel : nat) (w : World) :
  fst (log2_with_print x fuel w) = fst (log2 x fuel w) /\
  frame (snd (log2_with_print x fuel w)) = frame (snd (log2 x fuel w)) /\
  api_calls (snd (log2_with_print x fuel w)) = api_calls (snd (log2 x fuel w)) /\
  stdout (snd (log2_with_print x fuel w))
  = stdout w ++ [[PStr "printed x:"; PVal x]] /\
  global_list (snd (log2_with_print x fuel w)) = global_list w /\
  jits (snd (log2_with_print x fuel w)) = jits w.
Proof.
  assert (Hrun : log2_with_print x fuel w
                 = (ln_x <- jnp_log x ;;
                    ln_2 <- jnp_log (PyFloat (flit "2.0")) ;;
                    py_truediv ln_x ln_2) fuel
                     (set_stdout (stdout w ++ [[PStr "printed x:"; PVal x]]) w)).
  { unfold log2_with_print, print. erewrite bind_run by reflexivity. reflexivity. }
  assert (Hlog : log2 x fuel w
                 = (ln_x <- jnp_log x ;;
                    ln_2 <- jnp_log (PyFloat (flit "2.0")) ;;
                    py_truediv ln_x ln_2) fuel
                     (set_global_list (global_list w ++ [x]) w)).
  { unfold log2. erewrite bind_run by reflexivity. reflexivity. }
  rewrite Hrun, Hlog.
  destruct (log2_tail_sees x fuel
              (set_stdout (stdout w ++ [[PStr "printed x:"; PVal x]]) w)
              (set_global_list (global_list w ++ [x]) w) eq_refl)
    as (Hfst & Hfr & Hapi).
  cbn [api_calls set_stdout set_global_list] in Hapi.
  split; [exact Hfst | ]. split; [exact Hfr | ]. split; [lia | ].
  split; [ | split].
  - exact (log2_tail_preserves stdout x (fun _ => eq_refl) (fun _ _ => eq_refl) fuel _).
  - exact (log2_tail_preserves global_list x (fun _ => eq_refl) (fun _ _ => eq_refl) fuel _).
  - exact (log2_tail_preserves jits x (fun _ => eq_refl) (fun _ _ => eq_refl) fuel _).
Qed.

(** X2.  Called directly, [log2_if_rank_2] reads [x.ndim] first.  A Python
    scalar has no such attribute: the call raises [AttributeError] and
    nothing has happened.  An array (or a tracer) of a rank other than 2 is
    returned as it is, without a single operation of the framework.  On one
    of rank 2 the function computes what [log2] computes, without the
    append to [global_list]. *)
Theorem log2_if_rank_2_called_directly (x : value) (fuel : nat) (w : World) :
  (py_scalar x <> None -> log2_if_rank_2 x fuel w = (Raise AttributeError, w)) /\
  (py_scalar x = None -> List.length (sa_shape (get_aval x)) <> 2%nat ->
   log2_if_rank_2 x fuel w = (Ok x, w)) /\
  (py_scalar x = None -> List.length (sa_shape (get_aval x)) = 2%nat ->
   fst (log2_if_rank_2 x fuel w) = fst (log2 x fuel w) /\
   api_calls (snd (log2_if_rank_2 x fuel w)) = api_calls (snd (log2 x fuel w)) /\
   global_list (snd (log2_if_rank_2 x fuel w)) = global_list w).
Proof.
  assert (Hnd : py_scalar x = None ->
                ndim x fuel w
                = (Ok (PyInt (Z.of_nat (List.length (sa_shape (get_aval x))))), w)).
  { destruct x; try discriminate; reflexivity. }
  split; [ | split].
  - destruct x; try reflexivity; intros H; exfalso; apply H; reflexivity.
  - intros Hx Hrank. unfold log2_if_rank_2.
    rewrite (bind_run _ _ _ _ _ _ (Hnd Hx)).
    erewrite bind_run by reflexivity. erewrite bind_run by reflexivity.
    replace (Z.of_nat (List.length (sa_shape (get_aval x))) =? 2) with false
      by (symmetry; apply Z.eqb_neq; lia).
    reflexivity.
  - intros Hx Hrank.
    assert (Hrun : log2_if_rank_2 x fuel w
                   = (ln_x <- jnp_log x ;;
                      ln_2 <- jnp_log (PyFloat (flit "2.0")) ;;
                      py_truediv ln_x ln_2) fuel w).
    { unfold log2_if_rank_2.
      rewrite (bind_run _ _ _ _ _ _ (Hnd Hx)).
      erewrite bind_run by reflexivity. erewrite bind_run by reflexivity.
      replace (Z.of_nat (List.length (sa_shape (get_aval x))) =? 2) with true
        by (symmetry; apply Z.eqb_eq; lia).
      reflexivity. }
    assert (Hlog : log2 x fuel w
                   = (ln_x <- jnp_log x ;;
                      ln_2 <- jnp_log (PyFloat (flit "2.0")) ;;
                      py_truediv ln_x ln_2) fuel
                       (set_global_list (global_list w ++ [x]) w)).
    { unfold log2. erewrite bind_run by reflexivity. reflexivity. }
    rewrite Hrun, Hlog.
    destruct (log2_tail_sees x fuel w
                (set_global_list (global_list w ++ [x]) w) eq_refl)
      as (Hfst & _ & Hapi).
    cbn [api_calls set_global_list] in Hapi.
    split; [exact Hfst | ]. split; [lia | ].
    exact (log2_tail_preserves global_list x (fun _ => eq_refl) (fun _ _ => eq_refl)
             fuel w).
Qed.

(** ** Operations on whole arrays *)

Lemma column_maps (fs : list (elt -> elt)) (base : list elt) (k : nat) (e : elt) :
  nth_error base k = Some e ->
  column k (map (fun f => map f base) fs) = Some (map (fun f => f e) fs).
Proof.
  intros H. induction fs as [ | f fs IH]; cbn [map column]; [reflexivity | ].
  rewrite nth_error_map, H, IH. reflexivity.
Qed.

Lemma elementwise_from (p : prim) (dt : dtype) (fs : list (elt -> elt))
    (h : elt -> elt) :
  (forall e, elt_op p dt (map (fun f => f e) fs) = Some (h e)) ->
  forall rest done,
    elementwise p dt (map (fun f => map f (done ++ rest)) fs)
                (List.length rest) (List.length done)
    = Some (map h rest).
Proof.
  intros Hop. induction rest as [ | e rest IH]; intros done; [reflexivity | ].
  cbn [List.length elementwise map].
  rewrite (column_maps fs (done ++ e :: rest) (List.length done) e).
  2:{ rewrite nth_error_app2 by lia. rewrite Nat.sub_diag. reflexivity. }
  rewrite Hop.
  specialize (IH (done ++ [e])).
  rewrite <- app_assoc, length_app in IH. cbn [app List.length] in IH.
  rewrite Nat.add_1_r in IH. rewrite IH. reflexivity.
Qed.

Lemma elementwise_maps (p : prim) (dt : dtype) (fs : list (elt -> elt))
    (h : elt -> elt) (base : list elt) :
  (forall e, elt_op p dt (map (fun f => f e) fs) = Some (h e)) ->
  elementwise p dt (map (fun f => map f base) fs) (List.length base) 0
  = Some (map h base).
Proof. intros Hop. apply (elementwise_from p dt fs h Hop base []). Qed.

Lemma expand_full (n : nat) (buf : list elt) :
  List.length buf = n -> expand n buf = buf.
Proof. destruct buf as [ | a [ | b buf]]; intros <-; reflexivity. Qed.

Lemma expand_scalar (base : list elt) (c : elt) :
  expand (List.length base) [c] = map (fun _ => c) base.
Proof. cbn [expand]. symmetry. apply map_const. Qed.

Lemma result_shape_same (s : list N) :
  forall k, result_shape (repeat s (S k)) = Some s.
Proof.
  induction k as [ | k IH]; [reflexivity | ].
  change (repeat s (S (S k))) with (s :: repeat s (S k)).
  cbn [result_shape]. rewrite IH.
  destruct s as [ | d s]; [reflexivity | ].
  destruct (list_eq_dec N.eq_dec (d :: s) (d :: s)); [reflexivity | congruence].
Qed.

Lemma result_shape_scalar_left (s : list N) : result_shape [[]; s] = Some s.
Proof. destruct s; reflexivity. Qed.

(** A one-operand operation on an array works element by element. *)
Lemma impl_unary (p : prim) (dt rdt : dtype) (sh : list N)
    (f h : elt -> elt) (base : list elt) :
  List.length base = size sh ->
  result_dtype p [dt] = Some rdt ->
  (forall e, elt_op p (operand_dtype p [dt]) [f e] = Some (h e)) ->
  impl p [DeviceArray dt sh (map f base)] = Ok (DeviceArray rdt sh (map h base)).
Proof.
  intros Hlen Hdt Hop. unfold impl.
  cbn [as_arrays as_array map fst snd]. rewrite Hdt.
  cbn [result_shape].
  rewrite expand_full by (rewrite length_map; exact Hlen).
  rewrite <- Hlen.
  change [map f base] with (map (fun g => map g base) [f]).
  rewrite (elementwise_maps p _ [f] h base Hop). reflexivity.
Qed.

(** An array and a scalar: the scalar is paired with every element. *)
Lemma impl_array_scalar (p : prim) (dt dc rdt : dtype) (sh : list N)
    (f h : elt -> elt) (base : list elt) (c : value) (ec : elt) :
  List.length base = size sh ->
  as_array c = Ok (dc, [], [ec]) ->
  result_dtype p [dt; dc] = Some rdt ->
  (forall e, elt_op p (operand_dtype p [dt; dc]) [f e; ec] = Some (h e)) ->
  impl p [DeviceArray dt sh (map f base); c] = Ok (DeviceArray rdt sh (map h base)).
Proof.
  intros Hlen Hc Hdt Hop. unfold impl.
  cbn [as_arrays]. rewrite Hc. cbn [as_array map fst snd]. rewrite Hdt.
  cbn [result_shape].
  rewrite (expand_full (size sh) (map f base)) by (rewrite length_map; exact Hlen).
  rewrite <- Hlen, expand_scalar.
  change [map f base; map (fun _ => ec) base]
    with (map (fun g => map g base) [f; fun _ => ec]).
  rewrite (elementwise_maps p _ [f; fun _ => ec] h base Hop). reflexivity.
Qed.

Lemma impl_scalar_array (p : prim) (dt dc rdt : dtype) (sh : list N)
    (f h : elt -> elt) (base : list elt) (c : value) (ec : elt) :
  List.length base = size sh ->
  as_array c = Ok (dc, [], [ec]) ->
  result_dtype p [dc; dt] = Some rdt ->
  (forall e, elt_op p (operand_dtype p [dc; dt]) [ec; f e] = Some (h e)) ->
  impl p [c; DeviceArray dt sh (map f base)] = Ok (DeviceArray rdt sh (map h base)).
Proof.
  intros Hlen Hc Hdt Hop. unfold impl.
  cbn [as_arrays]. rewrite Hc. cbn [as_array map fst snd]. rewrite Hdt.
  rewrite result_shape_scalar_left.
  rewrite (expand_full (size sh) (map f base)) by (rewrite length_map; exact Hlen).
  rewrite <- Hlen, expand_scalar.
  change [map (fun _ => ec) base; map f base]
    with (map (fun g => map g base) [fun _ => ec; f]).
  rewrite (elementwise_maps p _ [fun _ => ec; f] h base Hop). reflexivity.
Qed.

(** Three arrays of one shape. *)
Lemma impl_ternary (p : prim) (d1 d2 d3 rdt : dtype) (sh : list N)
    (f1 f2 f3 h : elt -> elt) (base : list elt) :
  List.length base = size sh ->
  result_dtype p [d1; d2; d3] = Some rdt ->
  (forall e, elt_op p (operand_dtype p [d1; d2; d3]) [f1 e; f2 e; f3 e] = Some (h e)) ->
  impl p [DeviceArray d1 sh (map f1 base); DeviceArray d2 sh (map f2 base);
          DeviceArray d3 sh (map f3 base)]
  = Ok (DeviceArray rdt sh (map h base)).
Proof.
  intros Hlen Hdt Hop. unfold impl.
  cbn [as_arrays as_array map fst snd]. rewrite Hdt.
  change [sh; sh; sh] with (repeat sh 3). rewrite (result_shape_same sh 2).
  rewrite !expand_full by (rewrite length_map; exact Hlen).
  rewrite <- Hlen.
  change [map f1 base; map f2 base; map f3 base]
    with (map (fun g => map g base) [f1; f2; f3]).
  rewrite (elementwise_maps p _ [f1; f2; f3] h base Hop). reflexivity.
Qed.

(** X3.  Called directly on an array whose buffer has as many elements as its
    shape says, [log2] works element by element: the result is a [float32]
    array of the same shape, [log(x_i) / log(2.0)] at every position. *)
Theorem log2_maps_over_arrays (dt : dtype) (sh : list N) (buf : list elt)
    (fuel : nat) (w : World) :
  frame w = None ->
  List.length buf = size sh ->
  fst (log2 (DeviceArray dt sh buf) fuel w)
  = Ok (DeviceArray float32 sh (map log2_elt buf)).
Proof.
  intros Hw Hlen. rewrite log2_eager_value by exact Hw.
  rewrite <- (map_id buf) at 1.
  rewrite (impl_unary Log dt float32 sh (fun e => e)
             (fun e => EFloat (flog (elt_F e))) buf Hlen eq_refl (fun e => eq_refl)).
  apply (impl_array_scalar Div float32 float32 float32 sh
           (fun e => EFloat (flog (elt_F e))) log2_elt buf
           (DeviceArray float32 [] [EFloat (flog (flit "2.0"))])
           (EFloat (flog (flit "2.0"))) Hlen eq_refl eq_refl).
  intros e. reflexivity.
Qed.

(** [selu] on an array, with no trace in progress: the result and the
    world. *)
Lemma selu_run (dt : dtype) (sh : list N) (buf : list elt)
    (alpha lambda_ : F) (fuel : nat) (w : World) :
  frame w = None ->
  List.length buf = size sh ->
  selu (DeviceArray dt sh buf) (PyFloat alpha) (PyFloat lambda_) fuel w
  = (Ok (DeviceArray float32 sh (map (selu_elt dt alpha lambda_) buf)),
     tick_api (tick_api (tick_api (tick_api (tick_api (tick_api w)))))).
Proof.
  intros Hw Hlen.
  set (x := DeviceArray dt sh buf).
  set (pos := fun e => EBool (elt_positive dt e)).
  set (ex := fun e => EFloat (fexp (elt_F e))).
  set (ae := fun e => EFloat (fmul alpha (fexp (elt_F e)))).
  set (y := fun e => EFloat (fsub (fmul alpha (fexp (elt_F e))) alpha)).
  set (wh := fun e => EFloat (if elt_truth (pos e) then elt_F e
                              else fsub (fmul alpha (fexp (elt_F e))) alpha)).
  assert (Hx : x = DeviceArray dt sh (map (fun e => e) buf)).
  { unfold x. rewrite map_id. reflexivity. }
  assert (H1 : impl Gt [x; PyInt 0] = Ok (DeviceArray bool_ sh (map pos buf))).
  { rewrite Hx.
    apply (impl_array_scalar Gt dt int32 bool_ sh (fun e => e) pos buf
             (PyInt 0) (EInt 0) Hlen eq_refl eq_refl).
    intros e. destruct dt; reflexivity. }
  assert (H2 : impl Exp [x] = Ok (DeviceArray float32 sh (map ex buf))).
  { rewrite Hx.
    apply (impl_unary Exp dt float32 sh (fun e => e) ex buf Hlen eq_refl).
    intros e. reflexivity. }
  assert (H3 : impl Mul [PyFloat alpha; DeviceArray float32 sh (map ex buf)]
               = Ok (DeviceArray float32 sh (map ae buf))).
  { apply (impl_scalar_array Mul float32 float32 float32 sh ex ae buf
             (PyFloat alpha) (EFloat alpha) Hlen eq_refl eq_refl).
    intros e. reflexivity. }
  assert (H4 : impl Sub [DeviceArray float32 sh (map ae buf); PyFloat alpha]
               = Ok (DeviceArray float32 sh (map y buf))).
  { apply (impl_array_scalar Sub float32 float32 float32 sh ae y buf
             (PyFloat alpha) (EFloat alpha) Hlen eq_refl eq_refl).
    intros e. reflexivity. }
  assert (H5 : impl Select [DeviceArray bool_ sh (map pos buf); x;
                            DeviceArray float32 sh (map y buf)]
               = Ok (DeviceArray float32 sh (map wh buf))).
  { rewrite Hx.
    apply (impl_ternary Select bool_ dt float32 float32 sh pos (fun e => e) y wh
             buf Hlen).
    - destruct dt; reflexivity.
    - intros e. unfold wh, y.
      replace (operand_dtype Select [bool_; dt; float32]) with float32
        by (destruct dt; reflexivity).
      cbn [elt_op cast]. destruct (elt_truth (pos e)); reflexivity. }
  assert (H6 : impl Mul [PyFloat lambda_; DeviceArray float32 sh (map wh buf)]
               = Ok (DeviceArray float32 sh (map (selu_elt dt alpha lambda_) buf))).
  { apply (impl_scalar_array Mul float32 float32 float32 sh wh
             (selu_elt dt alpha lambda_) buf
             (PyFloat lambda_) (EFloat lambda_) Hlen eq_refl eq_refl).
    intros e. reflexivity. }
  unfold selu, py_gt, py_mul, py_sub, jnp_exp, jnp_where.
  erewrite bind_run.
  2:{ unfold binop. cbn [py_scalar x]. fold x.
      rewrite bind_prim_eager by exact Hw. rewrite H1. reflexivity. }
  erewrite bind_run.
  2:{ rewrite bind_prim_eager by exact Hw. rewrite H2. reflexivity. }
  erewrite bind_run.
  2:{ unfold binop. cbn [py_scalar].
      rewrite bind_prim_eager by exact Hw. rewrite H3. reflexivity. }
  erewrite bind_run.
  2:{ unfold binop. cbn [py_scalar].
      rewrite bind_prim_eager by exact Hw. rewrite H4. reflexivity. }
  erewrite bind_run.
  2:{ rewrite bind_prim_eager by exact Hw. rewrite H5. reflexivity. }
  unfold binop. cbn [py_scalar].
  rewrite bind_prim_eager by exact Hw. rewrite H6. reflexivity.
Qed.

(** X4.  Called directly on an array whose buffer has as many elements as its
    shape says, with Python floats for [alpha] and [lambda_], [selu] works
    element by element: the result is a [float32] array of the same shape
    that holds [lambda_ * x_i] where [x_i > 0] and
    [lambda_ * (alpha * exp(x_i) - alpha)] elsewhere; six operations have
    been asked of the framework. *)
Theorem selu_maps_over_arrays (dt : dtype) (sh : list N) (buf : list elt)
    (alpha lambda_ : F) (fuel : nat) (w : World) :
  frame w = None ->
  List.length buf = size sh ->
  fst (selu (DeviceArray dt sh buf) (PyFloat alpha) (PyFloat lambda_) fuel w)
  = Ok (DeviceArray float32 sh (map (selu_elt dt alpha lambda_) buf)) /\
  api_calls (snd (selu (DeviceArray dt sh buf) (PyFloat alpha) (PyFloat lambda_) fuel w))
  = (api_calls w + 6)%nat.
Proof.
  intros Hw Hlen. rewrite (selu_run dt sh buf alpha lambda_ fuel w Hw Hlen).
  split; [reflexivity | ].
  cbn [snd api_calls tick_api]. lia.
Qed.

(** ** [selu] under [jax.make_jaxpr] and [jax.jit] *)

(** With a trace in progress, an operation whose operands have compatible
    types and shapes is recorded and a tracer of the result's type and
    shape comes back. *)
Lemma bind_prim_records (p : prim) (args : list value) (dt : dtype) (sh : list N)
    (fr : trace_frame) (fuel : nat) (w : World) :
  frame w = Some fr ->
  result_dtype p (map sa_dtype (map get_aval args)) = Some dt ->
  result_shape (map sa_shape (map get_aval args)) = Some sh ->
  exists wk,
    bind_prim p args fuel w
    = (Ok (Tracer (mkShaped dt sh wk) (fr_next fr)),
       set_frame
         (Some (mkFrame (fr_eqns fr ++ [mkEqn (fr_next fr) p (map to_atom args)])
                        (S (fr_next fr))))
         (tick_api w)).
Proof.
  intros Hw Hdt Hsh. unfold bind_prim.
  replace (frame (tick_api w)) with (frame w) by reflexivity.
  rewrite Hw. unfold abstract_eval. rewrite Hdt, Hsh.
  eexists. reflexivity.
Qed.

(** The trace of [selu] with its default [alpha] and [lambda_]. *)
Lemma trace_selu (x : value) (fuel : nat) (w : World) :
  exists w',
    trace_to_jaxpr selu_fn [] [x] fuel w
    = (Ok (selu_jaxpr (PyFloat (flit "1.67")) (PyFloat (flit "1.05"))), w') /\
    frame w' = frame w /\
    jits w' = jits w /\
    global_list w' = global_list w /\
    stdout w' = stdout w /\
    loop_iterations w' = loop_iterations w /\
    api_calls w' = (api_calls w + 6)%nat.
Proof.
  destruct (get_aval x) as [dt sh wk0] eqn:Ex.
  set (x0 := Tracer (get_aval x) 0).
  assert (Hrun : exists a6,
             selu x0 (PyFloat (flit "1.67")) (PyFloat (flit "1.05")) fuel
                  (set_frame (Some (mkFrame [] 1)) w)
             = (Ok (Tracer a6 6),
                set_frame
                  (Some (mkFrame
                           (eqns (selu_jaxpr (PyFloat (flit "1.67"))
                                             (PyFloat (flit "1.05"))))
                           7))
                  (tick_api (tick_api (tick_api (tick_api (tick_api (tick_api w)))))))).
  { unfold selu, py_gt, py_mul, py_sub, jnp_exp, jnp_where, x0.
    rewrite Ex.
    destruct (bind_prim_records Gt [Tracer (mkShaped dt sh wk0) 0; PyInt 0] bool_ sh
                (mkFrame [] 1) fuel (set_frame (Some (mkFrame [] 1)) w)
                eq_refl eq_refl eq_refl)
      as [k1 H1].
    unfold binop at 1. cbn [py_scalar].
    rewrite (bind_run _ _ _ _ _ _ H1). clear H1.
    match goal with
    | |- context [bind (bind_prim Exp ?args) _ fuel ?w0] =>
        destruct (bind_prim_records Exp args float32 sh _ fuel w0
                    eq_refl eq_refl eq_refl) as [k2 H2]
    end.
    rewrite (bind_run _ _ _ _ _ _ H2). clear H2.
    unfold binop at 1. cbn [py_scalar].
    match goal with
    | |- context [bind (bind_prim Mul ?args) _ fuel ?w0] =>
        destruct (bind_prim_records Mul args float32 sh _ fuel w0
                    eq_refl eq_refl (result_shape_scalar_left sh)) as [k3 H3]
    end.
    rewrite (bind_run _ _ _ _ _ _ H3). clear H3.
    unfold binop at 1. cbn [py_scalar].
    match goal with
    | |- context [bind (bind_prim Sub ?args) _ fuel ?w0] =>
        destruct (bind_prim_records Sub args float32 sh _ fuel w0
                    eq_refl eq_refl eq_refl) as [k4 H4]
    end.
    rewrite (bind_run _ _ _ _ _ _ H4). clear H4.
    match goal with
    | |- context [bind (bind_prim Select ?args) _ fuel ?w0] =>
        destruct (bind_prim_records Select args (promote dt float32) sh _ fuel w0
                    eq_refl eq_refl (result_shape_same sh 2)) as [k5 H5]
    end.
    rewrite (bind_run _ _ _ _ _ _ H5). clear H5.
    unfold binop. cbn [py_scalar].
    match goal with
    | |- context [bind_prim Mul ?args fuel ?w0] =>
        destruct (bind_prim_records Mul args (promote float32 (promote dt float32)) sh
                    _ fuel w0 eq_refl eq_refl (result_shape_scalar_left sh))
          as [k6 H6]
    end.
    rewrite H6. eexists. destruct w; reflexivity. }
  destruct Hrun as [a6 Hrun].
  unfold trace_to_jaxpr.
  cbn [dynamic_args tracers_for is_static existsb List.length selu_fn].
  fold x0. rewrite Hrun.
  eexists. split; [reflexivity | ].
  destruct w; cbn. repeat split. lia.
Qed.

Lemma bind_assoc {A B C} (m : Py A) (k : A -> Py B) (k' : B -> Py C) fuel w :
  bind (bind m k) k' fuel w = bind m (fun a => bind (k a) k') fuel w.
Proof. unfold bind. destruct (m fuel w) as [[a | e | ] w']; reflexivity. Qed.

(** With no trace in progress, an operation followed by the rest. *)
Lemma bind_eager {B} (p : prim) (args : list value) (k : value -> Py B) fuel w :
  frame w = None ->
  bind (bind_prim p args) k fuel w
  = match impl p args with
    | Ok v => k v fuel (tick_api w)
    | Raise e => (Raise e, tick_api w)
    | OutOfFuel => (OutOfFuel, tick_api w)
    end.
Proof.
  intros Hw. unfold bind. rewrite bind_prim_eager by exact Hw.
  destruct (impl p args); reflexivity.
Qed.

Lemma impl_is_array (p : prim) (args : list value) (v : value) :
  impl p args = Ok v -> exists dt sh buf, v = DeviceArray dt sh buf.
Proof.
  unfold impl. destruct (as_arrays args) as [arrs | e | ]; try discriminate.
  destruct (result_dtype _ _) as [dt | ]; try discriminate.
  destruct (result_shape _) as [sh | ]; try discriminate.
  destruct (elementwise _ _ _ _ _) as [buf | ]; try discriminate.
  intros H; injection H as <-. exists dt, sh, buf. reflexivity.
Qed.

(** The compiled [selu], run on an array, returns what [selu] itself
    returns on it. *)
Lemma execute_selu (dt : dtype) (sh : list N) (buf : list elt) (alpha lambda_ : F)
    (fuel : nat) (w : World) :
  frame w = None ->
  fst (execute (selu_jaxpr (PyFloat alpha) (PyFloat lambda_)) [] [DeviceArray dt sh buf]
               fuel w)
  = fst (selu (DeviceArray dt sh buf) (PyFloat alpha) (PyFloat lambda_) fuel w).
Proof.
  intros Hw.
  unfold execute, eval_jaxpr.
  cbn [dynamic_args is_static existsb device_put_all device_put as_array].
  erewrite bind_run by reflexivity.
  cbn [selu_jaxpr eqns invars outvar combine eval_eqns eq_in eq_out eq_prim].
  unfold selu, py_gt, py_mul, py_sub, jnp_exp, jnp_where.
  unfold binop at 1. cbn [py_scalar].
  rewrite !bind_assoc. erewrite bind_run by reflexivity. rewrite bind_assoc.
  rewrite !bind_eager by exact Hw.
  destruct (impl Gt [DeviceArray dt sh buf; PyInt 0]) as [c | e | ] eqn:H1;
    [ | reflexivity ..].
  rewrite bind_assoc. erewrite bind_run by reflexivity. rewrite bind_assoc.
  rewrite !bind_eager by exact Hw.
  destruct (impl Exp [DeviceArray dt sh buf]) as [ex | e | ] eqn:H2;
    [ | reflexivity ..].
  rewrite bind_assoc. erewrite bind_run by reflexivity. rewrite bind_assoc.
  unfold binop at 1. cbn [py_scalar]. rewrite (impl_device _ _ _ H2).
  rewrite !bind_eager by exact Hw.
  destruct (impl Mul [PyFloat alpha; ex]) as [ae | e | ] eqn:H3;
    [ | reflexivity ..].
  rewrite bind_assoc. erewrite bind_run by reflexivity. rewrite bind_assoc.
  unfold binop at 1. rewrite (impl_device _ _ _ H3).
  rewrite !bind_eager by exact Hw.
  destruct (impl Sub [ae; PyFloat alpha]) as [y | e | ] eqn:H4;
    [ | reflexivity ..].
  rewrite bind_assoc. erewrite bind_run by reflexivity. rewrite bind_assoc.
  rewrite !bind_eager by exact Hw.
  destruct (impl Select [c; DeviceArray dt sh buf; y]) as [wh | e | ] eqn:H5;
    [ | reflexivity ..].
  rewrite bind_assoc. erewrite bind_run by reflexivity. rewrite bind_assoc.
  unfold binop. cbn [py_scalar]. rewrite (impl_device _ _ _ H5).
  rewrite bind_eager by exact Hw.
  rewrite bind_prim_eager by exact Hw.
  destruct (impl Mul [PyFloat lambda_; wh]) as [r | e | ] eqn:H6;
    [ | reflexivity ..].
  destruct (impl_is_array _ _ _ H6) as (rdt & rsh & rbuf & ->).
  reflexivity.
Qed.

Lemma frame_after_trace (fn : pyfun) (static : list nat) (args : list value)
    (fuel : nat) (w : World) :
  frame (snd (trace_to_jaxpr fn static args fuel w)) = frame w.
Proof. rewrite trace_runs_once. reflexivity. Qed.

Lemma eval_eqns_keeps_eager (eqs : list eqn) :
  forall env, maintains (fun w => frame w = None) (eval_eqns eqs env).
Proof.
  induction eqs as [ | e rest IH]; intros env; cbn [eval_eqns].
  - apply maintains_ret.
  - apply maintains_bind; [apply maintains_lift | intros vs].
    apply maintains_bind; [apply maintains_eager_bind_prim | intros v; apply IH].
Qed.

Lemma execute_keeps_eager (code : jaxpr) (static : list nat) (args : list value) :
  maintains (fun w => frame w = None) (execute code static args).
Proof.
  unfold execute, eval_jaxpr.
  apply maintains_bind; [apply maintains_lift | intros dyn].
  apply maintains_bind; [ | intros out; apply maintains_lift].
  apply maintains_bind; [apply eval_eqns_keeps_eager | intros env; apply maintains_lift].
Qed.

(** A call from outside any trace ends outside any trace. *)
Lemma call_jit_keeps_eager (j : jitted) (args : list value) :
  maintains (fun w => frame w = None) (call_jit j args).
Proof.
  unfold call_jit.
  apply maintains_bind; [apply maintains_modify; intros w H; exact H | intros _].
  apply maintains_bind; [apply maintains_lift | intros k].
  apply maintains_bind; [intros fuel w H; exact H | intros w0].
  apply maintains_bind; [ | intros code; apply execute_keeps_eager].
  destruct (lookup_cache _ _); [apply maintains_ret | ].
  apply maintains_bind.
  - intros fuel w H. rewrite frame_after_trace. exact H.
  - intros jp. apply maintains_bind; [ | intros _; apply maintains_ret].
    apply maintains_modify. intros w H; exact H.
Qed.

(** The call that compiles: the signature is new and the trace succeeds. *)
Lemma call_jit_first (j : jitted) (args : list value) (k : key) (jp : jaxpr)
    (fuel : nat) (w wt : World) :
  (forall a, preserves jits (jit_fun j a)) ->
  (jit_id j < List.length (jits w))%nat ->
  signature (static_argnums j) 0 args = Ok k ->
  cached w j k = None ->
  trace_to_jaxpr (jit_fun j) (static_argnums j) args fuel (tick_api w) = (Ok jp, wt) ->
  call_jit j args fuel w
  = execute jp (static_argnums j) args fuel (record_compile (jit_id j) k jp wt) /\
  cached (snd (call_jit j args fuel w)) j k = Some jp /\
  compiles (snd (call_jit j args fuel w)) j = S (compiles w j).
Proof.
  intros Hj Hid Hk Hc Ht.
  assert (Hjits : jits (snd (call_jit j args fuel w))
                  = jits (record_compile (jit_id j) k jp w)).
  { rewrite (jits_after_call j args fuel w Hj), Hk, Hc, Ht. reflexivity. }
  split.
  - rewrite (call_jit_miss j args k fuel w Hk Hc).
    rewrite (bind_run _ _ _ _ _ _ Ht).
    erewrite bind_run by reflexivity. reflexivity.
  - unfold cached, compiles.
    rewrite (jit_state_after_compile j k jp w _ Hjits Hid).
    cbn [js_cache js_compiles]. split; [apply lookup_cache_head | reflexivity].
Qed.

(** The call that finds its code in the cache. *)
Lemma call_jit_again (j : jitted) (args : list value) (k : key) (jp : jaxpr)
    (fuel : nat) (w : World) :
  (forall a, preserves jits (jit_fun j a)) ->
  signature (static_argnums j) 0 args = Ok k ->
  cached w j k = Some jp ->
  call_jit j args fuel w = execute jp (static_argnums j) args fuel (tick_api w) /\
  jits (snd (call_jit j args fuel w)) = jits w.
Proof.
  intros Hj Hk Hc. split; [apply (call_jit_hit j args k jp fuel w Hk Hc) | ].
  rewrite (jits_after_call j args fuel w Hj), Hk, Hc. reflexivity.
Qed.

(** X6.  [selu_jit = jax.jit(selu)], as in the fifth cell.  [selu] holds no
    Python test on a value, so it can be traced: the warm-up call on an
    array [x] compiles it, once, and returns a [float32] array of the shape
    of [x].  Every later call on [x], after any number of such calls (the
    runs of [%timeit]), compiles nothing and returns what the warm-up call
    returned. *)
Theorem selu_jit_compiles_once (dt : dtype) (sh : list N) (buf : list elt)
    (calls : nat) (fuel : nat) (w : World) :
  frame w = None ->
  List.length buf = size sh ->
  let x := DeviceArray dt sh buf in
  let selu_jit := mkJitted selu_fn [] (List.length (jits w)) in
  let w0 := snd (jax_jit selu_fn [] fuel w) in
  let w1 := snd (call_jit selu_jit [x] fuel w0) in
  let wn := call_seq selu_jit (repeat [x] calls) fuel w1 in
  compiles w0 selu_jit = 0%nat /\
  compiles w1 selu_jit = 1%nat /\
  compiles (snd (call_jit selu_jit [x] fuel wn)) selu_jit = 1%nat /\
  exists out,
    List.length out = size sh /\
    fst (call_jit selu_jit [x] fuel w0) = Ok (DeviceArray float32 sh out) /\
    fst (call_jit selu_jit [x] fuel wn) = Ok (DeviceArray float32 sh out).
Proof.
  intros Hw Hlen x selu_jit w0 w1 wn.
  set (code := selu_jaxpr (PyFloat (flit "1.67")) (PyFloat (flit "1.05"))).
  set (k := [KAval (get_aval x)]).
  set (out := map (selu_elt dt (flit "1.67") (flit "1.05")) buf).
  assert (Hj : forall a, preserves jits (jit_fun selu_jit a)).
  { intros a. apply preserves_selu_fn; intros; reflexivity. }
  assert (Hk : signature (static_argnums selu_jit) 0 [x] = Ok k) by reflexivity.
  assert (Hvalue : forall w', frame w' = None ->
                     fst (execute code [] [x] fuel w') = Ok (DeviceArray float32 sh out)).
  { intros w' Hw'. unfold code, x. rewrite execute_selu by exact Hw'.
    rewrite selu_run by assumption. reflexivity. }
  assert (Hagain : forall w', frame w' = None ->
                     cached w' selu_jit k = Some code ->
                     compiles w' selu_jit = 1%nat ->
                     fst (call_jit selu_jit [x] fuel w') = Ok (DeviceArray float32 sh out) /\
                     cached (snd (call_jit selu_jit [x] fuel w')) selu_jit k = Some code /\
                     compiles (snd (call_jit selu_jit [x] fuel w')) selu_jit = 1%nat).
  { intros w' Hw' Hc H1.
    destruct (call_jit_again selu_jit [x] k code fuel w' Hj Hk Hc) as (Hrun & Hjits).
    split; [rewrite Hrun; apply Hvalue; exact Hw' | ].
    unfold cached, compiles, jit_state_of in *. rewrite Hjits.
    split; assumption. }
  assert (Hlater : forall n w', frame w' = None ->
                     cached w' selu_jit k = Some code ->
                     compiles w' selu_jit = 1%nat ->
                     let w'' := call_seq selu_jit (repeat [x] n) fuel w' in
                     frame w'' = None /\ cached w'' selu_jit k = Some code /\
                     compiles w'' selu_jit = 1%nat).
  { induction n as [ | n IH]; intros w' Hw' Hc H1; cbn [repeat call_seq].
    - split; [exact Hw' | split; assumption].
    - destruct (Hagain w' Hw' Hc H1) as (_ & Hc' & H1').
      apply IH; try assumption.
      apply call_jit_keeps_eager. exact Hw'. }
  assert (Hw0 : frame w0 = None) by exact Hw.
  assert (Hid0 : (jit_id selu_jit < List.length (jits w0))%nat).
  { unfold w0. cbn. rewrite length_app. cbn. lia. }
  assert (H0 : compiles w0 selu_jit = 0%nat).
  { unfold compiles, w0. cbn [snd jax_jit selu_jit jit_id].
    rewrite jit_state_of_new. reflexivity. }
  destruct (trace_selu x fuel (tick_api w0)) as (wt & Ht & Hfr & _).
  destruct (call_jit_first selu_jit [x] k code fuel w0 wt
              Hj Hid0 Hk (cached_new _ _ _ _) Ht)
    as (Hrun & Hcached & Hcomp).
  fold w1 in Hcached, Hcomp.
  assert (Hfirst : fst (call_jit selu_jit [x] fuel w0) = Ok (DeviceArray float32 sh out)).
  { rewrite Hrun. apply Hvalue.
    cbn [frame record_compile set_jits]. rewrite Hfr. exact Hw. }
  assert (H1 : compiles w1 selu_jit = 1%nat) by (rewrite Hcomp, H0; reflexivity).
  assert (Hw1 : frame w1 = None).
  { unfold w1. apply call_jit_keeps_eager. exact Hw0. }
  destruct (Hlater calls w1 Hw1 Hcached H1) as (Hwn & Hcn & H1n).
  fold wn in Hwn, Hcn, H1n.
  destruct (Hagain wn Hwn Hcn H1n) as (Hv & _ & H1').
  split; [exact H0 | ].
  split; [exact H1 | ].
  split; [exact H1' | ].
  exists out. split; [unfold out; rewrite length_map; exact Hlen | ].
  split; [exact Hfirst | exact Hv].
Qed.

(** ** [f] and [g] with a static argument *)

(** The trace of [f] with [x] static: [f] runs in Python, on the Python int;
    nothing is recorded, and the result is a constant if it fits 32 bits. *)
Lemma trace_f_static (x : Z) (fuel : nat) (w : World) :
  trace_to_jaxpr (fun1 f) [0%nat] [PyInt x] fuel w
  = (if in_int32 (f_int x) then Ok (constant_jaxpr (PyInt (f_int x)))
     else Raise OverflowError,
     w).
Proof.
  unfold trace_to_jaxpr.
  cbn [dynamic_args tracers_for is_static existsb Nat.eqb orb List.length fun1].
  rewrite f_on_ints. fold (f_int x).
  cbn [output_atom as_array].
  destruct (in_int32 (f_int x)); destruct w; reflexivity.
Qed.

(** X7.  [f_jit_correct = jax.jit(f, static_argnums=0)], as in the tenth cell,
    called on a Python int [x] for which [f(x)] fits 32 bits.  With [x]
    static the whole of [f] runs in Python while tracing: the code compiled
    for [x] has no input and no equation, it is the constant [f(x)]; the
    call returns [f(x)] as a 32-bit device scalar, and a second call with
    the same [x] returns it again without compiling. *)
Theorem f_jit_correct_is_a_constant (x : Z) (fuel : nat) (w : World) :
  in_int32 (f_int x) = true ->
  let f_jit_correct := mkJitted (fun1 f) [0%nat] (List.length (jits w)) in
  let w0 := snd (jax_jit (fun1 f) [0%nat] fuel w) in
  let w1 := snd (call_jit f_jit_correct [PyInt x] fuel w0) in
  fst (f (PyInt x) fuel w) = Ok (PyInt (f_int x)) /\
  fst (call_jit f_jit_correct [PyInt x] fuel w0)
  = Ok (DeviceArray int32 [] [EInt (f_int x)]) /\
  cached w1 f_jit_correct [KStatic (PyInt x)] = Some (constant_jaxpr (PyInt (f_int x))) /\
  compiles w1 f_jit_correct = 1%nat /\
  fst (call_jit f_jit_correct [PyInt x] fuel w1)
  = Ok (DeviceArray int32 [] [EInt (f_int x)]) /\
  compiles (snd (call_jit f_jit_correct [PyInt x] fuel w1)) f_jit_correct = 1%nat.
Proof.
  intros Hx f_jit_correct w0 w1.
  split; [rewrite f_on_ints; reflexivity | ].
  set (k := [KStatic (PyInt x)]).
  set (code := constant_jaxpr (PyInt (f_int x))).
  assert (Hj : forall a, preserves jits (jit_fun f_jit_correct a)).
  { intros a. apply preserves_fun1. intros v. apply preserves_f; intros; reflexivity. }
  assert (Hk : signature (static_argnums f_jit_correct) 0 [PyInt x] = Ok k)
    by reflexivity.
  assert (Hexec : forall w', fst (execute code [0%nat] [PyInt x] fuel w')
                             = Ok (DeviceArray int32 [] [EInt (f_int x)])).
  { intros w'. unfold execute, eval_jaxpr, code.
    cbn [dynamic_args is_static existsb Nat.eqb orb device_put_all constant_jaxpr
         eqns invars outvar combine eval_eqns read_atom].
    erewrite bind_run by reflexivity.
    erewrite bind_run by (erewrite bind_run by reflexivity; reflexivity).
    unfold lift, device_put, as_array. rewrite Hx. reflexivity. }
  assert (Ht : trace_to_jaxpr (fun1 f) [0%nat] [PyInt x] fuel (tick_api w0)
               = (Ok code, tick_api w0)).
  { rewrite trace_f_static, Hx. reflexivity. }
  assert (Hid0 : (jit_id f_jit_correct < List.length (jits w0))%nat).
  { unfold w0. cbn. rewrite length_app. cbn. lia. }
  destruct (call_jit_first f_jit_correct [PyInt x] k code fuel w0 (tick_api w0)
              Hj Hid0 Hk (cached_new _ _ _ _) Ht)
    as (Hrun & Hcached & Hcomp).
  fold w1 in Hcached, Hcomp.
  assert (H0 : compiles w0 f_jit_correct = 0%nat).
  { unfold compiles, w0. cbn [snd jax_jit f_jit_correct jit_id].
    rewrite jit_state_of_new. reflexivity. }
  split; [rewrite Hrun; apply Hexec | ].
  split; [exact Hcached | ].
  split; [rewrite Hcomp, H0; reflexivity | ].
  destruct (call_jit_again f_jit_correct [PyInt x] k code fuel w1 Hj Hk Hcached)
    as (Hrun' & Hjits).
  split; [rewrite Hrun'; apply Hexec | ].
  unfold compiles, jit_state_of in *. rewrite Hjits, Hcomp, H0. reflexivity.
Qed.

(** Running the code that adds [m] on an integer that fits 32 bits. *)
Lemma execute_add (m : Z) (static : list nat) (args : list value) (v : value) (z : Z)
    (fuel : nat) (w : World) :
  frame w = None ->
  dynamic_args static 0 args = [v] ->
  represents v z ->
  in_int32 z = true ->
  in_int32 m = true ->
  execute (add_jaxpr m) static args fuel w
  = (Ok (DeviceArray int32 [] [EInt (wrap32 (z + m))]), tick_api w).
Proof.
  intros Hw Hdyn Hv Hz Hm. unfold execute. rewrite Hdyn.
  assert (Hput : device_put_all [v] = Ok [DeviceArray int32 [] [EInt z]]).
  { destruct Hv as [-> | ->]; cbn; [rewrite Hz | ]; reflexivity. }
  rewrite Hput. erewrite bind_run by reflexivity.
  assert (He : eval_jaxpr (add_jaxpr m) [DeviceArray int32 [] [EInt z]] fuel w
               = (Ok (DeviceArray int32 [] [EInt (wrap32 (z + m))]), tick_api w)).
  { unfold eval_jaxpr.
    cbn [eqns add_jaxpr eval_eqns invars combine eq_in eq_prim eq_out].
    erewrite bind_run.
    2:{ erewrite bind_run by reflexivity.
        erewrite bind_run.
        2:{ rewrite bind_prim_eager by exact Hw.
            unfold impl. cbn [as_arrays as_array]. rewrite Hm. reflexivity. }
        reflexivity. }
    reflexivity. }
  rewrite (bind_run _ _ _ _ _ _ He). reflexivity.
Qed.

(** The trace of [g] with [n] static: the loop runs in Python, on Python
    ints; one addition is recorded. *)
Lemma trace_g_static (x : value) (n : Z) (fuel : nat) (w : World) :
  (Z.to_nat (Z.max n 0) < fuel)%nat ->
  exists w',
    trace_to_jaxpr (fun2 g) [1%nat] [x; PyInt n] fuel w
    = (Ok (add_jaxpr (Z.max n 0)), w') /\
    frame w' = frame w /\
    jits w' = jits w /\
    global_list w' = global_list w /\
    stdout w' = stdout w /\
    loop_iterations w' = (loop_iterations w + Z.to_nat (Z.max n 0))%nat.
Proof.
  intros Hfuel.
  set (d := Z.to_nat (Z.max n 0)).
  set (w1 := set_frame (Some (mkFrame [] 1)) w).
  assert (Hrun : exists a,
             g (Tracer (get_aval x) 0) (PyInt n) fuel w1
             = (Ok (Tracer a 1),
                set_frame (Some (mkFrame (eqns (add_jaxpr (Z.max n 0))) 2))
                          (tick_api (after_iterations d w1)))).
  { unfold g.
    rewrite (bind_run _ _ fuel w1 (PyInt (0 + Z.of_nat d)) (after_iterations d w1)).
    2:{ unfold while_. apply g_loop; unfold d; lia. }
    replace (0 + Z.of_nat d) with (Z.max n 0) by (unfold d; lia).
    unfold py_add, binop. cbn [py_scalar].
    destruct (get_aval x) as [dt sh wk].
    destruct (bind_prim_records Add [Tracer (mkShaped dt sh wk) 0; PyInt (Z.max n 0)]
                (promote dt int32) sh (mkFrame [] 1) fuel (after_iterations d w1)
                eq_refl eq_refl eq_refl)
      as [k1 H1].
    rewrite H1. eexists. reflexivity. }
  destruct Hrun as [a Hrun].
  unfold trace_to_jaxpr.
  cbn [dynamic_args tracers_for is_static existsb Nat.eqb orb List.length fun2].
  fold w1. rewrite Hrun.
  eexists. split; [reflexivity | ].
  destruct w. cbn. repeat split.
Qed.

(** X8.  [g_jit_correct = jax.jit(g, static_argnums=1)], as in the eleventh
    cell, called twice with the same [n].  The first call traces [g]: the
    Python loop runs then, [max(n, 0)] times, and what is compiled is one
    addition of the literal [max(n, 0)].  Both calls return [x + max(n, 0)]
    as a 32-bit device scalar (wrapped around); the second finds the code
    in the cache and does not run the loop at all. *)
Theorem g_jit_correct_runs_the_loop_when_tracing
    (x x' n : Z) (fuel : nat) (w : World) :
  frame w = None ->
  (Z.to_nat (Z.max n 0) < fuel)%nat ->
  n <= 2147483647 ->
  in_int32 x = true ->
  in_int32 x' = true ->
  let g_jit_correct := mkJitted (fun2 g) [1%nat] (List.length (jits w)) in
  let w0 := snd (jax_jit (fun2 g) [1%nat] fuel w) in
  let w1 := snd (call_jit g_jit_correct [PyInt x; PyInt n] fuel w0) in
  let w2 := snd (call_jit g_jit_correct [PyInt x'; PyInt n] fuel w1) in
  fst (call_jit g_jit_correct [PyInt x; PyInt n] fuel w0)
  = Ok (DeviceArray int32 [] [EInt (wrap32 (x + Z.max n 0))]) /\
  cached w1 g_jit_correct [KAval (mkShaped int32 [] true); KStatic (PyInt n)]
  = Some (add_jaxpr (Z.max n 0)) /\
  loop_iterations w1 = (loop_iterations w + Z.to_nat (Z.max n 0))%nat /\
  compiles w1 g_jit_correct = 1%nat /\
  fst (call_jit g_jit_correct [PyInt x'; PyInt n] fuel w1)
  = Ok (DeviceArray int32 [] [EInt (wrap32 (x' + Z.max n 0))]) /\
  loop_iterations w2 = loop_iterations w1 /\
  compiles w2 g_jit_correct = 1%nat.
Proof.
  intros Hw Hfuel Hn Hx Hx' g_jit_correct w0 w1 w2.
  set (k := [KAval (mkShaped int32 [] true); KStatic (PyInt n)]).
  set (code := add_jaxpr (Z.max n 0)).
  assert (Hm : in_int32 (Z.max n 0) = true) by (apply in_int32_bounds; lia).
  assert (Hj : forall a, preserves jits (jit_fun g_jit_correct a)).
  { intros a. apply preserves_fun2. intros u v. apply preserves_g; intros; reflexivity. }
  assert (Hk : forall z, signature (static_argnums g_jit_correct) 0 [PyInt z; PyInt n]
                         = Ok k) by reflexivity.
  assert (Hw0 : frame w0 = None) by exact Hw.
  assert (Hid0 : (jit_id g_jit_correct < List.length (jits w0))%nat).
  { unfold w0. cbn. rewrite length_app. cbn. lia. }
  assert (H0 : compiles w0 g_jit_correct = 0%nat).
  { unfold compiles, w0. cbn [snd jax_jit g_jit_correct jit_id].
    rewrite jit_state_of_new. reflexivity. }
  destruct (trace_g_static (PyInt x) n fuel (tick_api w0) Hfuel)
    as (wt & Ht & Hfr & _ & _ & _ & Hli).
  destruct (call_jit_first g_jit_correct [PyInt x; PyInt n] k code fuel w0 wt
              Hj Hid0 (Hk x) (cached_new _ _ _ _) Ht)
    as (Hrun & Hcached & Hcomp).
  fold w1 in Hcached, Hcomp.
  assert (Hexec1 : call_jit g_jit_correct [PyInt x; PyInt n] fuel w0
                   = (Ok (DeviceArray int32 [] [EInt (wrap32 (x + Z.max n 0))]),
                      tick_api (record_compile (jit_id g_jit_correct) k code wt))).
  { rewrite Hrun. unfold code.
    apply (execute_add (Z.max n 0) [1%nat] [PyInt x; PyInt n] (PyInt x) x);
      try assumption; try reflexivity.
    - cbn [frame record_compile set_jits]. rewrite Hfr. exact Hw.
    - left; reflexivity. }
  assert (Hw1 : frame w1 = None).
  { unfold w1. apply call_jit_keeps_eager. exact Hw0. }
  destruct (call_jit_again g_jit_correct [PyInt x'; PyInt n] k code fuel w1
              Hj (Hk x') Hcached)
    as (Hrun' & Hjits).
  assert (Hexec2 : call_jit g_jit_correct [PyInt x'; PyInt n] fuel w1
                   = (Ok (DeviceArray int32 [] [EInt (wrap32 (x' + Z.max n 0))]),
                      tick_api (tick_api w1))).
  { rewrite Hrun'. unfold code.
    apply (execute_add (Z.max n 0) [1%nat] [PyInt x'; PyInt n] (PyInt x') x');
      try assumption; try reflexivity.
    left; reflexivity. }
  split; [rewrite Hexec1; reflexivity | ].
  split; [exact Hcached | ].
  split.
  { unfold w1. rewrite Hexec1. cbn [snd loop_iterations tick_api record_compile set_jits].
    rewrite Hli. reflexivity. }
  split; [rewrite Hcomp, H0; reflexivity | ].
  split; [rewrite Hexec2; reflexivity | ].
  split; [unfold w2; rewrite Hexec2; reflexivity | ].
  unfold compiles, jit_state_of in *. fold w2 in Hjits.
  rewrite Hjits, Hcomp, H0. reflexivity.
Qed.

(** ** Side effects under [jax.jit] *)

Lemma preserves_log2 {X} (proj : World -> X) (x : value) :
  (forall w, proj (tick_api w) = proj w) ->
  (forall fr w, proj (set_frame fr w) = proj w) ->
  (forall l w, proj (set_global_list l w) = proj w) ->
  preserves proj (log2 x).
Proof.
  intros Ha Hf Hg. unfold log2.
  apply preserves_bind; [apply preserves_modify; intros w; apply Hg | intros _].
  apply log2_tail_preserves; assumption.
Qed.

(** The trace of [log2] and of [log2_with_print]: the same jaxpr, and the
    side effect of the one run. *)
Lemma trace_log2 (x : value) (fuel : nat) (w : World) :
  exists w',
    trace_to_jaxpr (fun1 log2) [] [x] fuel w = (Ok log2_jaxpr, w') /\
    frame w' = frame w /\
    global_list w' = global_list w ++ [Tracer (get_aval x) 0] /\
    stdout w' = stdout w.
Proof. destruct w. eexists. cbn. repeat split. Qed.

Lemma trace_log2_with_print (x : value) (fuel : nat) (w : World) :
  exists w',
    trace_to_jaxpr (fun1 log2_with_print) [] [x] fuel w = (Ok log2_jaxpr, w') /\
    frame w' = frame w /\
    global_list w' = global_list w /\
    stdout w' = stdout w ++ [[PStr "printed x:"; PVal (Tracer (get_aval x) 0)]].
Proof. destruct w. eexists. cbn. repeat split. Qed.

(** Running the compiled [log2] on a Python float. *)
Lemma execute_log2 (v : F) (fuel : nat) (w : World) :
  frame w = None ->
  fst (execute log2_jaxpr [] [PyFloat v] fuel w)
  = Ok (DeviceArray float32 [] [log2_elt (EFloat v)]).
Proof.
  intros Hw. destruct w as [gl so fr js li ac]. cbn [frame] in Hw. subst fr.
  reflexivity.
Qed.

(** X9.  "You can expect the side-effects of a JAX-transformed function to run
    once (during the first call), and never again."  [log2] and
    [log2_with_print] are jitted and called twice on Python floats, [v] then
    [v'].  Both calls return the logarithm to base 2 of their argument, as a
    [float32] device scalar.  The append to [global_list], respectively the
    [print], happens during the first call only, and what is appended or
    printed is the tracer, not [v]. *)
Theorem jitted_side_effects_run_once (v v' : F) (fuel : nat) (w : World) :
  frame w = None ->
  (let log2_jit := mkJitted (fun1 log2) [] (List.length (jits w)) in
   let w0 := snd (jax_jit (fun1 log2) [] fuel w) in
   let w1 := snd (call_jit log2_jit [PyFloat v] fuel w0) in
   let w2 := snd (call_jit log2_jit [PyFloat v'] fuel w1) in
   fst (call_jit log2_jit [PyFloat v] fuel w0)
   = Ok (DeviceArray float32 [] [log2_elt (EFloat v)]) /\
   global_list w1 = global_list w ++ [Tracer (mkShaped float32 [] true) 0] /\
   fst (call_jit log2_jit [PyFloat v'] fuel w1)
   = Ok (DeviceArray float32 [] [log2_elt (EFloat v')]) /\
   global_list w2 = global_list w1) /\
  (let print_jit := mkJitted (fun1 log2_with_print) [] (List.length (jits w)) in
   let w0 := snd (jax_jit (fun1 log2_with_print) [] fuel w) in
   let w1 := snd (call_jit print_jit [PyFloat v] fuel w0) in
   let w2 := snd (call_jit print_jit [PyFloat v'] fuel w1) in
   fst (call_jit print_jit [PyFloat v] fuel w0)
   = Ok (DeviceArray float32 [] [log2_elt (EFloat v)]) /\
   stdout w1
   = stdout w ++ [[PStr "printed x:"; PVal (Tracer (mkShaped float32 [] true) 0)]] /\
   fst (call_jit print_jit [PyFloat v'] fuel w1)
   = Ok (DeviceArray float32 [] [log2_elt (EFloat v')]) /\
   stdout w2 = stdout w1).
Proof.
  intros Hw.
  set (k := [KAval (mkShaped float32 [] true)]).
  assert (Hgen : forall (fn : value -> Py value) (wt : World),
             (forall a, preserves jits (fun1 fn a)) ->
             let j := mkJitted (fun1 fn) [] (List.length (jits w)) in
             let w0 := snd (jax_jit (fun1 fn) [] fuel w) in
             let w1 := snd (call_jit j [PyFloat v] fuel w0) in
             let w2 := snd (call_jit j [PyFloat v'] fuel w1) in
             trace_to_jaxpr (fun1 fn) [] [PyFloat v] fuel (tick_api w0)
             = (Ok log2_jaxpr, wt) ->
             frame wt = frame (tick_api w0) ->
             fst (call_jit j [PyFloat v] fuel w0)
             = Ok (DeviceArray float32 [] [log2_elt (EFloat v)]) /\
             fst (call_jit j [PyFloat v'] fuel w1)
             = Ok (DeviceArray float32 [] [log2_elt (EFloat v')]) /\
             (forall X (proj : World -> X),
                (forall u, proj (tick_api u) = proj u) ->
                (forall fr u, proj (set_frame fr u) = proj u) ->
                (forall js u, proj (set_jits js u) = proj u) ->
                proj w1 = proj wt /\ proj w2 = proj w1)).
  { intros fn wt Hj j w0 w1 w2 Ht Hfr.
    assert (Hk : forall u, signature (static_argnums j) 0 [PyFloat u] = Ok k)
      by reflexivity.
    assert (Hid0 : (jit_id j < List.length (jits w0))%nat).
    { unfold w0. cbn. rewrite length_app. cbn. lia. }
    destruct (call_jit_first j [PyFloat v] k log2_jaxpr fuel w0 wt
                Hj Hid0 (Hk v) (cached_new _ _ _ _) Ht)
      as (Hrun & Hcached & _).
    fold w1 in Hcached.
    destruct (call_jit_again j [PyFloat v'] k log2_jaxpr fuel w1 Hj (Hk v') Hcached)
      as (Hrun' & _).
    assert (Hw1 : frame w1 = None).
    { unfold w1. apply call_jit_keeps_eager. exact Hw. }
    split; [rewrite Hrun; apply execute_log2; cbn; rewrite Hfr; exact Hw | ].
    split; [rewrite Hrun'; apply execute_log2; exact Hw1 | ].
    intros X proj Ha Hf Hjs. split.
    - unfold w1. rewrite Hrun.
      rewrite (preserves_execute proj log2_jaxpr [] [PyFloat v] Ha Hf).
      apply Hjs.
    - unfold w2. rewrite Hrun'.
      rewrite (preserves_execute proj log2_jaxpr [] [PyFloat v'] Ha Hf).
      apply Ha. }
  split.
  - intros log2_jit w0 w1 w2.
    destruct (trace_log2 (PyFloat v) fuel (tick_api w0)) as (wt & Ht & Hfr & Hgl & _).
    destruct (Hgen log2 wt) as (H1 & H2 & Hproj); try assumption.
    { intros a. apply preserves_fun1. intros u.
      apply preserves_log2; intros; reflexivity. }
    destruct (Hproj _ global_list) as [Hg1 Hg2]; try (intros; reflexivity).
    fold log2_jit w0 w1 w2 in H1, H2, Hg1, Hg2.
    repeat split; try assumption.
    rewrite Hg1, Hgl. reflexivity.
  - intros print_jit w0 w1 w2.
    destruct (trace_log2_with_print (PyFloat v) fuel (tick_api w0))
      as (wt & Ht & Hfr & _ & Hso).
    destruct (Hgen log2_with_print wt) as (H1 & H2 & Hproj); try assumption.
    { intros a. apply preserves_fun1. intros u.
      apply preserves_log2_with_print; intros; reflexivity. }
    destruct (Hproj _ stdout) as [Hs1 Hs2]; try (intros; reflexivity).
    fold print_jit w0 w1 w2 in H1, H2, Hs1, Hs2.
    repeat split; try assumption.
    rewrite Hs1, Hso. reflexivity.
Qed.

(** ** Compilations in the loops with a jitted body *)

Lemma jit_state_of_last (w : World) (J : list jit_state) (st : jit_state) :
  jits w = J ++ [st] -> jit_state_of w (List.length J) = st.
Proof. intros H. unfold jit_state_of. rewrite H. apply nth_middle. Qed.

(** A call of the jitted loop body with a signature that is not in its
    cache. *)
Lemma call_loop_body_compiles (J : list jit_state) (st : jit_state)
    (v : value) (z : Z) (fuel : nat) (w : World) :
  frame w = None ->
  jits w = J ++ [st] ->
  represents v z ->
  in_int32 z = true ->
  lookup_cache [KAval (get_aval v)] (js_cache st) = None ->
  exists w',
    call_jit (mkJitted (fun1 loop_body_fn) [] (List.length J)) [v] fuel w
    = (Ok (DeviceArray int32 [] [EInt (wrap32 (z + 1))]), w') /\
    frame w' = None /\
    jits w'
    = J ++ [mkJitState (([KAval (get_aval v)], loop_body_jaxpr) :: js_cache st)
                       (S (js_compiles st))] /\
    loop_iterations w' = loop_iterations w.
Proof.
  intros Hw HJ Hv Hz Hc.
  set (j := mkJitted (fun1 loop_body_fn) [] (List.length J)).
  assert (Hj : forall a, preserves jits (jit_fun j a)).
  { intros a. apply preserves_fun1. intros u.
    apply preserves_loop_body_fn; intros; reflexivity. }
  assert (Hid : (jit_id j < List.length (jits w))%nat).
  { rewrite HJ, length_app. cbn. lia. }
  assert (Hk : signature (static_argnums j) 0 [v] = Ok [KAval (get_aval v)])
    by reflexivity.
  assert (Hcached : cached w j [KAval (get_aval v)] = None).
  { unfold cached. cbn [jit_id j]. rewrite (jit_state_of_last w J st HJ). exact Hc. }
  destruct (call_jit_first j [v] _ loop_body_jaxpr fuel w (tick_api (tick_api w))
              Hj Hid Hk Hcached (trace_loop_body v z fuel (tick_api w) Hv))
    as (Hrun & _).
  rewrite Hrun. cbn [static_argnums j jit_id].
  match goal with
  | |- context [execute _ _ _ _ ?w0] =>
      rewrite (execute_loop_body v z fuel w0 Hw Hv Hz)
  end.
  eexists. split; [reflexivity | ].
  split; [exact Hw | ]. split; [ | reflexivity].
  cbn [jits tick_api record_compile set_jits]. rewrite HJ.
  apply (update_nth_last
           (fun st0 => mkJitState (([KAval (get_aval v)], loop_body_jaxpr) :: js_cache st0)
                                  (S (js_compiles st0)))
           J st).
Qed.

(** A call of the jitted loop body with a signature that is in its cache. *)
Lemma call_loop_body_cached (J : list jit_state) (st : jit_state)
    (v : value) (z : Z) (fuel : nat) (w : World) :
  frame w = None ->
  jits w = J ++ [st] ->
  represents v z ->
  in_int32 z = true ->
  lookup_cache [KAval (get_aval v)] (js_cache st) = Some loop_body_jaxpr ->
  exists w',
    call_jit (mkJitted (fun1 loop_body_fn) [] (List.length J)) [v] fuel w
    = (Ok (DeviceArray int32 [] [EInt (wrap32 (z + 1))]), w') /\
    frame w' = None /\
    jits w' = jits w /\
    loop_iterations w' = loop_iterations w.
Proof.
  intros Hw HJ Hv Hz Hc.
  set (j := mkJitted (fun1 loop_body_fn) [] (List.length J)).
  assert (Hk : signature (static_argnums j) 0 [v] = Ok [KAval (get_aval v)])
    by reflexivity.
  assert (Hcached : cached w j [KAval (get_aval v)] = Some loop_body_jaxpr).
  { unfold cached. cbn [jit_id j]. rewrite (jit_state_of_last w J st HJ). exact Hc. }
  rewrite (call_jit_hit j [v] _ loop_body_jaxpr fuel w Hk Hcached).
  cbn [static_argnums j].
  rewrite (execute_loop_body v z fuel (tick_api w) Hw Hv Hz).
  eexists. split; [reflexivity | ]. repeat split. exact Hw.
Qed.

Lemma represents_loop_var (k : nat) : represents (loop_var k) (Z.of_nat k).
Proof. destruct k; [left | right]; reflexivity. Qed.

(** The loop test [i < n] in iteration [k]. *)
Lemma counted_test (k : nat) (n : Z) (fuel : nat) (w : World) :
  frame w = None ->
  n <= 2147483647 ->
  (k = 0%nat \/ 0 <= n) ->
  exists w',
    (c <- py_lt (loop_var k) (PyInt n) ;; truth c) fuel w = (Ok (Z.of_nat k <? n), w') /\
    (w' = w \/ w' = tick_api w).
Proof.
  intros Hw Hn Hk. destruct k as [ | k].
  - exists w. split; [reflexivity | left; reflexivity].
  - destruct Hk as [Hk | Hk]; [discriminate | ].
    exists (tick_api w). split; [ | right; reflexivity].
    unfold py_lt, binop, loop_var. cbn [py_scalar].
    erewrite bind_run.
    2:{ rewrite bind_prim_eager by exact Hw.
        unfold impl. cbn [as_arrays as_array].
        rewrite (in_int32_bounds n) by lia. reflexivity. }
    reflexivity.
Qed.

Section CountedLoop.

Variable body : value -> Py value.
Variable Inv : nat -> World -> Prop.
Hypothesis Inv_eager : forall k w, Inv k w -> frame w = None.
Hypothesis Inv_tick_api : forall k w, Inv k w -> Inv k (tick_api w).
Hypothesis body_step :
  forall k fuel w,
    Inv k w -> Z.of_nat k < 2147483647 ->
    exists w',
      body (loop_var k) fuel (tick_loop w) = (Ok (loop_var (S k)), w') /\
      Inv (S k) w'.

Lemma counted_loop (n : Z) (fuel : nat) :
  n <= 2147483647 ->
  forall (d fk k : nat) (w : World),
    Inv k w ->
    Z.of_nat d = Z.max (n - Z.of_nat k) 0 ->
    (k = 0%nat \/ 0 <= n) ->
    (d < fk)%nat ->
    exists w',
      while_loop (fun i => c <- py_lt i (PyInt n) ;; truth c) body fk (loop_var k) fuel w
      = (Ok (loop_var (k + d)), w') /\
      Inv (k + d) w'.
Proof.
  intros Hn.
  induction d as [ | d IH]; intros fk k w Hw Hd Hk Hfk;
    (destruct fk as [ | fk]; [lia | ]); cbn [while_loop];
    destruct (counted_test k n fuel w (Inv_eager k w Hw) Hn Hk) as (w1 & Ht & Hw1);
    assert (Hi1 : Inv k w1) by (destruct Hw1 as [-> | ->]; auto);
    rewrite (bind_run _ _ _ _ _ _ Ht).
  - replace (Z.of_nat k <? n) with false by (symmetry; apply Z.ltb_ge; lia).
    rewrite Nat.add_0_r. exists w1. split; [reflexivity | exact Hi1].
  - replace (Z.of_nat k <? n) with true by (symmetry; apply Z.ltb_lt; lia).
    erewrite bind_run by reflexivity.
    destruct (body_step k fuel w1 Hi1 ltac:(lia)) as (w2 & Hb & Hi2).
    rewrite (bind_run _ _ _ _ _ _ Hb).
    destruct (IH fk (S k) w2 Hi2 ltac:(lia) ltac:(right; lia) ltac:(lia))
      as (w3 & Hl & Hi3).
    replace (k + S d)%nat with (S k + d)%nat by lia.
    exists w3. split; [exact Hl | exact Hi3].
Qed.

(** The function around the loop, on any [x]: what is left to do when the
    loop is over. *)
Lemma counted_g (x : value) (n : Z) (fuel : nat) (w : World) :
  Inv 0 w ->
  (Z.to_nat (Z.max n 0) < fuel)%nat ->
  n <= 2147483647 ->
  exists w',
    Inv (Z.to_nat (Z.max n 0)) w' /\
    (i <- while_ (fun i => c <- py_lt i (PyInt n) ;; truth c) body (PyInt 0) ;;
     py_add x i) fuel w
    = py_add x (loop_var (Z.to_nat (Z.max n 0))) fuel w'.
Proof.
  intros Hw Hfuel Hn.
  destruct (counted_loop n fuel Hn (Z.to_nat (Z.max n 0)) fuel 0%nat w Hw
              ltac:(cbn; lia) ltac:(left; reflexivity) Hfuel)
    as (w' & Hl & Hi).
  change (while_loop (fun i => c <- py_lt i (PyInt n) ;; truth c) body fuel
            (loop_var 0) fuel w)
    with (while_ (fun i => c <- py_lt i (PyInt n) ;; truth c) body (PyInt 0) fuel w)
    in Hl.
  exists w'. split; [exact Hi | ].
  rewrite (bind_run _ _ _ _ _ _ Hl). reflexivity.
Qed.

End CountedLoop.

(** X10.  [g_inner_jitted] keeps one jitted [loop_body] for all its iterations.
    Run outside any trace, with a fresh [loop_body] and [n] no larger than
    the greatest 32-bit integer, it executes the loop body [max(n, 0)] times,
    but the number of compilations does not grow with [n]: [loop_body] is
    compiled in the first iteration, for the Python int [0], and at most
    once more, for the device scalars of the later iterations; never a third
    time.  No other jitted function is made or touched. *)
Theorem g_inner_jitted_compiles_at_most_twice
    (x : value) (n : Z) (fuel : nat) (w : World) :
  frame w = None ->
  (Z.to_nat (Z.max n 0) < fuel)%nat ->
  n <= 2147483647 ->
  let jitted_body := mkJitted (fun1 loop_body_fn) [] (List.length (jits w)) in
  let w' := snd ((lb <- loop_body ;; g_inner_jitted lb x (PyInt n)) fuel w) in
  (compiles w' jitted_body <= 2)%nat /\
  (0 < n -> (1 <= compiles w' jitted_body)%nat) /\
  (n <= 0 -> compiles w' jitted_body = 0%nat) /\
  List.length (jits w') = S (List.length (jits w)) /\
  firstn (List.length (jits w)) (jits w') = jits w /\
  loop_iterations w' = (loop_iterations w + Z.to_nat (Z.max n 0))%nat.
Proof.
  intros Hw Hfuel Hn jitted_body w'.
  assert (H : jits w' = jits w ++ [loop_body_state (Z.to_nat (Z.max n 0))] /\
              loop_iterations w' = (loop_iterations w + Z.to_nat (Z.max n 0))%nat).
  { unfold w', loop_body.
    rewrite (bind_run _ _ _ _ _ _ (jax_jit_run _ _ _ _)).
    unfold g_inner_jitted.
    set (w0 := tick_api (set_jits (jits w ++ [fresh_jit_state]) w)).
    set (Inv := fun (k : nat) (u : World) =>
                  frame u = None /\
                  jits u = jits w ++ [loop_body_state k] /\
                  loop_iterations u = (loop_iterations w + k)%nat).
    destruct (counted_g
                (fun i => call_jit (mkJitted (fun1 loop_body_fn) [] (List.length (jits w))) [i])
                Inv) with (x := x) (n := n) (fuel := fuel) (w := w0)
      as (w1 & (_ & HJ & HL) & Hrun); try assumption.
    - intros k u (H & _); exact H.
    - intros k u (H1 & H2 & H3). repeat split; assumption.
    - intros k fuel' u (H1 & H2 & H3) Hk.
      assert (Hz : in_int32 (Z.of_nat k) = true) by (apply in_int32_bounds; lia).
      assert (Hnext : DeviceArray int32 [] [EInt (wrap32 (Z.of_nat k + 1))]
                      = loop_var (S k)).
      { rewrite wrap32_in_range by (apply in_int32_bounds; lia).
        unfold loop_var. do 3 f_equal. lia. }
      destruct k as [ | [ | k]].
      + destruct (call_loop_body_compiles (jits w) (loop_body_state 0) (loop_var 0)
                    (Z.of_nat 0) fuel' (tick_loop u) H1 H2
                    (represents_loop_var 0) Hz eq_refl)
          as (u' & Hc & Hf & Hj & Hl).
        exists u'. rewrite <- Hnext. split; [exact Hc | ].
        repeat split; [exact Hf | exact Hj | ].
        rewrite Hl. cbn [loop_iterations tick_loop]. rewrite H3. lia.
      + destruct (call_loop_body_compiles (jits w) (loop_body_state 1) (loop_var 1)
                    (Z.of_nat 1) fuel' (tick_loop u) H1 H2
                    (represents_loop_var 1) Hz)
          as (u' & Hc & Hf & Hj & Hl).
        { cbn [loop_body_state js_cache lookup_cache].
          destruct (key_eq_dec _ _) as [E | _]; [discriminate E | reflexivity]. }
        exists u'. rewrite <- Hnext. split; [exact Hc | ].
        repeat split; [exact Hf | exact Hj | ].
        rewrite Hl. cbn [loop_iterations tick_loop]. rewrite H3. lia.
      + destruct (call_loop_body_cached (jits w) (loop_body_state (S (S k)))
                    (loop_var (S (S k))) (Z.of_nat (S (S k))) fuel' (tick_loop u) H1 H2
                    (represents_loop_var (S (S k))) Hz)
          as (u' & Hc & Hf & Hj & Hl).
        { cbn [loop_body_state js_cache]. apply lookup_cache_head. }
        exists u'. rewrite <- Hnext. split; [exact Hc | ].
        repeat split; [exact Hf | rewrite Hj; exact H2 | ].
        rewrite Hl. cbn [loop_iterations tick_loop]. rewrite H3. lia.
    - split; [exact Hw | ]. split; [reflexivity | ].
      cbn [loop_iterations w0 tick_api set_jits]. lia.
    - rewrite Hrun.
      rewrite (preserves_binop jits Add x) by (intros; reflexivity).
      rewrite (preserves_binop loop_iterations Add x) by (intros; reflexivity).
      rewrite HJ, HL. split; reflexivity. }
  destruct H as [HJ HL].
  assert (Hst : compiles w' jitted_body
                = js_compiles (loop_body_state (Z.to_nat (Z.max n 0)))).
  { unfold compiles. cbn [jit_id jitted_body].
    rewrite (jit_state_of_last w' (jits w) _ HJ). reflexivity. }
  rewrite Hst, HJ.
  split.
  { destruct (Z.to_nat (Z.max n 0)) as [ | [ | k]];
      cbn [loop_body_state js_compiles fresh_jit_state]; lia. }
  split.
  { intros Hpos. destruct (Z.to_nat (Z.max n 0)) as [ | [ | k]] eqn:E;
      cbn [loop_body_state js_compiles fresh_jit_state]; lia. }
  split.
  { intros Hneg. replace (Z.to_nat (Z.max n 0)) with 0%nat by lia. reflexivity. }
  split; [rewrite length_app; cbn; lia | ].
  split; [ | exact HL].
  rewrite firstn_app, Nat.sub_diag, firstn_all. cbn [firstn]. apply app_nil_r.
Qed.

(** ** [f], called directly on an array *)

(** X12.  Called directly on an array, [f] asks the framework for [x > 0] and
    branches on the answer.  An array of more than one element has no truth
    value: the call raises [ValueError].  On an array of one element the
    branch is taken by that element: [x] itself comes back when it is
    positive, the array [2 * x] otherwise. *)
Theorem f_on_arrays (dt : dtype) (sh : list N) (buf : list elt)
    (fuel : nat) (w : World) :
  frame w = None ->
  List.length buf = size sh ->
  ((1 < List.length buf)%nat ->
   fst (f (DeviceArray dt sh buf) fuel w) = Raise ValueError) /\
  (forall e,
     buf = [e] ->
     fst (f (DeviceArray dt sh buf) fuel w)
     = Ok (if elt_positive dt e then DeviceArray dt sh buf
           else DeviceArray (promote int32 dt) sh [elt_double dt e])).
Proof.
  intros Hw Hlen.
  set (x := DeviceArray dt sh buf).
  set (pos := fun e => EBool (elt_positive dt e)).
  assert (Hx : x = DeviceArray dt sh (map (fun e => e) buf)).
  { unfold x. rewrite map_id. reflexivity. }
  assert (H1 : impl Gt [x; PyInt 0] = Ok (DeviceArray bool_ sh (map pos buf))).
  { rewrite Hx.
    apply (impl_array_scalar Gt dt int32 bool_ sh (fun e => e) pos buf
             (PyInt 0) (EInt 0) Hlen eq_refl eq_refl).
    intros e. destruct dt; reflexivity. }
  assert (Hrun : f x fuel w
                 = (b <- truth (DeviceArray bool_ sh (map pos buf)) ;;
                    if b then ret x else py_mul (PyInt 2) x) fuel (tick_api w)).
  { unfold f, py_gt, binop. cbn [py_scalar x]. fold x.
    rewrite bind_eager by exact Hw. rewrite H1. reflexivity. }
  rewrite Hrun. split.
  - intros Hmany. destruct buf as [ | e1 [ | e2 buf]]; cbn in Hmany; try lia.
    reflexivity.
  - intros e ->. cbn [map truth].
    erewrite bind_run by reflexivity.
    cbn [pos elt_truth].
    destruct (elt_positive dt e) eqn:Epos; [reflexivity | ].
    unfold py_mul, binop. cbn [py_scalar x].
    rewrite bind_prim_eager by exact Hw.
    rewrite Hx.
    rewrite (impl_scalar_array Mul dt int32 (promote int32 dt) sh (fun e => e)
               (elt_double dt) [e] (PyInt 2) (EInt 2) Hlen eq_refl eq_refl).
    + reflexivity.
    + intros e0. destruct dt; reflexivity.
Qed.

(** ** The notebook, top to bottom *)

Lemma holds_same_jits (w w' : World) (id : nat) (code : jaxpr) :
  jits w' = jits w -> holds w id code -> holds w' id code.
Proof.
  unfold holds, caches_only, jit_state_of. intros ->. exact (fun H => H).
Qed.

Lemma holds_jax_jit (w : World) (id : nat) (code : jaxpr) :
  holds w id code ->
  holds (tick_api (set_jits (jits w ++ [fresh_jit_state]) w)) id code.
Proof.
  unfold holds, caches_only, jit_state_of. cbn [jits tick_api set_jits].
  intros [Hid Hc]. split; [rewrite length_app; lia | ].
  rewrite app_nth1 by exact Hid. exact Hc.
Qed.

Lemma holds_new (w : World) (code : jaxpr) :
  holds (tick_api (set_jits (jits w ++ [fresh_jit_state]) w))
        (List.length (jits w)) code.
Proof.
  split; [cbn; rewrite length_app; cbn; lia | ].
  intros k c. rewrite jit_state_of_new. discriminate.
Qed.

(** A call keeps what is known of the cache of another jitted function,
    and of its own when whatever it compiles is [code]. *)
Lemma holds_call (j : jitted) (args : list value) (id : nat) (code : jaxpr)
    (fuel : nat) (w : World) :
  (forall a, preserves jits (jit_fun j a)) ->
  (jit_id j <> id \/
   forall jp,
     fst (trace_to_jaxpr (jit_fun j) (static_argnums j) args fuel (tick_api w)) = Ok jp ->
     jp = code) ->
  holds w id code ->
  holds (snd (call_jit j args fuel w)) id code.
Proof.
  intros Hj Hor [Hid Hc].
  pose proof (jits_after_call j args fuel w Hj) as Hjits.
  destruct (signature (static_argnums j) 0 args) as [k | e | ];
    try (apply (holds_same_jits w _ id code Hjits); split; assumption).
  destruct (cached w j k) as [c0 | ];
    try (apply (holds_same_jits w _ id code Hjits); split; assumption).
  destruct (fst (trace_to_jaxpr (jit_fun j) (static_argnums j) args fuel (tick_api w)))
    as [jp | e | ] eqn:Et;
    try (apply (holds_same_jits w _ id code Hjits); split; assumption).
  unfold holds, caches_only, jit_state_of. rewrite Hjits.
  cbn [jits record_compile set_jits].
  split; [rewrite update_nth_length; exact Hid | ].
  intros k' c. rewrite nth_update_nth.
  destruct (Nat.eqb id (jit_id j) && Nat.ltb (jit_id j) (List.length (jits w))) eqn:E.
  - apply andb_true_iff in E. destruct E as [E _]. apply Nat.eqb_eq in E.
    destruct Hor as [Hne | Hcode]; [congruence | ].
    cbn [js_cache lookup_cache].
    destruct (key_eq_dec k' k).
    + intros H; injection H as <-. apply Hcode. reflexivity.
    + apply Hc.
  - apply Hc.
Qed.

(** A call of a jitted function whose trace gives [code] and whose code
    returns [v]. *)
Lemma call_jit_run (j : jitted) (args : list value) (k : key) (code : jaxpr)
    (v : value) (fuel : nat) (w : World) :
  (forall a, preserves jits (jit_fun j a)) ->
  signature (static_argnums j) 0 args = Ok k ->
  (forall w0, exists wt,
     trace_to_jaxpr (jit_fun j) (static_argnums j) args fuel w0 = (Ok code, wt)) ->
  (forall w0, frame w0 = None ->
              fst (execute code (static_argnums j) args fuel w0) = Ok v) ->
  frame w = None ->
  holds w (jit_id j) code ->
  exists w',
    call_jit j args fuel w = (Ok v, w') /\
    frame w' = None /\
    holds w' (jit_id j) code /\
    (forall id c, id <> jit_id j -> holds w id c -> holds w' id c).
Proof.
  intros Hj Hk Htrace Hexec Hw Hh.
  assert (Hfst : fst (call_jit j args fuel w) = Ok v).
  { destruct (cached w j k) as [c | ] eqn:Hc.
    - assert (c = code) by (apply (proj2 Hh k c Hc)). subst c.
      rewrite (call_jit_hit j args k code fuel w Hk Hc). apply Hexec. exact Hw.
    - destruct (Htrace (tick_api w)) as [wt Ht].
      rewrite (call_jit_miss j args k fuel w Hk Hc).
      rewrite (bind_run _ _ _ _ _ _ Ht). erewrite bind_run by reflexivity.
      apply Hexec. cbn [frame record_compile set_jits].
      pose proof (frame_after_trace (jit_fun j) (static_argnums j) args fuel (tick_api w))
        as Hfr.
      rewrite Ht in Hfr. cbn [snd] in Hfr. rewrite Hfr. exact Hw. }
  exists (snd (call_jit j args fuel w)).
  split; [rewrite <- Hfst; apply surjective_pairing | ].
  split; [apply call_jit_keeps_eager; exact Hw | ].
  split.
  - apply holds_call; [exact Hj | | exact Hh].
    right. intros jp Hjp. destruct (Htrace (tick_api w)) as [wt Ht].
    rewrite Ht in Hjp. injection Hjp as <-. reflexivity.
  - intros id c Hne Hid. apply holds_call; [exact Hj | left; congruence | exact Hid].
Qed.

(** [%timeit] of a statement that succeeds and keeps [I] whenever [I]
    holds. *)
Lemma timeit_ok {A} (I : World -> Prop) (stmt : Py A) (fuel : nat) :
  (forall w, I w -> exists a w', stmt fuel w = (Ok a, w') /\ I w') ->
  forall runs w, I w -> exists w', timeit runs stmt fuel w = (Ok tt, w') /\ I w'.
Proof.
  intros Hstmt. induction runs as [ | r IH]; intros w Hw; cbn [timeit].
  - exists w. split; [reflexivity | exact Hw].
  - destruct (Hstmt w Hw) as (a & w1 & Hs & H1).
    rewrite (bind_run _ _ _ _ _ _ Hs). apply IH. exact H1.
Qed.

Lemma cell_1_run (fuel : nat) (w : World) :
  exists w',
    cell_1 fuel w = (Ok tt, w') /\
    frame w' = frame w /\
    stdout w' = stdout w ++ [[PJaxpr log2_jaxpr]].
Proof. destruct w. eexists. cbn. repeat split. Qed.

Lemma cell_2_run (fuel : nat) (w : World) :
  exists w',
    cell_2 fuel w = (Ok tt, w') /\
    frame w' = frame w /\
    stdout w'
    = (stdout w ++ [[PStr "printed x:"; PVal (Tracer (mkShaped float32 [] true) 0)]])
        ++ [[PJaxpr log2_jaxpr]].
Proof. destruct w. eexists. cbn. repeat split. Qed.

Lemma cell_3_run (fuel : nat) (w : World) :
  exists w',
    cell_3 fuel w = (Ok tt, w') /\
    frame w' = frame w /\
    stdout w' = stdout w ++ [[PJaxpr identity_jaxpr]].
Proof. destruct w. eexists. cbn. repeat split. Qed.

Lemma jnp_arange_run (n : Z) (fuel : nat) (w : World) :
  jnp_arange n fuel w
  = (Ok (DeviceArray int32 [Z.to_N n]
           (map (fun k => EInt (Z.of_nat k)) (seq 0 (Z.to_nat n)))),
     tick_api w).
Proof. reflexivity. Qed.

Lemma arange_well_formed (n : Z) :
  List.length (map (fun k => EInt (Z.of_nat k)) (seq 0 (Z.to_nat n))) = size [Z.to_N n].
Proof.
  rewrite length_map, length_seq. unfold size. cbn [fold_right].
  rewrite N.mul_1_r. symmetry. apply Z_N_nat.
Qed.

Lemma cell_4_run (runs : nat) (fuel : nat) (w : World) :
  frame w = None ->
  exists buf w',
    cell_4 runs fuel w = (Ok (DeviceArray int32 [Z.to_N 1000000] buf), w') /\
    List.length buf = size [Z.to_N 1000000] /\
    frame w' = None.
Proof.
  intros Hw. unfold cell_4.
  rewrite (bind_run _ _ _ _ _ _ (jnp_arange_run 1000000 fuel w)).
  pose proof (arange_well_formed 1000000) as Hlen.
  set (buf := map (fun k => EInt (Z.of_nat k)) (seq 0 (Z.to_nat 1000000))) in *.
  set (sh := [Z.to_N 1000000]) in *.
  destruct (timeit_ok (fun u => frame u = None)
              (r <- selu_fn [DeviceArray int32 sh buf] ;; block_until_ready r) fuel)
    with (runs := runs) (w := tick_api w) as (w' & Ht & Hw'); [ | exact Hw | ].
  - intros u Hu. cbn [selu_fn].
    rewrite (bind_run _ _ _ _ _ _ (selu_run int32 sh buf _ _ fuel u Hu Hlen)).
    eexists. eexists. split; [reflexivity | exact Hu].
  - rewrite (bind_run _ _ _ _ _ _ Ht).
    exists buf, w'. split; [reflexivity | ]. split; [exact Hlen | exact Hw'].
Qed.

Lemma cell_5_run (dt : dtype) (sh : list N) (buf : list elt) (runs : nat)
    (fuel : nat) (w : World) :
  frame w = None ->
  List.length buf = size sh ->
  exists selu_jit w',
    cell_5 runs (DeviceArray dt sh buf) fuel w = (Ok selu_jit, w') /\
    frame w' = None.
Proof.
  intros Hw Hlen. unfold cell_5.
  rewrite (bind_run _ _ _ _ _ _ (jax_jit_run _ _ _ _)).
  set (j := mkJitted selu_fn [] (List.length (jits w))).
  set (w0 := tick_api (set_jits (jits w ++ [fresh_jit_state]) w)).
  set (x := DeviceArray dt sh buf).
  set (code := selu_jaxpr (PyFloat (flit "1.67")) (PyFloat (flit "1.05"))).
  set (v := DeviceArray float32 sh
              (map (selu_elt dt (flit "1.67") (flit "1.05")) buf)).
  assert (Hcall : forall u, frame u = None -> holds u (jit_id j) code ->
                    exists u',
                      (r <- call_jit j [x] ;; block_until_ready r) fuel u = (Ok v, u') /\
                      frame u' = None /\ holds u' (jit_id j) code).
  { intros u Hu Hh.
    destruct (call_jit_run j [x] [KAval (get_aval x)] code v fuel u)
      as (u' & Hc & Hu' & Hh' & _); try assumption; try reflexivity.
    - intros a. apply preserves_selu_fn; intros; reflexivity.
    - intros u0. destruct (trace_selu x fuel u0) as (wt & Ht & _).
      exists wt. exact Ht.
    - intros u0 Hu0. unfold code, x. cbn [static_argnums j].
      rewrite execute_selu by exact Hu0.
      rewrite (selu_run dt sh buf _ _ fuel u0 Hu0 Hlen). reflexivity.
    - exists u'. rewrite (bind_run _ _ _ _ _ _ Hc).
      split; [reflexivity | split; assumption]. }
  destruct (Hcall w0 Hw (holds_new w code)) as (w1 & H1 & Hw1 & Hh1).
  rewrite (bind_run _ _ _ _ _ _ H1).
  destruct (timeit_ok (fun u => frame u = None /\ holds u (jit_id j) code)
              (r <- call_jit j [x] ;; block_until_ready r) fuel)
    with (runs := runs) (w := w1) as (w2 & Ht & Hw2 & _).
  - intros u [Hu Hh]. destruct (Hcall u Hu Hh) as (u' & Hc & Hu' & Hh').
    exists v, u'. split; [exact Hc | split; assumption].
  - split; assumption.
  - rewrite (bind_run _ _ _ _ _ _ Ht).
    exists j, w2. split; [reflexivity | exact Hw2].
Qed.

Lemma cell_6_run (fuel : nat) (w : World) :
  exists w', raises_exception cell_6 fuel w = (Ok tt, w') /\ frame w' = frame w.
Proof.
  assert (H : cell_6 fuel w
              = (Raise ConcretizationTypeError,
                 tick_api (tick_api (tick_api
                   (set_jits (jits w ++ [fresh_jit_state]) w))))).
  { unfold cell_6. rewrite (bind_run _ _ _ _ _ _ (jax_jit_run _ _ _ _)).
    rewrite (call_jit_miss (mkJitted (fun1 f) [] (List.length (jits w))) [PyInt 10] _
               fuel _ (signature_no_static [PyInt 10] 0) (cached_new _ _ _ w)).
    apply bind_run_raise. destruct w; reflexivity. }
  unfold raises_exception. rewrite H. eexists. split; reflexivity.
Qed.

Lemma cell_7_run (fuel : nat) (w : World) :
  (0 < fuel)%nat ->
  exists w', raises_exception cell_7 fuel w = (Ok tt, w') /\ frame w' = frame w.
Proof.
  intros Hfuel.
  assert (H : cell_7 fuel w
              = (Raise ConcretizationTypeError,
                 tick_api (tick_api (tick_api
                   (set_jits (jits w ++ [fresh_jit_state]) w))))).
  { unfold cell_7. rewrite (bind_run _ _ _ _ _ _ (jax_jit_run _ _ _ _)).
    rewrite (call_jit_miss (mkJitted (fun2 g) [] (List.length (jits w)))
               [PyInt 10; PyInt 20] _
               fuel _ (signature_no_static [PyInt 10; PyInt 20] 0) (cached_new _ _ _ w)).
    apply bind_run_raise.
    destruct fuel as [ | fuel']; [lia | ]. destruct w; reflexivity. }
  unfold raises_exception. rewrite H. eexists. split; reflexivity.
Qed.

Lemma loop_var_next (k : nat) :
  Z.of_nat k < 2147483647 ->
  DeviceArray int32 [] [EInt (wrap32 (Z.of_nat k + 1))] = loop_var (S k).
Proof.
  intros Hk. rewrite wrap32_in_range by (apply in_int32_bounds; lia).
  unfold loop_var. do 3 f_equal. lia.
Qed.

(** One call of a jitted loop body in iteration [k]. *)
Lemma loop_body_call (id k : nat) (fuel : nat) (w : World) :
  Z.of_nat k < 2147483647 ->
  frame w = None ->
  holds w id loop_body_jaxpr ->
  exists w',
    call_jit (mkJitted (fun1 loop_body_fn) [] id) [loop_var k] fuel w
    = (Ok (loop_var (S k)), w') /\
    frame w' = None /\
    holds w' id loop_body_jaxpr /\
    (forall id' c, id' <> id -> holds w id' c -> holds w' id' c).
Proof.
  intros Hk Hw Hh.
  assert (Hz : in_int32 (Z.of_nat k) = true) by (apply in_int32_bounds; lia).
  apply (call_jit_run (mkJitted (fun1 loop_body_fn) [] id) [loop_var k]
           [KAval (get_aval (loop_var k))] loop_body_jaxpr (loop_var (S k)) fuel w);
    try assumption; try reflexivity.
  - intros a. apply preserves_fun1. intros u.
    apply preserves_loop_body_fn; intros; reflexivity.
  - intros w0. exists (tick_api w0).
    apply (trace_loop_body (loop_var k) (Z.of_nat k) fuel w0 (represents_loop_var k)).
  - intros w0 Hw0. cbn [static_argnums].
    rewrite (execute_loop_body (loop_var k) (Z.of_nat k) fuel w0 Hw0
               (represents_loop_var k) Hz).
    cbn [fst]. rewrite (loop_var_next k Hk). reflexivity.
Qed.

(** [x + i] when the loop is over, for [i] a device scalar. *)
Lemma add_loop_var (x : Z) (k : nat) (fuel : nat) (w : World) :
  frame w = None ->
  in_int32 x = true ->
  py_add (PyInt x) (loop_var (S k)) fuel w
  = (Ok (DeviceArray int32 [] [EInt (wrap32 (x + Z.of_nat (S k)))]), tick_api w).
Proof.
  intros Hw Hx. unfold py_add, binop, loop_var. cbn [py_scalar].
  rewrite bind_prim_eager by exact Hw.
  unfold impl. cbn [as_arrays as_array]. rewrite Hx. reflexivity.
Qed.

Lemma g_inner_jitted_run (id : nat) (x n : Z) (fuel : nat) (w : World) :
  frame w = None ->
  holds w id loop_body_jaxpr ->
  (Z.to_nat n < fuel)%nat ->
  0 < n <= 2147483647 ->
  in_int32 x = true ->
  exists w',
    g_inner_jitted (mkJitted (fun1 loop_body_fn) [] id) (PyInt x) (PyInt n) fuel w
    = (Ok (DeviceArray int32 [] [EInt (wrap32 (x + n))]), w') /\
    frame w' = None /\
    holds w' id loop_body_jaxpr /\
    (forall id' c, id' <> id -> holds w id' c -> holds w' id' c).
Proof.
  intros Hw Hh Hfuel Hn Hx. unfold g_inner_jitted.
  set (Inv := fun (k : nat) (u : World) =>
                frame u = None /\
                holds u id loop_body_jaxpr /\
                (forall id' c, id' <> id -> holds w id' c -> holds u id' c)).
  destruct (counted_g
              (fun i => call_jit (mkJitted (fun1 loop_body_fn) [] id) [i]) Inv)
    with (x := PyInt x) (n := n) (fuel := fuel) (w := w)
    as (w1 & (H1 & H2 & H3) & Hrun); try lia.
  - intros k u (H & _); exact H.
  - intros k u (H1 & H2 & H3). split; [exact H1 | ].
    split; [apply (holds_same_jits u); [reflexivity | exact H2] | ].
    intros id' c Hne Hid. apply (holds_same_jits u); [reflexivity | ].
    apply H3; assumption.
  - intros k fuel' u (H1 & H2 & H3) Hk.
    destruct (loop_body_call id k fuel' (tick_loop u) Hk H1)
      as (u' & Hc & Hu' & Hh' & Hother).
    { apply (holds_same_jits u); [reflexivity | exact H2]. }
    exists u'. split; [exact Hc | ].
    split; [exact Hu' | ]. split; [exact Hh' | ].
    intros id' c Hne Hid. apply Hother; [exact Hne | ].
    apply (holds_same_jits u); [reflexivity | ]. apply H3; assumption.
  - split; [exact Hw | ]. split; [exact Hh | ]. intros id' c _ Hid. exact Hid.
  - rewrite Hrun.
    replace (Z.to_nat (Z.max n 0)) with (S (Z.to_nat (n - 1))) by lia.
    rewrite (add_loop_var x (Z.to_nat (n - 1)) fuel w1 H1 Hx).
    replace (Z.of_nat (S (Z.to_nat (n - 1)))) with n by lia.
    exists (tick_api w1). split; [reflexivity | ].
    split; [exact H1 | ].
    split; [apply (holds_same_jits w1); [reflexivity | exact H2] | ].
    intros id' c Hne Hid. apply (holds_same_jits w1); [reflexivity | ].
    apply H3; assumption.
Qed.

Lemma g_inner_jitted_poorly_run (x n : Z) (fuel : nat) (w : World) :
  frame w = None ->
  (Z.to_nat n < fuel)%nat ->
  0 < n <= 2147483647 ->
  in_int32 x = true ->
  exists w',
    g_inner_jitted_poorly (PyInt x) (PyInt n) fuel w
    = (Ok (DeviceArray int32 [] [EInt (wrap32 (x + n))]), w') /\
    frame w' = None /\
    (forall id c, holds w id c -> holds w' id c).
Proof.
  intros Hw Hfuel Hn Hx. unfold g_inner_jitted_poorly.
  set (Inv := fun (k : nat) (u : World) =>
                frame u = None /\ (forall id c, holds w id c -> holds u id c)).
  destruct (counted_g
              (fun i => j <- jax_jit (fun1 unjitted_loop_body) [] ;; call_jit j [i]) Inv)
    with (x := PyInt x) (n := n) (fuel := fuel) (w := w)
    as (w1 & (H1 & H2) & Hrun); try lia.
  - intros k u (H & _); exact H.
  - intros k u (H1 & H2). split; [exact H1 | ].
    intros id c Hid. apply (holds_same_jits u); [reflexivity | ]. apply H2, Hid.
  - intros k fuel' u (H1 & H2) Hk.
    rewrite (bind_run _ _ _ _ _ _ (jax_jit_run _ _ _ _)).
    destruct (loop_body_call (List.length (jits (tick_loop u))) k fuel'
                (tick_api (set_jits (jits (tick_loop u) ++ [fresh_jit_state])
                                    (tick_loop u)))
                Hk H1 (holds_new (tick_loop u) loop_body_jaxpr))
      as (u' & Hc & Hu' & _ & Hother).
    exists u'. split; [exact Hc | ]. split; [exact Hu' | ].
    intros id c Hid.
    assert (Hu : holds (tick_loop u) id c).
    { apply (holds_same_jits u); [reflexivity | ]. apply H2, Hid. }
    apply Hother; [destruct Hu as [Hlt _]; lia | ].
    apply holds_jax_jit. exact Hu.
  - split; [exact Hw | ]. intros id c Hid. exact Hid.
  - rewrite Hrun.
    replace (Z.to_nat (Z.max n 0)) with (S (Z.to_nat (n - 1))) by lia.
    rewrite (add_loop_var x (Z.to_nat (n - 1)) fuel w1 H1 Hx).
    replace (Z.of_nat (S (Z.to_nat (n - 1)))) with n by lia.
    exists (tick_api w1). split; [reflexivity | ].
    split; [exact H1 | ].
    intros id c Hid. apply (holds_same_jits w1); [reflexivity | ]. apply H2, Hid.
Qed.

Lemma cell_8_run (fuel : nat) (w : World) :
  frame w = None ->
  (20 < fuel)%nat ->
  exists r w',
    cell_8 fuel w = (Ok (mkJitted (fun1 loop_body_fn) [] (List.length (jits w)), r), w') /\
    frame w' = None /\
    holds w' (List.length (jits w)) loop_body_jaxpr.
Proof.
  intros Hw Hfuel. unfold cell_8, loop_body.
  rewrite (bind_run _ _ _ _ _ _ (jax_jit_run _ _ _ _)).
  destruct (g_inner_jitted_run (List.length (jits w)) 10 20 fuel
              (tick_api (set_jits (jits w ++ [fresh_jit_state]) w))
              Hw (holds_new w loop_body_jaxpr))
    as (w' & Hg & Hw' & Hh & _); try lia; try reflexivity.
  rewrite (bind_run _ _ _ _ _ _ Hg).
  eexists. exists w'. split; [reflexivity | ]. split; assumption.
Qed.

Lemma cell_10_run (fuel : nat) (w : World) :
  frame w = None ->
  exists f_jit_correct w',
    cell_10 fuel w = (Ok f_jit_correct, w') /\
    frame w' = None /\
    stdout w' = stdout w ++ [[PVal (DeviceArray int32 [] [EInt 10])]] /\
    (forall id c, holds w id c -> holds w' id c).
Proof.
  intros Hw. unfold cell_10.
  rewrite (bind_run _ _ _ _ _ _ (jax_jit_run _ _ _ _)).
  set (j := mkJitted (fun1 f) [0%nat] (List.length (jits w))).
  set (w0 := tick_api (set_jits (jits w ++ [fresh_jit_state]) w)).
  assert (Hj : forall a, preserves jits (jit_fun j a)).
  { intros a. apply preserves_fun1. intros u. apply preserves_f; intros; reflexivity. }
  destruct (call_jit_run j [PyInt 10] [KStatic (PyInt 10)] (constant_jaxpr (PyInt 10))
              (DeviceArray int32 [] [EInt 10]) fuel w0)
    as (w1 & Hc & Hw1 & _ & Hother); try assumption; try reflexivity.
  - intros u. destruct u. eexists. reflexivity.
  - apply holds_new.
  - rewrite (bind_run _ _ _ _ _ _ Hc).
    erewrite bind_run by reflexivity.
    eexists. eexists. split; [reflexivity | ].
    split; [exact Hw1 | ]. split.
    + cbn [stdout set_stdout]. f_equal.
      pose proof (preserves_call_jit stdout j [PyInt 10]
                    (fun _ => eq_refl) (fun _ _ => eq_refl) (fun _ _ => eq_refl)) as Hs.
      specialize (Hs ltac:(intros a; apply preserves_fun1; intros u;
                           apply preserves_f; intros; reflexivity) fuel w0).
      rewrite Hc in Hs. exact Hs.
    + intros id c Hid. apply (holds_same_jits w1); [reflexivity | ].
      apply Hother; [destruct Hid as [Hlt _]; cbn [jit_id j]; lia | ].
      apply holds_jax_jit. exact Hid.
Qed.

Lemma cell_11_run (fuel : nat) (w : World) :
  frame w = None ->
  (20 < fuel)%nat ->
  exists w',
    cell_11 fuel w = (Ok (mkJitted (fun2 g) [1%nat] (List.length (jits w))), w') /\
    frame w' = None /\
    stdout w' = stdout w ++ [[PVal (DeviceArray int32 [] [EInt 30])]] /\
    holds w' (List.length (jits w)) (add_jaxpr 20) /\
    (forall id c, holds w id c -> holds w' id c).
Proof.
  intros Hw Hfuel. unfold cell_11.
  rewrite (bind_run _ _ _ _ _ _ (jax_jit_run _ _ _ _)).
  set (j := mkJitted (fun2 g) [1%nat] (List.length (jits w))).
  set (w0 := tick_api (set_jits (jits w ++ [fresh_jit_state]) w)).
  assert (Hj : forall a, preserves jits (jit_fun j a)).
  { intros a. apply preserves_fun2. intros u v. apply preserves_g; intros; reflexivity. }
  destruct (call_jit_run j [PyInt 10; PyInt 20]
              [KAval (mkShaped int32 [] true); KStatic (PyInt 20)] (add_jaxpr 20)
              (DeviceArray int32 [] [EInt 30]) fuel w0)
    as (w1 & Hc & Hw1 & Hh & Hother); try assumption; try reflexivity.
  - intros u. destruct (trace_g_static (PyInt 10) 20 fuel u) as (wt & Ht & _).
    { cbn. lia. }
    exists wt. exact Ht.
  - intros u Hu. cbn [static_argnums j].
    rewrite (execute_add 20 [1%nat] [PyInt 10; PyInt 20] (PyInt 10) 10 fuel u Hu);
      try reflexivity.
    left; reflexivity.
  - apply holds_new.
  - rewrite (bind_run _ _ _ _ _ _ Hc).
    erewrite bind_run by reflexivity.
    eexists. split; [reflexivity | ].
    split; [exact Hw1 | ]. split; [ | split].
    + cbn [stdout set_stdout]. f_equal.
      pose proof (preserves_call_jit stdout j [PyInt 10; PyInt 20]
                    (fun _ => eq_refl) (fun _ _ => eq_refl) (fun _ _ => eq_refl)) as Hs.
      specialize (Hs ltac:(intros a; apply preserves_fun2; intros u v;
                           apply preserves_g; intros; reflexivity) fuel w0).
      rewrite Hc in Hs. exact Hs.
    + apply (holds_same_jits w1); [reflexivity | exact Hh].
    + intros id c Hid. apply (holds_same_jits w1); [reflexivity | ].
      apply Hother; [destruct Hid as [Hlt _]; cbn [jit_id j]; lia | ].
      apply holds_jax_jit. exact Hid.
Qed.

Lemma cell_13_run (runs1 runs2 id : nat) (fuel : nat) (w : World) :
  frame w = None ->
  (20 < fuel)%nat ->
  holds w id (add_jaxpr 20) ->
  exists w',
    cell_13 runs1 runs2 (mkJitted (fun2 g) [1%nat] id) fuel w = (Ok tt, w') /\
    frame w' = None /\
    stdout w' = (stdout w ++ [[PStr "g jitted:"]]) ++ [[PStr "g:"]] /\
    (forall id' c, id' <> id -> holds w id' c -> holds w' id' c).
Proof.
  intros Hw Hfuel Hh. unfold cell_13.
  set (j := mkJitted (fun2 g) [1%nat] id).
  assert (Hj : forall a, preserves jits (jit_fun j a)).
  { intros a. apply preserves_fun2. intros u v. apply preserves_g; intros; reflexivity. }
  assert (Hjs : forall a, preserves stdout (jit_fun j a)).
  { intros a. apply preserves_fun2. intros u v. apply preserves_g; intros; reflexivity. }
  erewrite bind_run by reflexivity.
  set (w0 := set_stdout (stdout w ++ [[PStr "g jitted:"]]) w).
  destruct (timeit_ok
              (fun u => frame u = None /\ holds u id (add_jaxpr 20) /\
                        stdout u = stdout w0 /\
                        (forall id' c, id' <> id -> holds w id' c -> holds u id' c))
              (r <- call_jit j [PyInt 10; PyInt 20] ;; block_until_ready r) fuel)
    with (runs := runs1) (w := w0) as (w1 & Ht & Hw1 & _ & Hs1 & Ho1).
  - intros u (Hu & Hhu & Hsu & Hou).
    destruct (call_jit_run j [PyInt 10; PyInt 20]
                [KAval (mkShaped int32 [] true); KStatic (PyInt 20)] (add_jaxpr 20)
                (DeviceArray int32 [] [EInt 30]) fuel u)
      as (u' & Hc & Hu' & Hh' & Hother); try assumption; try reflexivity.
    + intros u0. destruct (trace_g_static (PyInt 10) 20 fuel u0) as (wt & Ht & _).
      { cbn. lia. }
      exists wt. exact Ht.
    + intros u0 Hu0. cbn [static_argnums j].
      rewrite (execute_add 20 [1%nat] [PyInt 10; PyInt 20] (PyInt 10) 10 fuel u0 Hu0);
        try reflexivity.
      left; reflexivity.
    + rewrite (bind_run _ _ _ _ _ _ Hc).
      eexists. exists u'. split; [reflexivity | ].
      split; [exact Hu' | ]. split; [exact Hh' | ]. split.
      * rewrite <- Hsu.
        pose proof (preserves_call_jit stdout j [PyInt 10; PyInt 20]
                      (fun _ => eq_refl) (fun _ _ => eq_refl) (fun _ _ => eq_refl)
                      Hjs fuel u) as Hs.
        rewrite Hc in Hs. exact Hs.
      * intros id' c Hne Hid. apply Hother; [exact Hne | ]. apply Hou; assumption.
  - split; [exact Hw | ].
    split; [apply (holds_same_jits w); [reflexivity | exact Hh] | ].
    split; [reflexivity | ].
    intros id' c _ Hid. apply (holds_same_jits w); [reflexivity | exact Hid].
  - rewrite (bind_run _ _ _ _ _ _ Ht).
    erewrite bind_run by reflexivity.
    rewrite (timeit_g 10 20 fuel ltac:(cbn; lia)).
    eexists. split; [reflexivity | ].
    split; [exact Hw1 | ]. split.
    + cbn [stdout after_iterations set_stdout]. rewrite Hs1. reflexivity.
    + intros id' c Hne Hid.
      apply (holds_same_jits w1); [reflexivity | ]. apply Ho1; assumption.
Qed.

Lemma cell_15_run (runs1 runs2 id : nat) (fuel : nat) (w : World) :
  frame w = None ->
  (20 < fuel)%nat ->
  holds w id loop_body_jaxpr ->
  exists w',
    cell_15 runs1 runs2 (mkJitted (fun1 loop_body_fn) [] id) fuel w = (Ok tt, w') /\
    frame w' = None /\
    stdout w'
    = (stdout w ++ [[PStr "jit called outside the loop:"]])
        ++ [[PStr "jit called inside the loop:"]].
Proof.
  intros Hw Hfuel Hh. unfold cell_15.
  set (lb := mkJitted (fun1 loop_body_fn) [] id).
  erewrite bind_run by reflexivity.
  set (w0 := set_stdout (stdout w ++ [[PStr "jit called outside the loop:"]]) w).
  destruct (timeit_ok
              (fun u => frame u = None /\ holds u id loop_body_jaxpr /\
                        stdout u = stdout w0)
              (r <- g_inner_jitted lb (PyInt 10) (PyInt 20) ;; block_until_ready r) fuel)
    with (runs := runs1) (w := w0) as (w1 & Ht & Hw1 & _ & Hs1).
  - intros u (Hu & Hhu & Hsu).
    destruct (g_inner_jitted_run id 10 20 fuel u Hu Hhu)
      as (u' & Hg & Hu' & Hh' & _); try lia; try reflexivity.
    unfold lb. rewrite (bind_run _ _ _ _ _ _ Hg).
    eexists. exists u'. split; [reflexivity | ].
    split; [exact Hu' | ]. split; [exact Hh' | ].
    rewrite <- Hsu.
    pose proof (preserves_g_inner_jitted stdout
                  (fun _ => eq_refl) (fun _ _ => eq_refl) (fun _ => eq_refl)
                  (fun _ _ => eq_refl) lb (PyInt 10) (PyInt 20)) as Hs.
    specialize (Hs ltac:(intros a; apply preserves_fun1; intros v;
                         apply preserves_loop_body_fn; intros; reflexivity) fuel u).
    unfold lb in Hs. rewrite Hg in Hs. exact Hs.
  - split; [exact Hw | ].
    split; [apply (holds_same_jits w); [reflexivity | exact Hh] | reflexivity].
  - rewrite (bind_run _ _ _ _ _ _ Ht).
    erewrite bind_run by reflexivity.
    set (w2 := set_stdout (stdout w1 ++ [[PStr "jit called inside the loop:"]]) w1).
    destruct (timeit_ok
                (fun u => frame u = None /\ stdout u = stdout w2)
                (r <- g_inner_jitted_poorly (PyInt 10) (PyInt 20) ;; block_until_ready r)
                fuel)
      with (runs := runs2) (w := w2) as (w3 & Ht3 & Hw3 & Hs3).
    + intros u (Hu & Hsu).
      destruct (g_inner_jitted_poorly_run 10 20 fuel u Hu)
        as (u' & Hg & Hu' & _); try lia; try reflexivity.
      rewrite (bind_run _ _ _ _ _ _ Hg).
      eexists. exists u'. split; [reflexivity | ].
      split; [exact Hu' | ].
      rewrite <- Hsu.
      pose proof (preserves_g_inner_jitted_poorly stdout
                    (fun _ => eq_refl) (fun _ _ => eq_refl) (fun _ => eq_refl)
                    (fun _ _ => eq_refl) (PyInt 10) (PyInt 20) fuel u) as Hs.
      rewrite Hg in Hs. exact Hs.
    + split; [exact Hw1 | reflexivity].
    + exists w3. split; [exact Ht3 | ]. split; [exact Hw3 | ].
      rewrite Hs3. cbn [stdout w2 set_stdout]. rewrite Hs1. reflexivity.
Qed.

(** X13.  Run top to bottom by an interpreter with no trace in progress,
    and with fuel for the 21 loop tests of [g(10, 20)], the notebook goes
    through all its cells, whatever the number of repetitions each
    [%timeit] decides on: no exception leaves a cell but the two
    [ConcretizationTypeError] of the cells tagged [raises-exception], and
    what its [print] calls have written at the end is exactly what the
    notebook shows under its cells. *)
Theorem notebook_prints_the_recorded_output
    (runs : nat -> nat) (fuel : nat) (w : World) :
  frame w = None ->
  (20 < fuel)%nat ->
  fst (notebook runs fuel w) = Ok tt /\
  stdout (snd (notebook runs fuel w)) = stdout w ++ recorded_output.
Proof.
  intros Hw Hfuel. unfold notebook.
  destruct (cell_1_run fuel w) as (w1 & H1 & Hf1 & Hs1).
  rewrite (bind_run _ _ _ _ _ _ H1).
  destruct (cell_2_run fuel w1) as (w2 & H2 & Hf2 & Hs2).
  rewrite (bind_run _ _ _ _ _ _ H2).
  destruct (cell_3_run fuel w2) as (w3 & H3 & Hf3 & Hs3).
  rewrite (bind_run _ _ _ _ _ _ H3).
  assert (Hw3 : frame w3 = None) by congruence.
  destruct (cell_4_run (runs 0%nat) fuel w3 Hw3) as (buf & w4 & H4 & Hlen & Hw4).
  rewrite (bind_run _ _ _ _ _ _ H4).
  assert (Hs4 : stdout w4 = stdout w3).
  { pose proof (preserves_cell_4 stdout (fun _ => eq_refl) (fun _ _ => eq_refl)
                  (runs 0%nat) fuel w3) as H.
    rewrite H4 in H. exact H. }
  destruct (cell_5_run int32 [Z.to_N 1000000] buf (runs 1%nat) fuel w4 Hw4 Hlen)
    as (selu_jit & w5 & H5 & Hw5).
  rewrite (bind_run _ _ _ _ _ _ H5).
  assert (Hs5 : stdout w5 = stdout w4).
  { pose proof (preserves_cell_5 stdout (fun _ => eq_refl) (fun _ _ => eq_refl)
                  (fun _ _ => eq_refl) (runs 1%nat)
                  (DeviceArray int32 [Z.to_N 1000000] buf) fuel w4) as H.
    rewrite H5 in H. exact H. }
  destruct (cell_6_run fuel w5) as (w6 & H6 & Hf6).
  rewrite (bind_run _ _ _ _ _ _ H6).
  assert (Hs6 : stdout w6 = stdout w5).
  { pose proof (preserves_raises_exception stdout cell_6
                  (preserves_cell_6 stdout (fun _ => eq_refl) (fun _ _ => eq_refl)
                     (fun _ _ => eq_refl)) fuel w5) as H.
    rewrite H6 in H. exact H. }
  destruct (cell_7_run fuel w6 ltac:(lia)) as (w7 & H7 & Hf7).
  rewrite (bind_run _ _ _ _ _ _ H7).
  assert (Hs7 : stdout w7 = stdout w6).
  { pose proof (preserves_raises_exception stdout cell_7
                  (preserves_cell_7 stdout (fun _ => eq_refl) (fun _ _ => eq_refl)
                     (fun _ => eq_refl) (fun _ _ => eq_refl)) fuel w6) as H.
    rewrite H7 in H. exact H. }
  assert (Hw7 : frame w7 = None) by congruence.
  destruct (cell_8_run fuel w7 Hw7 Hfuel) as (r8 & w8 & H8 & Hw8 & Hh8).
  rewrite (bind_run _ _ _ _ _ _ H8).
  assert (Hs8 : stdout w8 = stdout w7).
  { pose proof (preserves_cell_8 stdout (fun _ => eq_refl) (fun _ _ => eq_refl)
                  (fun _ => eq_refl) (fun _ _ => eq_refl) fuel w7) as H.
    rewrite H8 in H. exact H. }
  destruct (cell_10_run fuel w8 Hw8) as (j10 & w10 & H10 & Hw10 & Hs10 & Ho10).
  rewrite (bind_run _ _ _ _ _ _ H10).
  destruct (cell_11_run fuel w10 Hw10 Hfuel) as (w11 & H11 & Hw11 & Hs11 & Hh11 & Ho11).
  rewrite (bind_run _ _ _ _ _ _ H11).
  destruct (cell_13_run (runs 2%nat) (runs 3%nat) (List.length (jits w10)) fuel w11
              Hw11 Hfuel Hh11)
    as (w13 & H13 & Hw13 & Hs13 & Ho13).
  rewrite (bind_run _ _ _ _ _ _ H13).
  assert (Hlb : holds w13 (List.length (jits w7)) loop_body_jaxpr).
  { pose proof (Ho10 _ _ Hh8) as Hlb10.
    apply Ho13; [destruct Hlb10 as [Hlt _]; lia | ].
    apply Ho11. exact Hlb10. }
  cbn [fst].
  destruct (cell_15_run (runs 4%nat) (runs 5%nat) (List.length (jits w7)) fuel w13
              Hw13 Hfuel Hlb)
    as (w15 & H15 & _ & Hs15).
  rewrite H15. split; [reflexivity | ].
  cbn [snd]. rewrite Hs15, Hs13, Hs11, Hs10, Hs8, Hs7, Hs6, Hs5, Hs4, Hs3, Hs2, Hs1.
  unfold recorded_output. rewrite <- !app_assoc. reflexivity.
Qed.

(** ** The jaxpr of [log2_if_rank_2] *)

(** X14.  For an argument of rank 2 the test [x.ndim == 2] succeeds while
    tracing, and [log2_if_rank_2] then performs what [log2] performs:
    [jax.make_jaxpr] gives for it the very jaxpr it gives for [log2] on that
    argument, which is not the identity.  Only the side effect differs:
    [log2] appends the tracer to [global_list], [log2_if_rank_2] leaves the
    list alone. *)
Theorem log2_if_rank_2_traces_like_log2 (x : value) (fuel : nat) (w : World) :
  rank x = 2%nat ->
  (exists jp,
     fst (make_jaxpr (fun1 log2_if_rank_2) [x] fuel w) = Ok jp /\
     fst (make_jaxpr (fun1 log2) [x] fuel w) = Ok jp /\
     eqns jp <> []) /\
  global_list (snd (make_jaxpr (fun1 log2_if_rank_2) [x] fuel w)) = global_list w /\
  global_list (snd (make_jaxpr (fun1 log2) [x] fuel w))
  = global_list w ++ [Tracer (get_aval x) 0].
Proof.
  intros Hrank. split; [ | split].
  - exists log2_jaxpr.
    split; [apply log2_if_rank_2_traces_rank_2; exact Hrank | ].
    split; [ | discriminate].
    unfold make_jaxpr. erewrite bind_run by reflexivity.
    destruct (trace_log2 x fuel (tick_api w)) as (w1 & Ht & _).
    rewrite Ht. reflexivity.
  - apply preserves_make_jaxpr; try (intros; reflexivity).
    intros a. apply preserves_fun1. intros v.
    apply preserves_log2_if_rank_2; intros; reflexivity.
  - unfold make_jaxpr. erewrite bind_run by reflexivity.
    destruct (trace_log2 x fuel (tick_api w)) as (w1 & Ht & _ & Hg & _).
    rewrite Ht. exact Hg.
Qed.

(** ** One compilation for each value of a static argument *)

Lemma nodup_length_rev (xs : list Z) :
  List.length (nodup Z.eq_dec (rev xs)) = List.length (nodup Z.eq_dec xs).
Proof.
  apply Nat.le_antisymm; apply NoDup_incl_length; try apply NoDup_nodup;
    intros a Ha; apply nodup_In; apply nodup_In in Ha;
    [apply in_rev | apply in_rev in Ha]; assumption.
Qed.

(** Running the code compiled for a constant result. *)
Lemma execute_constant (z : Z) (static : list nat) (args : list value)
    (fuel : nat) (w : World) :
  dynamic_args static 0 args = [] ->
  in_int32 z = true ->
  fst (execute (constant_jaxpr (PyInt z)) static args fuel w)
  = Ok (DeviceArray int32 [] [EInt z]).
Proof.
  intros Hdyn Hz. unfold execute, eval_jaxpr. rewrite Hdyn.
  cbn [device_put_all constant_jaxpr eqns invars outvar combine eval_eqns read_atom].
  erewrite bind_run by reflexivity.
  erewrite bind_run by (erewrite bind_run by reflexivity; reflexivity).
  unfold lift, device_put, as_array. rewrite Hz. reflexivity.
Qed.

(** X15.  "JAX will have to re-compile the function for every new value of the
    specified input."  [f_jit_correct = jax.jit(f, static_argnums=0)] is
    called on one Python int after the other, each call in a cell of its
    own.  At the end [f] has been compiled once for each distinct value
    among them whose result [f(x)] fits 32 bits, however often a value came
    back.  After such a session a call on an [x] whose result fits returns
    [f(x)] as a 32-bit device scalar; a call on an [x] whose result does not
    fit raises [OverflowError] while tracing, every time, and compiles
    nothing. *)
Theorem f_jit_correct_compiles_once_per_value (xs : list Z) (fuel : nat) (w : World) :
  let f_jit_correct := mkJitted (fun1 f) [0%nat] (List.length (jits w)) in
  let w0 := snd (jax_jit (fun1 f) [0%nat] fuel w) in
  let w1 := call_seq f_jit_correct (calls_on xs) fuel w0 in
  compiles w0 f_jit_correct = 0%nat /\
  compiles w1 f_jit_correct
  = List.length (nodup Z.eq_dec (filter (fun x => in_int32 (f_int x)) xs)) /\
  forall x,
    (in_int32 (f_int x) = true ->
     fst (call_jit f_jit_correct [PyInt x] fuel w1)
     = Ok (DeviceArray int32 [] [EInt (f_int x)])) /\
    (in_int32 (f_int x) = false ->
     fst (call_jit f_jit_correct [PyInt x] fuel w1) = Raise OverflowError /\
     compiles (snd (call_jit f_jit_correct [PyInt x] fuel w1)) f_jit_correct
     = compiles w1 f_jit_correct).
Proof.
  intros j w0 w1.
  set (fits := fun x => in_int32 (f_int x)).
  assert (Hj : forall a, preserves jits (jit_fun j a)).
  { intros a. apply preserves_fun1. intros v. apply preserves_f; intros; reflexivity. }
  assert (Hk : forall x, signature (static_argnums j) 0 [PyInt x] = Ok [KStatic (PyInt x)])
    by reflexivity.
  set (Inv := fun (seen : list Z) (u : World) =>
                (jit_id j < List.length (jits u))%nat /\
                compiles u j = List.length (nodup Z.eq_dec (filter fits seen)) /\
                (forall x,
                   cached u j [KStatic (PyInt x)]
                   = if in_dec Z.eq_dec x (filter fits seen)
                     then Some (constant_jaxpr (PyInt (f_int x))) else None)).
  (* The three ways a call can go, in a state that satisfies the invariant. *)
  assert (Hcall : forall x seen u,
             Inv seen u ->
             Inv (x :: seen) (snd (call_jit j [PyInt x] fuel u)) /\
             (fits x = true ->
              fst (call_jit j [PyInt x] fuel u) = Ok (DeviceArray int32 [] [EInt (f_int x)])) /\
             (fits x = false ->
              fst (call_jit j [PyInt x] fuel u) = Raise OverflowError /\
              compiles (snd (call_jit j [PyInt x] fuel u)) j = compiles u j)).
  { intros x seen u (Hid & Hc & Hseen).
    pose proof (Hseen x) as Hx.
    destruct (fits x) eqn:Efits.
    - destruct (in_dec Z.eq_dec x (filter fits seen)) as [Hin | Hnot].
      + (* the value has been compiled before *)
        destruct (call_jit_again j [PyInt x] _ _ fuel u Hj (Hk x) Hx) as (Hrun & Hjits).
        split; [ | split; [ | discriminate]].
        * unfold Inv, compiles, cached, jit_state_of in *. rewrite Hjits.
          split; [exact Hid | ].
          cbn [filter]. fold (fits x). rewrite Efits. split.
          { rewrite Hc. cbn [nodup].
            destruct (in_dec Z.eq_dec x (filter fits seen)); [reflexivity | contradiction]. }
          { intros y. rewrite Hseen.
            destruct (in_dec Z.eq_dec y (filter fits seen)) as [H1 | H1];
              destruct (in_dec Z.eq_dec y (x :: filter fits seen)) as [H2 | H2];
              try reflexivity.
            - exfalso. apply H2. right. exact H1.
            - destruct H2 as [<- | H2]; contradiction. }
        * intros _. rewrite Hrun. apply execute_constant; [reflexivity | exact Efits].
      + (* a new value: traced and compiled *)
        assert (Ht : trace_to_jaxpr (jit_fun j) (static_argnums j) [PyInt x] fuel (tick_api u)
                     = (Ok (constant_jaxpr (PyInt (f_int x))), tick_api u)).
        { cbn [jit_fun static_argnums j]. rewrite trace_f_static.
          fold (fits x). rewrite Efits. reflexivity. }
        destruct (call_jit_first j [PyInt x] _ _ fuel u (tick_api u) Hj Hid (Hk x) Hx Ht)
          as (Hrun & Hnew & Hcomp).
        assert (Hjits : jits (snd (call_jit j [PyInt x] fuel u))
                        = jits (record_compile (jit_id j) [KStatic (PyInt x)]
                                  (constant_jaxpr (PyInt (f_int x))) u)).
        { rewrite (jits_after_call j [PyInt x] fuel u Hj), Hk, Hx, Ht. reflexivity. }
        split; [ | split; [ | discriminate]].
        * split; [rewrite (length_jits_after_call j [PyInt x] fuel u Hj); exact Hid | ].
          cbn [filter]. fold (fits x). rewrite Efits. split.
          { rewrite Hcomp, Hc. cbn [nodup].
            destruct (in_dec Z.eq_dec x (filter fits seen)); [contradiction | reflexivity]. }
          { intros y. unfold cached.
            rewrite (jit_state_after_compile j _ _ u _ Hjits Hid).
            cbn [js_cache lookup_cache].
            destruct (key_eq_dec [KStatic (PyInt y)] [KStatic (PyInt x)]) as [E | E].
            - injection E as ->.
              destruct (in_dec Z.eq_dec x (x :: filter fits seen)) as [_ | H2];
                [reflexivity | exfalso; apply H2; left; reflexivity].
            - fold (cached u j [KStatic (PyInt y)]). rewrite Hseen.
              destruct (in_dec Z.eq_dec y (filter fits seen)) as [H1 | H1];
                destruct (in_dec Z.eq_dec y (x :: filter fits seen)) as [H2 | H2];
                try reflexivity.
              + exfalso. apply H2. right. exact H1.
              + destruct H2 as [<- | H2]; [congruence | contradiction]. }
        * intros _. rewrite Hrun. apply execute_constant; [reflexivity | exact Efits].
    - (* the result does not fit: the trace raises *)
      assert (Hnot : ~ In x (filter fits seen)).
      { intros Hin. apply filter_In in Hin. destruct Hin as [_ Hin]. congruence. }
      destruct (in_dec Z.eq_dec x (filter fits seen)) as [Hin | _]; [contradiction | ].
      assert (Ht : trace_to_jaxpr (jit_fun j) (static_argnums j) [PyInt x] fuel (tick_api u)
                   = (Raise OverflowError, tick_api u)).
      { cbn [jit_fun static_argnums j]. rewrite trace_f_static.
        fold (fits x). rewrite Efits. reflexivity. }
      assert (Hjits : jits (snd (call_jit j [PyInt x] fuel u)) = jits u).
      { rewrite (jits_after_call j [PyInt x] fuel u Hj), Hk, Hx, Ht. reflexivity. }
      assert (Hraise : fst (call_jit j [PyInt x] fuel u) = Raise OverflowError).
      { rewrite (call_jit_miss j [PyInt x] _ fuel u (Hk x) Hx).
        rewrite (bind_run_raise _ _ _ _ _ _ Ht). reflexivity. }
      split; [ | split; [discriminate | ]].
      + unfold Inv, compiles, cached, jit_state_of in *. rewrite Hjits.
        cbn [filter]. fold (fits x). rewrite Efits.
        split; [exact Hid | split; [exact Hc | exact Hseen]].
      + intros _. split; [exact Hraise | ].
        unfold compiles, jit_state_of. rewrite Hjits. reflexivity. }
  assert (Hseq : forall ys seen u,
             Inv seen u -> Inv (rev ys ++ seen) (call_seq j (calls_on ys) fuel u)).
  { induction ys as [ | y ys IH]; intros seen u Hu; cbn [calls_on map call_seq rev app].
    - exact Hu.
    - rewrite <- app_assoc. cbn [app]. apply (IH (y :: seen)).
      apply (Hcall y seen u Hu). }
  assert (H0 : compiles w0 j = 0%nat).
  { unfold compiles, w0. cbn [snd jax_jit j jit_id].
    rewrite jit_state_of_new. reflexivity. }
  assert (Hw1 : Inv (rev xs ++ []) w1).
  { apply Hseq. split; [unfold w0; cbn; rewrite length_app; cbn; lia | ].
    split; [exact H0 | ].
    intros x. cbn [filter]. destruct (in_dec Z.eq_dec x []) as [[] | _].
    apply (cached_new (fun1 f) [0%nat] [KStatic (PyInt x)] w). }
  split; [exact H0 | ].
  split.
  - destruct Hw1 as (_ & Hc & _).
    rewrite Hc, app_nil_r, filter_rev. apply nodup_length_rev.
  - intros x. destruct (Hcall x _ w1 Hw1) as (_ & Hfit & Hnofit).
    split; [exact Hfit | exact Hnofit].
Qed.

(** ** Functions that cannot be traced *)







(** ** What is printed *)

(** X17.  The one function of the notebook that prints is
    [log2_with_print]: every call writes one line, and no other function
    ([log2], [log2_if_rank_2], [selu], [f], [g], the two loop bodies,
    [g_inner_jitted], [g_inner_jitted_poorly]) writes anything, in any
    state, whatever it returns or raises.  The cells that hold no [print]
    (the fourth to the eighth) leave the output as it is too. *)
Theorem only_log2_with_print_prints :
  (forall x fuel w,
     stdout (snd (log2_with_print x fuel w))
     = stdout w ++ [[PStr "printed x:"; PVal x]]) /\
  (forall x, preserves stdout (log2 x)) /\
  (forall x, preserves stdout (log2_if_rank_2 x)) /\
  (forall x a l, preserves stdout (selu x a l)) /\
  (forall x, preserves stdout (f x)) /\
  (forall x n, preserves stdout (g x n)) /\
  (forall i, preserves stdout (loop_body_fn i)) /\
  (forall i, preserves stdout (unjitted_loop_body i)) /\
  (forall lb x n, jit_fun lb = fun1 loop_body_fn ->
                  preserves stdout (g_inner_jitted lb x n)) /\
  (forall x n, preserves stdout (g_inner_jitted_poorly x n)) /\
  (forall r, preserves stdout (cell_4 r)) /\
  (forall r x, preserves stdout (cell_5 r x)) /\
  preserves stdout (raises_exception cell_6) /\
  preserves stdout (raises_exception cell_7) /\
  preserves stdout cell_8.
Proof.
  split.
  { intros x fuel w. unfold log2_with_print, print.
    erewrite bind_run by reflexivity.
    exact (log2_tail_preserves stdout x (fun _ => eq_refl) (fun _ _ => eq_refl) fuel _). }
  split; [intros x; apply preserves_log2; intros; reflexivity | ].
  split; [intros x; apply preserves_log2_if_rank_2; intros; reflexivity | ].
  split; [intros x a l; apply preserves_selu; intros; reflexivity | ].
  split; [intros x; apply preserves_f; intros; reflexivity | ].
  split; [intros x n; apply preserves_g; intros; reflexivity | ].
  split; [intros i; apply preserves_loop_body_fn; intros; reflexivity | ].
  split; [intros i; apply preserves_loop_body_fn; intros; reflexivity | ].
  split.
  { intros lb x n Hlb. apply preserves_g_inner_jitted; try (intros; reflexivity).
    intros a. rewrite Hlb. apply preserves_fun1. intros v.
    apply preserves_loop_body_fn; intros; reflexivity. }
  split; [intros x n; apply preserves_g_inner_jitted_poorly; intros; reflexivity | ].
  split; [intros r; apply preserves_cell_4; intros; reflexivity | ].
  split; [intros r x; apply preserves_cell_5; intros; reflexivity | ].
  split; [apply preserves_raises_exception, preserves_cell_6; intros; reflexivity | ].
  split; [apply preserves_raises_exception, preserves_cell_7; intros; reflexivity | ].
  apply preserves_cell_8; intros; reflexivity.
Qed.

End Notebook.

(** ** The cells' recorded outputs

    Run on the carrier [sym], from the interpreter's initial state, the
    cells give what the notebook shows under them. *)

(** Cell 1: [{ lambda ; a. let b = log a  c = log 2.0  d = div b c in (d,) }]. *)
Example cell_1_output :
  stdout (snd (@cell_1 sym _ 1%nat initial_world)) = [[PJaxpr log2_jaxpr]].
Proof. reflexivity. Qed.

(** Cell 2:
    [printed x: Traced<ShapedArray(float32[], weak_type=True)>], then the
    same jaxpr. *)
Example cell_2_output :
  stdout (snd (@cell_2 sym _ 1%nat initial_world))
  = [[PStr "printed x:"; PVal (Tracer (mkShaped float32 [] true) 0%nat)];
     [PJaxpr log2_jaxpr]].
Proof. reflexivity. Qed.

(** Cell 3: [{ lambda ; a. let in (a,) }]. *)
Example cell_3_output :
  stdout (snd (@cell_3 sym _ 1%nat initial_world)) = [[PJaxpr identity_jaxpr]].
Proof. reflexivity. Qed.

(** Cells 6 and 7: [ConcretizationTypeError]. *)
Example cell_6_output :
  fst (@cell_6 sym _ 1%nat initial_world) = Raise ConcretizationTypeError.
Proof. reflexivity. Qed.

Example cell_7_output :
  fst (@cell_7 sym _ 1%nat initial_world) = Raise ConcretizationTypeError.
Proof. reflexivity. Qed.

(** Cell 8: [DeviceArray(30, dtype=int32)]. *)
Example cell_8_output :
  fst (bind (@cell_8 sym _) (fun r => ret (snd r)) 21%nat initial_world)
  = Ok (DeviceArray int32 [] [EInt 30]).
Proof. vm_compute. reflexivity. Qed.

(** Cell 10: [10]. *)
Example cell_10_output :
  stdout (snd (@cell_10 sym _ 1%nat initial_world))
  = [[PVal (DeviceArray int32 [] [EInt 10])]].
Proof. vm_compute. reflexivity. Qed.

(** Cell 11: [30]. *)
Example cell_11_output :
  stdout (snd (@cell_11 sym _ 21%nat initial_world))
  = [[PVal (DeviceArray int32 [] [EInt 30])]].
Proof. vm_compute. reflexivity. Qed.

(** ** The statements at concrete inputs *)

(** [g(10, 20)] with fuel for 21 loop tests. *)
Lemma g_terminates_witness :
  (Z.to_nat (Z.max 20 0) < 21)%nat /\
  @g sym _ (PyInt 10) (PyInt 20) 21%nat initial_world
  = (Ok (PyInt 30), after_iterations 20%nat initial_world).
Proof.
  split; [vm_compute; lia | ].
  apply (g_terminates (F := sym) 10 20 21%nat initial_world). vm_compute; lia.
Defined.

(** A first disagreement: at [x = 2147483647], [n = 1] the Python int that
    [g] returns is [2147483648], the 32-bit scalar of [g_inner_jitted] and
    of [g_inner_jitted_poorly] is [-2147483648]. *)
Lemma g_inner_jitted_overflows :
  int_value (fst (@g sym _ (PyInt 2147483647) (PyInt 1) 2%nat initial_world))
  = Some 2147483648 /\
  int_value (fst (bind loop_body
                    (fun lb => @g_inner_jitted sym _ lb (PyInt 2147483647) (PyInt 1))
                    2%nat initial_world))
  = Some (-2147483648) /\
  int_value (fst (@g_inner_jitted_poorly sym _ (PyInt 2147483647) (PyInt 1)
                    2%nat initial_world))
  = Some (-2147483648).
Proof. vm_compute. repeat split. Qed.

(** [g_inner_jitted(10, 20)] is [DeviceArray(30, dtype=int32)], as the
    eighth cell shows; [g(10, 20)] is the Python int [30]. *)
Lemma g_inner_jitted_agrees_with_g_witness :
  frame (@initial_world sym) = None /\
  (Z.to_nat (Z.max 20 0) < 21)%nat /\
  20 <= 2147483647 /\
  fst (bind loop_body (fun lb => @g_inner_jitted sym _ lb (PyInt 10) (PyInt 20))
         21%nat initial_world)
  = Ok (DeviceArray int32 [] [EInt (wrap32 (10 + 20))]) /\
  fst (@g sym _ (PyInt 10) (PyInt 20) 21%nat initial_world) = Ok (PyInt (10 + 20)).
Proof.
  split; [reflexivity | ].
  split; [vm_compute; lia | ].
  split; [lia | ].
  pose proof (g_inner_jitted_agrees_with_g (F := sym) 10 20 21%nat initial_world
                eq_refl ltac:(vm_compute; lia) ltac:(lia)) as H.
  cbv zeta in H. destruct H as [_ H].
  destruct (H ltac:(lia) eq_refl) as (Hg & H1 & _).
  split; [exact H1 | exact Hg].
Defined.

(** The first cell, run in the initial state, leaves one element in
    [global_list], which was empty. *)
Lemma cell_1_changes_global_list :
  global_list (@initial_world sym) = [] /\
  global_list (snd (@cell_1 sym _ 1%nat initial_world))
  = [Tracer (mkShaped float32 [] true) 0%nat].
Proof. vm_compute. split; reflexivity. Qed.

(** [g(10, 20)] returns [30] after 20 iterations of its own loop and not
    one call into the framework. *)
Lemma g_makes_no_framework_call :
  fst (@g sym _ (PyInt 10) (PyInt 20) 21%nat initial_world) = Ok (PyInt 30) /\
  loop_iterations (snd (@g sym _ (PyInt 10) (PyInt 20) 21%nat initial_world)) = 20%nat /\
  api_calls (snd (@g sym _ (PyInt 10) (PyInt 20) 21%nat initial_world)) = 0%nat.
Proof. vm_compute. repeat split. Qed.

Lemma f_and_g_are_plain_python_witness :
  (Z.to_nat (Z.max 20 0) < 21)%nat /\
  @timeit sym (@value sym) 3%nat (g (PyInt 10) (PyInt 20)) 21%nat initial_world
  = (Ok tt, after_iterations (3%nat * Z.to_nat (Z.max 20 0)) initial_world).
Proof.
  split; [vm_compute; lia | ].
  apply (f_and_g_are_plain_python (F := sym) 10 20 3%nat 21%nat initial_world).
  vm_compute; lia.
Defined.

(** The third cell's input, [jax.numpy.array([1, 2, 3])], has rank 1. *)
Lemma log2_if_rank_2_traces_to_identity_witness :
  List.length (sa_shape (get_aval (@DeviceArray sym int32 [3%N] [EInt 1; EInt 2; EInt 3])))
  <> 2%nat /\
  make_jaxpr (fun1 log2_if_rank_2) [@DeviceArray sym int32 [3%N] [EInt 1; EInt 2; EInt 3]]
             1%nat initial_world
  = (Ok identity_jaxpr, tick_api initial_world).
Proof.
  split; [cbn; lia | ].
  apply (log2_if_rank_2_traces_to_identity (F := sym)
           (DeviceArray int32 [3%N] [EInt 1; EInt 2; EInt 3]) 1%nat initial_world).
  cbn; lia.
Defined.

(** The first cell's input, [3.0]. *)
Lemma tracing_runs_once_and_drops_side_effects_witness :
  sa_dtype (get_aval (@PyFloat sym (flit "3.0"))) = float32 /\
  fst (make_jaxpr (fun1 log2) [@PyFloat sym (flit "3.0")] 1%nat initial_world)
  = Ok log2_jaxpr /\
  global_list (snd (make_jaxpr (fun1 log2) [@PyFloat sym (flit "3.0")] 1%nat initial_world))
  = global_list initial_world ++ [Tracer (get_aval (@PyFloat sym (flit "3.0"))) 0%nat].
Proof.
  split; [reflexivity | ].
  destruct (tracing_runs_once_and_drops_side_effects (F := sym)
              (PyFloat (flit "3.0")) 1%nat initial_world eq_refl)
    as (_ & H1 & H2 & _).
  split; [exact H1 | exact H2].
Defined.

(** The sixth and seventh cells. *)
Lemma jit_raises_on_traced_condition_witness :
  (0 < 1)%nat /\
  fst (@cell_6 sym _ 1%nat initial_world) = Raise ConcretizationTypeError /\
  fst (@cell_7 sym _ 1%nat initial_world) = Raise ConcretizationTypeError.
Proof.
  split; [lia | ].
  destruct (jit_raises_on_traced_condition (F := sym) (PyInt 10) (PyInt 20)
              1%nat initial_world ltac:(lia))
    as (_ & _ & H6 & H7 & _).
  split; [exact H6 | exact H7].
Defined.

(** The fifth cell's [selu_jit = jax.jit(selu)], on small arrays in place
    of the million elements of [x]: a call on an array of two floats, then
    the first call on an array of three ints, then that call again. *)
Lemma jit_compiles_on_first_call_only_witness :
  (forall a, preserves jits (@selu_fn sym _ a)) /\
  (let x := @DeviceArray sym int32 [3%N] [EInt (-1); EInt 0; EInt 2] in
   let y := @DeviceArray sym float32 [2%N] [EFloat (flit "0.5"); EFloat (flit "1.5")] in
   let k := [@KAval sym (mkShaped int32 [3%N] false)] in
   let j := mkJitted selu_fn [] (List.length (jits (@initial_world sym))) in
   let w0 := snd (jax_jit selu_fn [] 1%nat initial_world) in
   let w1 := call_seq j [[y]] 1%nat w0 in
   let w2 := snd (call_jit j [x] 1%nat w1) in
   let w3 := call_seq j [] 1%nat w2 in
   signature [] 0 [x] = Ok k /\
   Forall (fun a => signature [] 0 a <> Ok k) [[y]] /\
   compiles w0 j = 0%nat /\
   cached w1 j k = None /\
   compiles w2 j = S (compiles w1 j) /\
   compiles (snd (call_jit j [x] 1%nat w3)) j = compiles w3 j).
Proof.
  assert (Hfn : forall a, preserves jits (@selu_fn sym _ a)).
  { intros a. apply preserves_selu_fn; intros; reflexivity. }
  split; [exact Hfn | ].
  intros x y k j w0 w1 w2 w3.
  assert (Hk : signature [] 0 [x] = Ok k) by reflexivity.
  assert (Hall : Forall (fun a => signature [] 0 a <> Ok k) [[y]]).
  { constructor; [ | constructor]. intros E. vm_compute in E. discriminate E. }
  destruct (jit_compiles_on_first_call_only (F := sym) selu_fn [] 1%nat
              initial_world Hfn)
    as (_ & H0 & _ & _ & _ & H).
  destruct (H [[y]] [x] k Hk Hall) as (Hc1 & _ & _ & Hok).
  destruct (trace_selu x 1%nat (tick_api w1)) as (wt & Ht & _).
  destruct (Hok _ (f_equal fst Ht)) as (Hcomp & _ & Hlater).
  destruct (Hlater [] [x] Hk) as (_ & _ & Hsame & _).
  split; [exact Hk | ]. split; [exact Hall | ]. split; [exact H0 | ].
  split; [exact Hc1 | ]. split; [exact Hcomp | exact Hsame].
Defined.

(** The tenth cell's [f_jit_correct = jax.jit(f, static_argnums=0)], called
    with [10], then either with [10] again or with [-3]. *)
Lemma jit_static_arguments_and_cache_witness :
  (forall a, preserves jits (fun1 (@f sym _) a)) /\
  signature [0%nat] 0 [@PyInt sym 10] = Ok [KStatic (PyInt 10)] /\
  signature [0%nat] 0 [@PyInt sym (-3)] = Ok [KStatic (PyInt (-3))] /\
  (let j := mkJitted (fun1 (@f sym _)) [0%nat] 0 in
   let w0 := snd (jax_jit (fun1 f) [0%nat] 1%nat initial_world) in
   let w1 := snd (call_jit j [PyInt 10] 1%nat w0) in
   let w1' := snd (call_jit j [PyInt 10] 1%nat w1) in
   let w2 := snd (call_jit j [PyInt (-3)] 1%nat w1) in
   [@KStatic sym (PyInt (-3))] <> [KStatic (PyInt 10)] /\
   compiles w1 j = 1%nat /\ compiles w1' j = 1%nat /\ compiles w2 j = 2%nat).
Proof.
  assert (Hfn : forall a, preserves jits (fun1 (@f sym _) a)).
  { intros a. apply preserves_fun1. intros x. apply preserves_f; intros; reflexivity. }
  split; [exact Hfn | ].
  split; [reflexivity | ]. split; [reflexivity | ].
  cbv zeta.
  destruct (jit_static_arguments_and_cache (F := sym) (fun1 f) [0%nat]
              [PyInt 10] [PyInt (-3)] _ _ 1%nat initial_world Hfn eq_refl eq_refl)
    as (_ & Hchanged & _).
  destruct (Hchanged 0%nat (PyInt 10) (PyInt (-3)) eq_refl eq_refl eq_refl
              ltac:(discriminate))
    as (Hne & _).
  split; [exact Hne | ].
  vm_compute. repeat split.
Defined.

(** The same static value is not enough.  The eleventh cell's
    [g_jit_correct = jax.jit(g, static_argnums=1)] is called as
    [g_jit_correct(10, 20)] and then as [g_jit_correct(10.0, 20)]: the
    static argument is [20] both times, and [g] is compiled twice, for the
    traced argument is an int the first time and a float the second. *)
Lemma same_static_value_compiles_again :
  let g_jit_correct :=
    mkJitted (fun2 (@g sym _)) [1%nat] (List.length (jits (@initial_world sym))) in
  let w0 := snd (jax_jit (fun2 g) [1%nat] 21%nat initial_world) in
  let w1 := snd (call_jit g_jit_correct [PyInt 10; PyInt 20] 21%nat w0) in
  let w2 := snd (call_jit g_jit_correct [PyFloat (flit "10.0"); PyInt 20] 21%nat w1) in
  nth_error [@PyInt sym 10; PyInt 20] 1 = nth_error [PyFloat (flit "10.0"); PyInt 20] 1 /\
  fst (call_jit g_jit_correct [PyInt 10; PyInt 20] 21%nat w0)
  = Ok (DeviceArray int32 [] [EInt 30]) /\
  compiles w1 g_jit_correct = 1%nat /\
  fst (call_jit g_jit_correct [PyFloat (flit "10.0"); PyInt 20] 21%nat w1)
  = Ok (DeviceArray float32 [] [EFloat (fadd (flit "10.0") (f_of_Z 20))]) /\
  compiles w2 g_jit_correct = 2%nat.
Proof. vm_compute. repeat split. Qed.


(** ** The further statements at concrete inputs *)

(** The third cell's array, [jax.numpy.array([1, 2, 3])], given to [log2]
    directly. *)
Lemma log2_maps_over_arrays_witness :
  frame (@initial_world sym) = None /\
  List.length [@EInt sym 1; EInt 2; EInt 3] = size [3%N] /\
  fst (log2 (DeviceArray int32 [3%N] [EInt 1; EInt 2; EInt 3]) 1%nat initial_world)
  = Ok (DeviceArray float32 [3%N] (map log2_elt [@EInt sym 1; EInt 2; EInt 3])).
Proof.
  split; [reflexivity | ]. split; [reflexivity | ].
  apply (log2_maps_over_arrays (F := sym)); reflexivity.
Defined.

(** [selu] on the array [[-1, 0, 2]]. *)
Lemma selu_maps_over_arrays_witness :
  frame (@initial_world sym) = None /\
  List.length [@EInt sym (-1); EInt 0; EInt 2] = size [3%N] /\
  fst (selu (DeviceArray int32 [3%N] [EInt (-1); EInt 0; EInt 2])
            (PyFloat (flit "1.67")) (PyFloat (flit "1.05")) 1%nat initial_world)
  = Ok (DeviceArray float32 [3%N]
          (map (selu_elt int32 (flit "1.67") (flit "1.05"))
               [@EInt sym (-1); EInt 0; EInt 2])).
Proof.
  split; [reflexivity | ]. split; [reflexivity | ].
  apply (selu_maps_over_arrays (F := sym)); reflexivity.
Defined.

(** The fifth cell on the array [[-1, 0, 2]]: the warm-up call, then two
    runs of the call that is timed. *)
Lemma selu_jit_compiles_once_witness :
  frame (@initial_world sym) = None /\
  List.length [@EInt sym (-1); EInt 0; EInt 2] = size [3%N] /\
  (let x := @DeviceArray sym int32 [3%N] [EInt (-1); EInt 0; EInt 2] in
   let selu_jit := mkJitted selu_fn [] (List.length (jits (@initial_world sym))) in
   let w0 := snd (jax_jit selu_fn [] 1%nat initial_world) in
   let w1 := snd (call_jit selu_jit [x] 1%nat w0) in
   let wn := call_seq selu_jit (repeat [x] 1) 1%nat w1 in
   compiles w0 selu_jit = 0%nat /\
   compiles w1 selu_jit = 1%nat /\
   compiles (snd (call_jit selu_jit [x] 1%nat wn)) selu_jit = 1%nat).
Proof.
  split; [reflexivity | ]. split; [reflexivity | ].
  intros x selu_jit w0 w1 wn.
  destruct (selu_jit_compiles_once (F := sym) int32 [3%N]
              [EInt (-1); EInt 0; EInt 2] 1%nat 1%nat initial_world eq_refl eq_refl)
    as (H0 & H1 & Hn & _).
  split; [exact H0 | ]. split; [exact H1 | exact Hn].
Defined.

(** [f] on the device scalar [-3]. *)
Lemma f_on_arrays_witness :
  frame (@initial_world sym) = None /\
  List.length [@EInt sym (-3)] = size [] /\
  fst (f (DeviceArray int32 [] [EInt (-3)]) 1%nat initial_world)
  = Ok (if elt_positive int32 (@EInt sym (-3))
        then DeviceArray int32 [] [EInt (-3)]
        else DeviceArray (promote int32 int32) [] [elt_double int32 (EInt (-3))]).
Proof.
  split; [reflexivity | ]. split; [reflexivity | ].
  destruct (f_on_arrays (F := sym) int32 [] [EInt (-3)] 1%nat initial_world
              eq_refl eq_refl)
    as [_ H].
  exact (H (EInt (-3)) eq_refl).
Defined.

(** The tenth cell: [f_jit_correct(10)]. *)
Lemma f_jit_correct_is_a_constant_witness :
  in_int32 (f_int 10) = true /\
  (let f_jit_correct :=
     mkJitted (fun1 (@f sym _)) [0%nat] (List.length (jits (@initial_world sym))) in
   let w0 := snd (jax_jit (fun1 f) [0%nat] 1%nat initial_world) in
   fst (call_jit f_jit_correct [PyInt 10] 1%nat w0)
   = Ok (DeviceArray int32 [] [EInt (f_int 10)])).
Proof.
  split; [reflexivity | ]. cbv zeta.
  destruct (f_jit_correct_is_a_constant (F := sym) 10 1%nat initial_world eq_refl)
    as (_ & H & _).
  exact H.
Defined.

(** The eleventh cell: [g_jit_correct(10, 20)], then [g_jit_correct(7, 20)]. *)
Lemma g_jit_correct_runs_the_loop_when_tracing_witness :
  frame (@initial_world sym) = None /\
  (Z.to_nat (Z.max 20 0) < 21)%nat /\
  20 <= 2147483647 /\
  in_int32 10 = true /\
  in_int32 7 = true /\
  (let g_jit_correct :=
     mkJitted (fun2 (@g sym _)) [1%nat] (List.length (jits (@initial_world sym))) in
   let w0 := snd (jax_jit (fun2 g) [1%nat] 21%nat initial_world) in
   fst (call_jit g_jit_correct [PyInt 10; PyInt 20] 21%nat w0)
   = Ok (DeviceArray int32 [] [EInt (wrap32 (10 + Z.max 20 0))])).
Proof.
  split; [reflexivity | ]. split; [vm_compute; lia | ]. split; [lia | ].
  split; [reflexivity | ]. split; [reflexivity | ]. cbv zeta.
  destruct (g_jit_correct_runs_the_loop_when_tracing (F := sym) 10 7 20 21%nat
              initial_world eq_refl ltac:(vm_compute; lia) ltac:(lia) eq_refl eq_refl)
    as (H & _).
  exact H.
Defined.

(** [log2] jitted and called on [3.0], then on [4.0]. *)
Lemma jitted_side_effects_run_once_witness :
  frame (@initial_world sym) = None /\
  (let log2_jit :=
     mkJitted (fun1 (@log2 sym _)) [] (List.length (jits (@initial_world sym))) in
   let w0 := snd (jax_jit (fun1 log2) [] 1%nat initial_world) in
   let w1 := snd (call_jit log2_jit [PyFloat (flit "3.0")] 1%nat w0) in
   let w2 := snd (call_jit log2_jit [PyFloat (flit "4.0")] 1%nat w1) in
   global_list w1
   = global_list (@initial_world sym) ++ [Tracer (mkShaped float32 [] true) 0%nat] /\
   global_list w2 = global_list w1).
Proof.
  split; [reflexivity | ]. cbv zeta.
  destruct (jitted_side_effects_run_once (F := sym) (flit "3.0") (flit "4.0") 1%nat
              initial_world eq_refl)
    as ((_ & H1 & _ & H2) & _).
  split; [exact H1 | exact H2].
Defined.

(** The eighth cell: [g_inner_jitted(10, 20)]. *)
Lemma g_inner_jitted_compiles_at_most_twice_witness :
  frame (@initial_world sym) = None /\
  (Z.to_nat (Z.max 20 0) < 21)%nat /\
  20 <= 2147483647 /\
  (let jitted_body :=
     mkJitted (fun1 (@loop_body_fn sym _)) [] (List.length (jits (@initial_world sym))) in
   let w' := snd (bind loop_body
                    (fun lb => @g_inner_jitted sym _ lb (PyInt 10) (PyInt 20))
                    21%nat initial_world) in
   (compiles w' jitted_body <= 2)%nat /\
   (0 < 20 -> (1 <= compiles w' jitted_body)%nat) /\
   loop_iterations w' = (loop_iterations (@initial_world sym) + Z.to_nat (Z.max 20 0))%nat).
Proof.
  split; [reflexivity | ]. split; [vm_compute; lia | ]. split; [lia | ].
  intros jitted_body w'.
  destruct (g_inner_jitted_compiles_at_most_twice (F := sym) (PyInt 10) 20 21%nat
              initial_world eq_refl ltac:(vm_compute; lia) ltac:(lia))
    as (H2 & H1 & _ & _ & _ & Hl).
  split; [exact H2 | ]. split; [exact H1 | exact Hl].
Defined.

(** The notebook with every [%timeit] repeating its statement twice. *)
Lemma notebook_prints_the_recorded_output_witness :
  frame (@initial_world sym) = None /\
  (20 < 21)%nat /\
  fst (@notebook sym _ (fun _ => 2%nat) 21%nat initial_world) = Ok tt /\
  stdout (snd (@notebook sym _ (fun _ => 2%nat) 21%nat initial_world))
  = stdout (@initial_world sym) ++ recorded_output.
Proof.
  split; [reflexivity | ]. split; [lia | ].
  apply (notebook_prints_the_recorded_output (F := sym) (fun _ => 2%nat) 21%nat
           initial_world eq_refl).
  lia.
Defined.

(** [log2_if_rank_2(3.0)] and [log2_if_rank_2] of the third cell's array,
    called directly. *)
Lemma log2_if_rank_2_called_directly_witness :
  py_scalar (@PyFloat sym (flit "3.0")) <> None /\
  log2_if_rank_2 (@PyFloat sym (flit "3.0")) 1%nat initial_world
  = (Raise AttributeError, initial_world) /\
  py_scalar (@DeviceArray sym int32 [3%N] [EInt 1; EInt 2; EInt 3]) = None /\
  List.length (sa_shape (get_aval (@DeviceArray sym int32 [3%N] [EInt 1; EInt 2; EInt 3])))
  <> 2%nat /\
  log2_if_rank_2 (@DeviceArray sym int32 [3%N] [EInt 1; EInt 2; EInt 3]) 1%nat initial_world
  = (Ok (DeviceArray int32 [3%N] [EInt 1; EInt 2; EInt 3]), initial_world).
Proof.
  assert (H1 : py_scalar (@PyFloat sym (flit "3.0")) <> None) by discriminate.
  assert (H2 : List.length
                 (sa_shape (get_aval (@DeviceArray sym int32 [3%N] [EInt 1; EInt 2; EInt 3])))
               <> 2%nat) by (cbn; lia).
  split; [exact H1 | ].
  split.
  { apply (log2_if_rank_2_called_directly (F := sym) (PyFloat (flit "3.0")) 1%nat
             initial_world).
    exact H1. }
  split; [reflexivity | ]. split; [exact H2 | ].
  apply (log2_if_rank_2_called_directly (F := sym)
           (DeviceArray int32 [3%N] [EInt 1; EInt 2; EInt 3]) 1%nat initial_world);
    [reflexivity | exact H2].
Defined.

(** An array of rank 2, one row of two floats. *)
Lemma log2_if_rank_2_traces_like_log2_witness :
  rank (@DeviceArray sym float32 [1%N; 2%N] [EFloat (flit "0.5"); EFloat (flit "1.5")])
  = 2%nat /\
  (exists jp,
     fst (make_jaxpr (fun1 log2_if_rank_2)
            [@DeviceArray sym float32 [1%N; 2%N] [EFloat (flit "0.5"); EFloat (flit "1.5")]]
            1%nat initial_world) = Ok jp /\
     fst (make_jaxpr (fun1 log2)
            [@DeviceArray sym float32 [1%N; 2%N] [EFloat (flit "0.5"); EFloat (flit "1.5")]]
            1%nat initial_world) = Ok jp /\
     eqns jp <> []).
Proof.
  split; [reflexivity | ].
  destruct (log2_if_rank_2_traces_like_log2 (F := sym)
              (DeviceArray float32 [1%N; 2%N] [EFloat (flit "0.5"); EFloat (flit "1.5")])
              1%nat initial_world eq_refl)
    as (H & _).
  exact H.
Defined.

